(** * mixbox.fields: typed entity fields

    A shallow embedding of [mixbox/fields.py] (typed-field descriptors,
    the typed list, class-reference resolution, [unset] and [find]) and
    the proofs of its specified properties.

    Python objects that are shared and mutated (descriptors, list
    objects, entities) live in a store and are named by their identity;
    every function that reads or writes them is written in a state and
    exception monad. *)

From Stdlib Require Import ZArith String Ascii List Lia.
From stdpp Require Import base option list gmap strings fin_maps.

Local Open Scope string_scope.
Local Open Scope Z_scope.

(** ** Python values *)

(** The values the module handles.  Lists are objects with identity and
    are held by reference ([VRef]); a class is named by its qualified
    name; an instance of a user class carries the value it was built
    from; callables (hooks) are compared by identity. *)
Inductive value : Type :=
| VNone
| VBool (b : bool)
| VInt (n : Z)
| VStr (s : string)
| VClass (c : string)
| VObj (c : string) (payload : value)
| VRef (a : positive)
| VFunc (n : positive).

Global Instance value_eq_dec : EqDecision value.
Proof.
  unfold EqDecision, Decision. decide equality;
    match goal with |- {?x = ?y} + {_} => exact (decide (x = y)) end.
Defined.

(** A raised exception: its class, the format string of its message and
    the arguments the message is formatted with. *)
Record exn : Type := Exn {
  exc_type : string;
  exc_format : string;
  exc_args : list value
}.

(** What a class offers to this module: the optional [istypeof]
    predicate, the [_try_cast] marker, the result of calling the class
    on one argument, and the truth value of its instances. *)
Record PyClass : Type := {
  istypeof : option (value -> bool);
  _try_cast : bool;
  construct : value -> exn + value;
  instance_truth : value -> bool
}.

(** ** Objects of the module *)

Module _TypedList.
(** [_TypedList]: the element type and the wrapped list. *)
Record t : Type := mk { _type : value; _inner : list value }.
End _TypedList.

(** The classes of descriptors defined by the module. *)
Inductive FieldClass : Type :=
| TypedFieldClass | BytesField | TextField | BooleanField | IntegerField
| LongField | FloatField | DateTimeField | DateField | CDATAField
| IdField | IdrefField.

Global Instance FieldClass_eq_dec : EqDecision FieldClass.
Proof. solve_decision. Defined.

(** [self.listclass]: [list], or [functools.partial(_TypedList, type_)]. *)
Inductive ListClass : Type :=
| PlainListClass
| PartialTypedList (type_ : value).

Module TypedField.
(** The attributes [TypedField.__init__] sets, and the descriptor's class. *)
Record t : Type := mk {
  class_ : FieldClass;
  name : string;
  _type : value;
  _key_name : value;
  comparable : bool;
  multiple : bool;
  preset_hook : option positive;
  postset_hook : option positive;
  is_type_castable : bool;
  _factory : value;
  listclass : ListClass
}.

Definition with_type (f : t) (v : value) : t :=
  mk (class_ f) (name f) v (_key_name f) (comparable f) (multiple f)
     (preset_hook f) (postset_hook f) (is_type_castable f) (_factory f)
     (listclass f).

Definition with_factory (f : t) (v : value) : t :=
  mk (class_ f) (name f) (_type f) (_key_name f) (comparable f) (multiple f)
     (preset_hook f) (postset_hook f) (is_type_castable f) v
     (listclass f).
End TypedField.

(** A list object: a plain Python list or a [_TypedList]. *)
Inductive HeapObj : Type :=
| PyList (items : list value)
| PyTypedList (tl : _TypedList.t).

Definition items_of (o : HeapObj) : list value :=
  match o with
  | PyList l => l
  | PyTypedList tl => _TypedList._inner tl
  end.

(** An entity instance: its [_fields] dictionary, keyed by descriptor
    identity, and the [typed_fields] it exposes (if it has the attribute). *)
Record Entity : Type := mkEntity {
  _fields : gmap positive value;
  typed_fields : option (list positive)
}.

Global Instance Entity_inhabited : Inhabited Entity :=
  populate (mkEntity ∅ None).

(** The store: descriptors, list objects, entities, and the log of the
    calls made to [importlib.import_module]. *)
Record World : Type := mkWorld {
  descriptors : gmap positive TypedField.t;
  heap : gmap positive HeapObj;
  next_addr : positive;
  entities : gmap positive Entity;
  imported : list string
}.

(** A hook invocation: the hook, the instance and the value passed. *)
Record HookCall : Type := mkHookCall {
  hc_hook : positive;
  hc_instance : positive;
  hc_value : value
}.

(** The store together with the trace of hook invocations; hooks act on
    the store and cannot touch the trace. *)
Record State : Type := mkState {
  world : World;
  hook_calls : list HookCall
}.

(** ** The state and exception monad *)

Inductive Outcome (A : Type) : Type :=
| Return (a : A)
| Raise (e : exn).
Arguments Return {A} a.
Arguments Raise {A} e.

Definition M (S A : Type) : Type := S -> Outcome A * S.

Definition ret {S A} (a : A) : M S A := fun s => (Return a, s).

Definition raise {S A} (e : exn) : M S A := fun s => (Raise e, s).

Definition bind {S A B} (m : M S A) (k : A -> M S B) : M S B :=
  fun s =>
    match m s with
    | (Return a, s') => k a s'
    | (Raise e, s') => (Raise e, s')
    end.

Definition gets {S A} (f : S -> A) : M S A := fun s => (Return (f s), s).

Definition modify {S} (f : S -> S) : M S unit := fun s => (Return tt, f s).

(** A pure computation that may raise. *)
Definition of_sum {S A} (r : exn + A) : M S A :=
  match r with
  | inl e => raise e
  | inr a => ret a
  end.

(** Run a computation on the store inside a computation on the state. *)
Definition lift {A} (m : M World A) : M State A :=
  fun st =>
    match m (world st) with
    | (r, w') => (r, mkState w' (hook_calls st))
    end.

Declare Scope py_scope.
Delimit Scope py_scope with py.
Notation "'let*' x ':=' m 'in' k" := (bind m (fun x => k))
  (at level 10, x name, m at level 100, k at level 200, only parsing)
  : py_scope.
Notation "m '>>' k" := (bind m (fun _ => k))
  (at level 100, k at level 200, right associativity, only parsing)
  : py_scope.
Local Open Scope py_scope.

(** ** Store updates *)

Definition set_descriptor (i : positive) (f : TypedField.t) (w : World) : World :=
  mkWorld (<[i := f]> (descriptors w)) (heap w) (next_addr w) (entities w)
          (imported w).

Definition set_heap (h : gmap positive HeapObj) (n : positive) (w : World) : World :=
  mkWorld (descriptors w) h n (entities w) (imported w).

Definition fields_of (w : World) (instance : positive) : gmap positive value :=
  _fields (entities w !!! instance).

Definition set_fields (instance : positive) (m : gmap positive value)
    (w : World) : World :=
  mkWorld (descriptors w) (heap w) (next_addr w)
          (<[instance := mkEntity m (typed_fields (entities w !!! instance))]>
             (entities w))
          (imported w).

Definition log_import (modname : string) (w : World) : World :=
  mkWorld (descriptors w) (heap w) (next_addr w) (entities w)
          (imported w ++ [modname]).

(** Allocate a new list object and return a reference to it. *)
Definition alloc (o : HeapObj) : M World value :=
  fun w =>
    (Return (VRef (next_addr w)),
     set_heap (<[next_addr w := o]> (heap w)) (Pos.succ (next_addr w)) w).

(** The result of reading an attribute of a descriptor: a value of the
    model, or an object of the interpreter that is no value of the model
    (a bound method, the [functools.partial] object of [listclass], the
    instance dictionary). *)
Inductive Attr : Type :=
| AttrValue (v : value)
| AttrObject.

(** ** The Python environment and the collaborators outside this module *)

(** What the module takes from its environment. *)
Class PyEnv : Type := {
  (** The classes known by name, and the subclass relation between them. *)
  classes : string -> PyClass;
  issubclass : string -> string -> bool;
  (** [importlib.import_module]: a module is the map of its attributes. *)
  import_module : string -> exn + (string -> option value);
  (** The body of a hook: [hook(instance, value)] acting on the store. *)
  call_hook : positive -> positive -> value -> M World unit;
  (** Comparison with an instance of a user class: [x == y], and
      [a != y] for an attribute [a] of a descriptor, when one side is
      such an instance, are what the [__eq__] and [__ne__] of its class
      decide (the identity of the objects when it defines none). *)
  instance_eq : gmap positive HeapObj -> value -> value -> exn + bool;
  instance_ne : gmap positive HeapObj -> Attr -> value -> exn + bool;
  (** [str.lower], the lower-casing of the interpreter. *)
  lower : string -> string;
  (** Conversions used by the typed subclasses: [six.binary_type],
      [six.text_type], [int], [long], [float], [int(s, 0)], [long(s, 0)],
      and the parsers of [mixbox.dates] and [mixbox.xml]. *)
  binary_type : value -> exn + value;
  text_type : value -> exn + value;
  py_int : value -> exn + value;
  py_long : value -> exn + value;
  py_float : value -> exn + value;
  int_base0 : string -> exn + value;
  long_base0 : string -> exn + value;
  parse_datetime : value -> exn + value;
  parse_date : value -> exn + value;
  strip_cdata : value -> exn + value
}.

Section Fields.

Context {env : PyEnv}.

(** ** Builtins *)

(** [bool(v)]. *)
Definition truthy (h : gmap positive HeapObj) (v : value) : bool :=
  match v with
  | VNone => false
  | VBool b => b
  | VInt n => negb (n =? 0)
  | VStr s => negb (String.eqb s "")
  | VClass _ => true
  | VObj c p => instance_truth (classes c) p
  | VRef a =>
      match h !! a with
      | Some o => match items_of o with [] => false | _ :: _ => true end
      | None => true
      end
  | VFunc _ => true
  end.

(** The qualified name of [type(v)]. *)
Definition type_name (h : gmap positive HeapObj) (v : value) : string :=
  match v with
  | VNone => "NoneType"
  | VBool _ => "bool"
  | VInt _ => "int"
  | VStr _ => "str"
  | VClass _ => "type"
  | VObj c _ => c
  | VRef a =>
      match h !! a with
      | Some (PyTypedList _) => "mixbox.fields._TypedList"
      | _ => "list"
      end
  | VFunc _ => "function"
  end.

Definition type_of (h : gmap positive HeapObj) (v : value) : value :=
  VClass (type_name h v).

(** [isinstance(v, classinfo)] for a single class; any other second
    argument is a [TypeError]. *)
Definition isinstance (h : gmap positive HeapObj) (v classinfo : value)
    : exn + bool :=
  match classinfo with
  | VClass c => inr (issubclass (type_name h v) c)
  | _ => inl (Exn "TypeError"
                  "isinstance() arg 2 must be a type or tuple of types" [])
  end.

(** [getattr(t, "istypeof")] when [hasattr(t, "istypeof")]: the attribute
    of a class, also reached through its instances. *)
Definition istypeof_of (t : value) : option (value -> bool) :=
  match t with
  | VClass c | VObj c _ => istypeof (classes c)
  | _ => None
  end.

(** [getattr(t, "_try_cast", False)], as a truth value. *)
Definition try_cast_of (t : value) : bool :=
  match t with
  | VClass c | VObj c _ => _try_cast (classes c)
  | _ => false
  end.

(** [t(arg)]: only classes are callable here. *)
Definition call (t arg : value) : exn + value :=
  match t with
  | VClass c => construct (classes c) arg
  | _ => inl (Exn "TypeError" "'%s' object is not callable" [t])
  end.

(** The items of two lists of the same length compared from left to
    right, up to the first pair that differs. *)
Fixpoint items_eq (eq : value -> value -> exn + bool) (l1 l2 : list value)
    : exn + bool :=
  match l1, l2 with
  | x :: r1, y :: r2 =>
      match eq x y with
      | inl e => inl e
      | inr true => items_eq eq r1 r2
      | inr false => inr false
      end
  | _, _ => inr true
  end.

(** [x == y] with at most [depth] nested list comparisons.  Numbers
    compare by value ([True == 1]); strings, classes and functions with
    themselves only; a list object equals itself, two plain lists are
    equal when they have the same length and equal items, and a
    [_TypedList], which defines no [__eq__], equals itself only; a
    comparison with an instance of a user class is the environment's. *)
Fixpoint eq_within (depth : nat) (h : gmap positive HeapObj) (x y : value)
    {struct depth} : exn + bool :=
  match x, y with
  | VObj _ _, _ | _, VObj _ _ => instance_eq h x y
  | VRef a, VRef b =>
      if decide (a = b) then inr true
      else
        match h !! a, h !! b with
        | Some (PyList l1), Some (PyList l2) =>
            if negb (length l1 =? length l2)%nat then inr false
            else
              match depth with
              | O => inl (Exn "RecursionError"
                              "maximum recursion depth exceeded in comparison"
                              [])
              | S depth' => items_eq (eq_within depth' h) l1 l2
              end
        | _, _ => inr false
        end
  | VBool b, VInt k | VInt k, VBool b => inr ((if b then 1 else 0) =? k)
  | _, _ => inr (bool_decide (x = y))
  end.

(** [x == y].  A comparison that nests deeper than the number of pairs
    of list objects compares some pair of lists inside itself: it does
    not end, and the interpreter raises [RecursionError]. *)
Definition py_eq (h : gmap positive HeapObj) (x y : value) : exn + bool :=
  eq_within (S (size h * size h)) h x y.

(** [s.rsplit(".", 1)] when it yields two parts. *)
Fixpoint rsplit_dot (s : string) : option (string * string) :=
  match s with
  | EmptyString => None
  | String c rest =>
      match rsplit_dot rest with
      | Some (m, k) => Some (String c m, k)
      | None => if Ascii.eqb c "." then Some (EmptyString, rest) else None
      end
  end.

(** Modelled from the spec: [mixbox.datautils.is_sequence] is not part of
    the module; it is the predicate that distinguishes iterable
    collections from scalar values.  Here the list objects are the
    collections; strings and the other values are scalars. *)
Definition is_sequence (v : value) : bool :=
  match v with
  | VRef _ => true
  | _ => false
  end.

(** ** Class-reference resolution *)

Definition _import_class (classpath : string) : M World value :=
  match rsplit_dot classpath with
  | None =>
      raise (Exn "ValueError"
                 "not enough values to unpack (expected 2, got 1)" [])
  | Some (modname, classname) =>
      modify (log_import modname) >>
      let* module := of_sum (import_module modname) in
      match module classname with
      | Some klass => ret klass
      | None =>
          raise (Exn "AttributeError" "module '%s' has no attribute '%s'"
                     [VStr modname; VStr classname])
      end
  end.

Definition _resolve_class (classref : value) : M World value :=
  match classref with
  | VNone => ret VNone
  | VClass c => ret (VClass c)
  | VStr s => _import_class s
  | _ => raise (Exn "ValueError" "Unable to resolve class for '%s'" [classref])
  end.

(** ** _TypedList *)

Definition _TypedList__is_valid (h : gmap positive HeapObj)
    (self : _TypedList.t) (v : value) : exn + bool :=
  match istypeof_of (_TypedList._type self) with
  | Some p => inr (p v)
  | None => isinstance h v (_TypedList._type self)
  end.

Definition _TypedList__fix_value (h : gmap positive HeapObj)
    (self : _TypedList.t) (v : value) : exn + value :=
  match call (_TypedList._type self) v with
  | inr new_value => inr new_value
  | inl _ =>
      inl (Exn "ValueError"
               "Can't put '{0}' ({1}) into a {2}. Expected a {3} object."
               [v; type_of h v; VClass "mixbox.fields._TypedList";
                _TypedList._type self])
  end.

(** The value stored for [v]: itself when valid, its coercion otherwise. *)
Definition validated (h : gmap positive HeapObj) (self : _TypedList.t)
    (v : value) : exn + value :=
  match _TypedList__is_valid h self v with
  | inl e => inl e
  | inr true => inr v
  | inr false => _TypedList__fix_value h self v
  end.

(** [list.insert(idx, x)]: a negative index counts from the end, and the
    position is clamped to the list. *)
Definition list_insert_at (idx : Z) (x : value) (l : list value) : list value :=
  let n := Z.of_nat (length l) in
  let i := if idx <? 0 then Z.max 0 (idx + n) else Z.min idx n in
  take (Z.to_nat i) l ++ x :: drop (Z.to_nat i) l.

(** [list.__setitem__(key, x)] for an integer key. *)
Definition list_setitem (key : Z) (x : value) (l : list value)
    : exn + list value :=
  let n := Z.of_nat (length l) in
  let i := if key <? 0 then key + n else key in
  if ((0 <=? i) && (i <? n))%bool then inr (<[Z.to_nat i := x]> l)
  else inl (Exn "IndexError" "list assignment index out of range" []).

Definition _TypedList___setitem__ (h : gmap positive HeapObj)
    (self : _TypedList.t) (key : Z) (v : value) : exn + _TypedList.t :=
  match validated h self v with
  | inl e => inl e
  | inr v' =>
      match list_setitem key v' (_TypedList._inner self) with
      | inl e => inl e
      | inr l => inr (_TypedList.mk (_TypedList._type self) l)
      end
  end.

Definition _TypedList_insert (h : gmap positive HeapObj)
    (self : _TypedList.t) (idx : Z) (v : value) : exn + _TypedList.t :=
  if negb (truthy h v) then inr self
  else
    match validated h self v with
    | inl e => inl e
    | inr v' =>
        inr (_TypedList.mk (_TypedList._type self)
                           (list_insert_at idx v' (_TypedList._inner self)))
    end.

Definition _TypedList___len__ (self : _TypedList.t) : Z :=
  Z.of_nat (length (_TypedList._inner self)).

(** [MutableSequence.append]: [self.insert(len(self), value)]. *)
Definition _TypedList_append (h : gmap positive HeapObj)
    (self : _TypedList.t) (v : value) : exn + _TypedList.t :=
  _TypedList_insert h self (_TypedList___len__ self) v.

(** [MutableSequence.extend]: append every value in turn. *)
Fixpoint _TypedList_extend (h : gmap positive HeapObj)
    (self : _TypedList.t) (values : list value) : exn + _TypedList.t :=
  match values with
  | [] => inr self
  | v :: rest =>
      match _TypedList_append h self v with
      | inl e => inl e
      | inr self' => _TypedList_extend h self' rest
      end
  end.

(** An argument of [_TypedList(type, *args)]: a sequence to extend with,
    or a single item to append. *)
Inductive InitArg : Type :=
| ArgSequence (items : list value)
| ArgItem (v : value).

Fixpoint _TypedList_init_args (h : gmap positive HeapObj)
    (self : _TypedList.t) (args : list InitArg) : exn + _TypedList.t :=
  match args with
  | [] => inr self
  | item :: rest =>
      match (match item with
             | ArgSequence l => _TypedList_extend h self l
             | ArgItem v => _TypedList_append h self v
             end) with
      | inl e => inl e
      | inr self' => _TypedList_init_args h self' rest
      end
  end.

Definition _TypedList___init__ (h : gmap positive HeapObj) (type : value)
    (args : list InitArg) : exn + _TypedList.t :=
  _TypedList_init_args h (_TypedList.mk type []) args.
(** ** TypedField *)

(** [TypedField.__init__], for a descriptor of class [cls]. *)
Definition TypedField___init__ (h : gmap positive HeapObj) (cls : FieldClass)
    (name : string) (type_ key_name : value) (comparable multiple : bool)
    (preset_hook postset_hook : option positive) (factory : value)
    : TypedField.t :=
  TypedField.mk cls name type_ key_name comparable multiple
    preset_hook postset_hook (try_cast_of type_) factory
    (if truthy h type_ then PartialTypedList type_ else PlainListClass).

(** Read the descriptor object [self]. *)
Definition get_descriptor (self : positive) : M World TypedField.t :=
  fun w =>
    match descriptors w !! self with
    | Some f => (Return f, w)
    | None => (Raise (Exn "ReferenceError" "no such descriptor" []), w)
    end.

(** The [type_] property: resolve, store the result in [_type], return it. *)
Definition TypedField_type_ (self : positive) : M World value :=
  let* f := get_descriptor self in
  let* r := _resolve_class (TypedField._type f) in
  modify (set_descriptor self (TypedField.with_type f r)) >>
  ret r.

(** The [factory] property. *)
Definition TypedField_factory (self : positive) : M World value :=
  let* f := get_descriptor self in
  let* r := _resolve_class (TypedField._factory f) in
  modify (set_descriptor self (TypedField.with_factory f r)) >>
  ret r.

(** The [key_name] property. *)
Definition TypedField_key_name (self : positive) : M World value :=
  let* f := get_descriptor self in
  let* h := gets heap in
  if truthy h (TypedField._key_name f) then ret (TypedField._key_name f)
  else ret (VStr (lower (TypedField.name f))).

(** The [transformer] property. *)
Definition TypedField_transformer (self : positive) : M World value :=
  let* fac := TypedField_factory self in
  let* h := gets heap in
  if truthy h fac then TypedField_factory self
  else
    let* t := TypedField_type_ self in
    let* h' := gets heap in
    if truthy h' t then TypedField_type_ self else ret VNone.

Definition TypedField_check_type (self : positive) (v : value) : M World bool :=
  let* t := TypedField_type_ self in
  let* h := gets heap in
  if negb (truthy h t) then ret true
  else
    let* t1 := TypedField_type_ self in
    match istypeof_of t1 with
    | Some _ =>
        let* t2 := TypedField_type_ self in
        match istypeof_of t2 with
        | Some p => ret (p v)
        | None =>
            raise (Exn "AttributeError" "'%s' has no attribute 'istypeof'" [t2])
        end
    | None =>
        let* t2 := TypedField_type_ self in
        let* h' := gets heap in
        of_sum (isinstance h' v t2)
    end.

(** [TypedField._clean]. *)
Definition TypedField__clean (self : positive) (v : value) : M World value :=
  match v with
  | VNone => ret VNone
  | _ =>
      let* t := TypedField_type_ self in
      match t with
      | VNone => ret v
      | _ =>
          let* ok := TypedField_check_type self v in
          if ok then ret v
          else
            let* f := get_descriptor self in
            if TypedField.is_type_castable f then
              let* t1 := TypedField_type_ self in
              of_sum (call t1 v)
            else
              let* t1 := TypedField_type_ self in
              let* h := gets heap in
              raise (Exn "TypeError" "%s must be a %s, not a %s"
                         [VStr (TypedField.name f); t1; type_of h v])
      end
  end.

(** [value in (None, "")]: the value is compared with each item in
    turn. *)
Definition is_none_or_empty (h : gmap positive HeapObj) (v : value)
    : exn + bool :=
  match py_eq h v VNone with
  | inl e => inl e
  | inr true => inr true
  | inr false => py_eq h v (VStr "")
  end.

Definition IntegerField__clean (h : gmap positive HeapObj) (v : value)
    : exn + value :=
  match is_none_or_empty h v with
  | inl e => inl e
  | inr true => inr VNone
  | inr false =>
      match v with
      | VStr s => int_base0 s
      | _ => py_int v
      end
  end.

Definition LongField__clean (h : gmap positive HeapObj) (v : value)
    : exn + value :=
  match is_none_or_empty h v with
  | inl e => inl e
  | inr true => inr VNone
  | inr false =>
      match v with
      | VStr s => long_base0 s
      | _ => py_long v
      end
  end.

Definition FloatField__clean (h : gmap positive HeapObj) (v : value)
    : exn + value :=
  match is_none_or_empty h v with
  | inl e => inl e
  | inr true => inr VNone
  | inr false => py_float v
  end.

(** [self._clean(value)]: the method of the descriptor's class. *)
Definition clean (self : positive) (v : value) : M World value :=
  let* f := get_descriptor self in
  match TypedField.class_ f with
  | TypedFieldClass | IdField | IdrefField => TypedField__clean self v
  | BytesField => of_sum (binary_type v)
  | TextField => of_sum (text_type v)
  | BooleanField => let* h := gets heap in ret (VBool (truthy h v))
  | IntegerField => let* h := gets heap in of_sum (IntegerField__clean h v)
  | LongField => let* h := gets heap in of_sum (LongField__clean h v)
  | FloatField => let* h := gets heap in of_sum (FloatField__clean h v)
  | DateTimeField => of_sum (parse_datetime v)
  | DateField => of_sum (parse_date v)
  | CDATAField => of_sum (strip_cdata v)
  end.

(** What [__get__] returns: the descriptor itself (class-level access)
    or a value. *)
Inductive GetResult : Type :=
| GotDescriptor (self : positive)
| GotValue (v : value).

(** [d.setdefault(key, default)]. *)
Definition setdefault (instance key : positive) (default : value)
    : M World value :=
  fun w =>
    match fields_of w instance !! key with
    | Some v => (Return v, w)
    | None =>
        (Return default,
         set_fields instance (<[key := default]> (fields_of w instance)) w)
    end.

Definition TypedField___get__ (self : positive) (instance : option positive)
    : M World GetResult :=
  match instance with
  | None => ret (GotDescriptor self)
  | Some i =>
      let* stored := gets (fun w => fields_of w i !! self) in
      match stored with
      | Some v => ret (GotValue v)
      | None =>
          let* f := get_descriptor self in
          if TypedField.multiple f then
            let* empty := alloc (PyList []) in
            let* v := setdefault i self empty in
            ret (GotValue v)
          else ret (GotValue VNone)
      end
  end.

(** [list(self._clean(x) for x in value if x is not None)]. *)
Fixpoint list_cleaned (self : positive) (xs : list value)
    : M World (list value) :=
  match xs with
  | [] => ret []
  | VNone :: rest => list_cleaned self rest
  | x :: rest =>
      let* c := clean self x in
      let* cs := list_cleaned self rest in
      ret (c :: cs)
  end.

(** [_TypedList(type, self._clean(x) for x in value if x is not None)]:
    the generator is consumed by [extend], one element at a time. *)
Fixpoint extend_cleaned (self : positive) (tl : _TypedList.t)
    (xs : list value) : M World _TypedList.t :=
  match xs with
  | [] => ret tl
  | VNone :: rest => extend_cleaned self tl rest
  | x :: rest =>
      let* c := clean self x in
      let* h := gets heap in
      let* tl' := of_sum (_TypedList_append h tl c) in
      extend_cleaned self tl' rest
  end.

(** The elements of a sequence value, for iteration. *)
Definition iterate (v : value) : M World (list value) :=
  fun w =>
    match v with
    | VRef a =>
        match heap w !! a with
        | Some o => (Return (items_of o), w)
        | None => (Raise (Exn "ReferenceError" "no such object" []), w)
        end
    | _ => (Raise (Exn "TypeError" "'%s' object is not iterable" [v]), w)
    end.

(** [self.listclass()], [self.listclass([c])]: a new list object. *)
Definition listclass_of_list (lc : ListClass) (l : list value) (with_arg : bool)
    : M World value :=
  match lc with
  | PlainListClass => alloc (PyList l)
  | PartialTypedList type_ =>
      let* h := gets heap in
      let* tl := of_sum (_TypedList___init__ h type_
                           (if with_arg then [ArgSequence l] else [])) in
      alloc (PyTypedList tl)
  end.

(** [self.listclass(self._clean(x) for x in value if x is not None)]. *)
Definition listclass_of_generator (self : positive) (lc : ListClass)
    (xs : list value) : M World value :=
  match lc with
  | PlainListClass =>
      let* cs := list_cleaned self xs in
      alloc (PyList cs)
  | PartialTypedList type_ =>
      let* tl := extend_cleaned self (_TypedList.mk type_ []) xs in
      alloc (PyTypedList tl)
  end.

(** The value [__set__] stores. *)
Definition value_to_store (self : positive) (v : value) : M World value :=
  let* f := get_descriptor self in
  if TypedField.multiple f then
    match v with
    | VNone => listclass_of_list (TypedField.listclass f) [] false
    | _ =>
        if negb (is_sequence v) then
          let* c := clean self v in
          listclass_of_list (TypedField.listclass f) [c] true
        else
          let* xs := iterate v in
          listclass_of_generator self (TypedField.listclass f) xs
    end
  else clean self v.

(** Call a hook if there is one, recording the call. *)
Definition run_hook (hook : option positive) (instance : positive) (v : value)
    : M State unit :=
  match hook with
  | None => ret tt
  | Some hk =>
      fun st =>
        match call_hook hk instance v (world st) with
        | (r, w') => (r, mkState w' (hook_calls st ++ [mkHookCall hk instance v]))
        end
  end.

Definition TypedField___set__ (self instance : positive) (v : value)
    : M State unit :=
  let* v' := lift (value_to_store self v) in
  let* f := lift (get_descriptor self) in
  run_hook (TypedField.preset_hook f) instance v' >>
  lift (modify (fun w => set_fields instance (<[self := v']> (fields_of w instance)) w)) >>
  let* f' := lift (get_descriptor self) in
  run_hook (TypedField.postset_hook f') instance v'.

(** ** unset *)

(** The second argument of [isinstance] in [unset]: the tuple of the
    classes passed, or the list that replaces an empty tuple. *)
Inductive ClassInfo : Type :=
| TupleOf (types : list FieldClass)
| ListOf (types : list FieldClass).

(** Every descriptor class of the module derives directly from
    [TypedField]. *)
Definition field_subclass (c k : FieldClass) : bool :=
  (bool_decide (k = TypedFieldClass) || bool_decide (c = k))%bool.

Definition isinstance_field (w : World) (x : positive) (types : ClassInfo)
    : exn + bool :=
  match types with
  | TupleOf l =>
      inr (match descriptors w !! x with
           | Some f => existsb (field_subclass (TypedField.class_ f)) l
           | None => false
           end)
  | ListOf _ =>
      inl (Exn "TypeError"
               "isinstance() arg 2 must be a type or tuple of types" [])
  end.

Fixpoint unset_loop (entity : positive) (types : ClassInfo)
    (fields : list positive) : M World unit :=
  match fields with
  | [] => ret tt
  | x :: rest =>
      let* w := gets id in
      let* remove := of_sum (isinstance_field w x types) in
      (if remove
       then modify (fun w => set_fields entity (delete x (fields_of w entity)) w)
       else ret tt) >>
      unset_loop entity types rest
  end.

Definition unset (entity : positive) (types : list FieldClass) : M World unit :=
  let types' := match types with
                | [] => ListOf [TypedFieldClass]
                | _ :: _ => TupleOf types
                end in
  let* fields := gets (fun w => (map_to_list (fields_of w entity)).*1) in
  unset_loop entity types' fields.

(** ** IdField and IdrefField *)

Definition IdField___set__ (self instance : positive) (v : value)
    : M State unit :=
  TypedField___set__ self instance v >>
  let* h := gets (fun st => heap (world st)) in
  if truthy h v then lift (unset instance [IdrefField]) else ret tt.

Definition IdrefField___set__ (self instance : positive) (v : value)
    : M State unit :=
  TypedField___set__ self instance v >>
  let* h := gets (fun st => heap (world st)) in
  if truthy h v then lift (unset instance [IdField]) else ret tt.

(** Attribute assignment [instance.field = v]: the [__set__] of the
    descriptor's class. *)
Definition setattr (self instance : positive) (v : value) : M State unit :=
  let* f := lift (get_descriptor self) in
  match TypedField.class_ f with
  | IdField => IdField___set__ self instance v
  | IdrefField => IdrefField___set__ self instance v
  | _ => TypedField___set__ self instance v
  end.

(** ** find *)

Definition hook_value (hook : option positive) : value :=
  match hook with
  | Some hk => VFunc hk
  | None => VNone
  end.

(** The instance attributes of a descriptor, as set by [__init__]. *)
Definition instance_attr (f : TypedField.t) (key : string) : option Attr :=
  if String.eqb key "name" then Some (AttrValue (VStr (TypedField.name f)))
  else if String.eqb key "_type" then Some (AttrValue (TypedField._type f))
  else if String.eqb key "_key_name" then Some (AttrValue (TypedField._key_name f))
  else if String.eqb key "comparable" then Some (AttrValue (VBool (TypedField.comparable f)))
  else if String.eqb key "multiple" then Some (AttrValue (VBool (TypedField.multiple f)))
  else if String.eqb key "preset_hook" then Some (AttrValue (hook_value (TypedField.preset_hook f)))
  else if String.eqb key "postset_hook" then Some (AttrValue (hook_value (TypedField.postset_hook f)))
  else if String.eqb key "is_type_castable" then Some (AttrValue (VBool (TypedField.is_type_castable f)))
  else if String.eqb key "_factory" then Some (AttrValue (TypedField._factory f))
  else if String.eqb key "listclass" then
    Some (match TypedField.listclass f with
          | PlainListClass => AttrValue (VClass "list")
          | PartialTypedList _ => AttrObject
          end)
  else None.

(** The methods the descriptor classes of the module define. *)
Definition is_method (key : string) : bool :=
  (String.eqb key "__init__" || String.eqb key "__get__"
   || String.eqb key "__set__" || String.eqb key "__str__"
   || String.eqb key "_clean" || String.eqb key "check_type")%bool.

(** The qualified names of the descriptor classes. *)
Definition class_name (c : FieldClass) : string :=
  match c with
  | TypedFieldClass => "mixbox.fields.TypedField"
  | BytesField => "mixbox.fields.BytesField"
  | TextField => "mixbox.fields.TextField"
  | BooleanField => "mixbox.fields.BooleanField"
  | IntegerField => "mixbox.fields.IntegerField"
  | LongField => "mixbox.fields.LongField"
  | FloatField => "mixbox.fields.FloatField"
  | DateTimeField => "mixbox.fields.DateTimeField"
  | DateField => "mixbox.fields.DateField"
  | CDATAField => "mixbox.fields.CDATAField"
  | IdField => "mixbox.fields.IdField"
  | IdrefField => "mixbox.fields.IdrefField"
  end.

(** The methods an instance inherits from [object] (Python 3.6 to 3.9,
    the versions that still have [collections.MutableSequence]), apart
    from [__init__] and [__str__], which the module defines. *)
Definition object_methods : list string :=
  ["__delattr__"; "__dir__"; "__eq__"; "__format__"; "__ge__";
   "__getattribute__"; "__gt__"; "__hash__"; "__init_subclass__"; "__le__";
   "__lt__"; "__ne__"; "__new__"; "__reduce__"; "__reduce_ex__"; "__repr__";
   "__setattr__"; "__sizeof__"; "__subclasshook__"].

(** The attributes a descriptor has without the module naming them: its
    class, the docstring of the class (no descriptor class has one), the
    module of the class, the weak-reference slot, the instance
    dictionary and the methods of [object]. *)
Definition inherited_attr (f : TypedField.t) (key : string) : option Attr :=
  if String.eqb key "__class__" then
    Some (AttrValue (VClass (class_name (TypedField.class_ f))))
  else if String.eqb key "__doc__" then Some (AttrValue VNone)
  else if String.eqb key "__module__" then
    Some (AttrValue (VStr "mixbox.fields"))
  else if String.eqb key "__weakref__" then Some (AttrValue VNone)
  else if String.eqb key "__dict__" then Some AttrObject
  else if existsb (String.eqb key) object_methods then Some AttrObject
  else None.

(** [getattr(field, key)]: the instance attributes, the properties and
    methods of the class, and the attributes inherited from [object]. *)
Definition getattr_field (self : positive) (key : string) : M World Attr :=
  let* f := get_descriptor self in
  match instance_attr f key with
  | Some a => ret a
  | None =>
      if String.eqb key "type_" then
        let* r := TypedField_type_ self in ret (AttrValue r)
      else if String.eqb key "factory" then
        let* r := TypedField_factory self in ret (AttrValue r)
      else if String.eqb key "key_name" then
        let* r := TypedField_key_name self in ret (AttrValue r)
      else if String.eqb key "transformer" then
        let* r := TypedField_transformer self in ret (AttrValue r)
      else if is_method key then ret AttrObject
      else
        match inherited_attr f key with
        | Some a => ret a
        | None =>
            raise (Exn "AttributeError" "'%s' object has no attribute '%s'"
                       [VClass (class_name (TypedField.class_ f)); VStr key])
        end
  end.

(** [hasattr(field, key)]: the attribute is read, and an
    [AttributeError] means it is absent. *)
Definition hasattr_field (self : positive) (key : string) : M World bool :=
  fun w =>
    match getattr_field self key w with
    | (Return _, w') => (Return true, w')
    | (Raise e, w') =>
        if String.eqb (exc_type e) "AttributeError" then (Return false, w')
        else (Raise e, w')
    end.

(** [a != value]: for values of the interpreter the negation of [==];
    an object that is no value of the model differs from every value
    that is not an instance of a user class. *)
Definition attr_ne (h : gmap positive HeapObj) (a : Attr) (v : value)
    : exn + bool :=
  match a, v with
  | _, VObj _ _ | AttrValue (VObj _ _), _ => instance_ne h a v
  | AttrValue x, _ =>
      match py_eq h x v with
      | inl e => inl e
      | inr b => inr (negb b)
      end
  | AttrObject, _ => inr true
  end.

Fixpoint _matches (field : positive) (params : list (string * value))
    : M World bool :=
  match params with
  | [] => ret true
  | (key, v) :: rest =>
      let* has := hasattr_field field key in
      if negb has then ret false
      else
        let* a := getattr_field field key in
        let* h := gets heap in
        let* differs := of_sum (attr_ne h a v) in
        if differs then ret false
        else _matches field rest
  end.

(** [kwargmap.get(param, param)]. *)
Definition kwargmap_get (param : string) : string :=
  if String.eqb param "factory" then "_factory"
  else if String.eqb param "key_name" then "_key_name"
  else param.

(** [params[key] = v] on a dictionary kept in insertion order. *)
Fixpoint dict_set (key : string) (v : value) (d : list (string * value))
    : list (string * value) :=
  match d with
  | [] => [(key, v)]
  | (k, x) :: rest =>
      if String.eqb k key then (k, v) :: rest
      else (k, x) :: dict_set key v rest
  end.

Definition remap_params (kwargs : list (string * value))
    : list (string * value) :=
  fold_left (fun params kv => dict_set (kwargmap_get kv.1) kv.2 params)
            kwargs [].

(** [[x for x in fields if _matches(x, params)]]. *)
Fixpoint matching (params : list (string * value)) (fields : list positive)
    : M World (list positive) :=
  match fields with
  | [] => ret []
  | x :: rest =>
      let* ok := _matches x params in
      let* xs := matching params rest in
      ret (if ok then x :: xs else xs)
  end.

Definition find (entity : positive) (kwargs : list (string * value))
    : M World (list positive) :=
  let* e := gets (fun w => entities w !!! entity) in
  match typed_fields e with
  | None => ret []
  | Some declared => matching (remap_params kwargs) declared
  end.

(** ** The other methods of _TypedList and TypedField *)

(** [list.__getitem__(key)] for an integer key. *)
Definition list_getitem (key : Z) (l : list value) : exn + value :=
  let n := Z.of_nat (length l) in
  let i := if key <? 0 then key + n else key in
  if ((0 <=? i) && (i <? n))%bool then
    match l !! Z.to_nat i with
    | Some x => inr x
    | None => inl (Exn "IndexError" "list index out of range" [])
    end
  else inl (Exn "IndexError" "list index out of range" []).

(** [list.__delitem__(key)] for an integer key. *)
Definition list_delitem (key : Z) (l : list value) : exn + list value :=
  let n := Z.of_nat (length l) in
  let i := if key <? 0 then key + n else key in
  if ((0 <=? i) && (i <? n))%bool then inr (delete (Z.to_nat i) l)
  else inl (Exn "IndexError" "list assignment index out of range" []).

Definition _TypedList___getitem__ (self : _TypedList.t) (key : Z)
    : exn + value :=
  list_getitem key (_TypedList._inner self).

Definition _TypedList___delitem__ (self : _TypedList.t) (key : Z)
    : exn + _TypedList.t :=
  match list_delitem key (_TypedList._inner self) with
  | inl e => inl e
  | inr l => inr (_TypedList.mk (_TypedList._type self) l)
  end.

(** [__nonzero__]: [bool(self._inner)]. *)
Definition _TypedList___nonzero__ (self : _TypedList.t) : bool :=
  match _TypedList._inner self with
  | [] => false
  | _ :: _ => true
  end.

(** The setter of the [type_] property: [self._type = value]. *)
Definition TypedField_type__setter (self : positive) (v : value)
    : M World unit :=
  let* f := get_descriptor self in
  modify (set_descriptor self (TypedField.with_type f v)).

(** The setter of the [factory] property: [self._factory = value]. *)
Definition TypedField_factory_setter (self : positive) (v : value)
    : M World unit :=
  let* f := get_descriptor self in
  modify (set_descriptor self (TypedField.with_factory f v)).

(** [TypedField.__str__]. *)
Definition TypedField___str__ (self : positive) : M World string :=
  let* f := get_descriptor self in
  ret (TypedField.name f).


(** ** Notions used to state the properties *)

(** The string contains the separator ["."]. *)
Fixpoint has_dot (s : string) : bool :=
  match s with
  | EmptyString => false
  | String c rest => (Ascii.eqb c "." || has_dot rest)%bool
  end.

(** A class reference that needs no resolution: absent, or a class. *)
Definition settled (t : value) : bool :=
  match t with
  | VNone | VClass _ => true
  | _ => false
  end.

(** A reference that is neither absent, nor a class, nor a string. *)
Definition invalid_reference (t : value) : bool :=
  match t with
  | VNone | VClass _ | VStr _ => false
  | _ => true
  end.

(** The type-membership test of class [c]: its [istypeof] predicate if
    it has one, an instance check otherwise. *)
Definition satisfies (h : gmap positive HeapObj) (c : string) (v : value)
    : bool :=
  match istypeof (classes c) with
  | Some p => p v
  | None => issubclass (type_name h v) c
  end.

(** The outcome of calling class [c] on [v]. *)
Definition constructed (c : string) (v : value) : Outcome value :=
  match construct (classes c) v with
  | inl e => Raise e
  | inr r => Return r
  end.

(** The error [_clean] raises for a value of the wrong type. *)
Definition type_mismatch (f : TypedField.t) (t : value)
    (h : gmap positive HeapObj) (v : value) : exn :=
  Exn "TypeError" "%s must be a %s, not a %s"
      [VStr (TypedField.name f); t; type_of h v].

(** The error [_fix_value] raises when the coercion fails. *)
Definition cannot_put (h : gmap positive HeapObj) (self : _TypedList.t)
    (v : value) : exn :=
  Exn "ValueError" "Can't put '{0}' ({1}) into a {2}. Expected a {3} object."
      [v; type_of h v; VClass "mixbox.fields._TypedList"; _TypedList._type self].

(** Calling a class never yields [None]. *)
Definition construct_not_none : Prop :=
  forall c x r, construct (classes c) x = inr r -> r <> VNone.

(** The position [__setitem__] writes for an integer key. *)
Definition position (key : Z) (l : list value) : Z :=
  if key <? 0 then key + Z.of_nat (length l) else key.

(** The descriptor [x] is an instance of one of the classes [types]. *)
Definition instance_of_any (w : World) (types : list FieldClass)
    (x : positive) : bool :=
  match descriptors w !! x with
  | Some f => existsb (field_subclass (TypedField.class_ f)) types
  | None => false
  end.

(** [w'] differs from [w] at most in the [_fields] of [entity]. *)
Definition same_but_fields (entity : positive) (w w' : World) : Prop :=
  descriptors w' = descriptors w
  /\ heap w' = heap w
  /\ next_addr w' = next_addr w
  /\ imported w' = imported w
  /\ (forall e, e <> entity -> entities w' !! e = entities w !! e)
  /\ typed_fields (entities w' !!! entity)
     = typed_fields (entities w !!! entity).

(** The list object of list class [lc] holding [l]. *)
Definition list_object (lc : ListClass) (l : list value) : HeapObj :=
  match lc with
  | PlainListClass => PyList l
  | PartialTypedList type_ => PyTypedList (_TypedList.mk type_ l)
  end.

(** The effect of a hook that may be absent, and the call it adds to the
    trace. *)
Definition hook_effect (hook : option positive) (instance : positive)
    (v : value) : M World unit :=
  match hook with
  | Some hk => call_hook hk instance v
  | None => ret tt
  end.

Definition hook_trace (hook : option positive) (instance : positive)
    (v : value) : list HookCall :=
  match hook with
  | Some hk => [mkHookCall hk instance v]
  | None => []
  end.

(** The non-null elements of a sequence. *)
Definition non_null (xs : list value) : list value :=
  filter (fun x => x <> VNone) xs.

(** The entity holds a truthy value for some field of kind [k]. *)
Definition holds_nonempty (w : World) (entity : positive) (k : FieldClass)
    : Prop :=
  exists x f v,
    descriptors w !! x = Some f
    /\ field_subclass (TypedField.class_ f) k = true
    /\ fields_of w entity !! x = Some v
    /\ truthy (heap w) v = true.

(** The entity does not hold both a truthy Id value and a truthy Idref
    value. *)
Definition exclusive (w : World) (entity : positive) : Prop :=
  ~ (holds_nonempty w entity IdField /\ holds_nonempty w entity IdrefField).

(** A descriptor without hooks. *)
Definition hook_free (f : TypedField.t) : Prop :=
  TypedField.preset_hook f = None /\ TypedField.postset_hook f = None.

(** A descriptor of the Id or of the Idref class. *)
Definition identifying (f : TypedField.t) : Prop :=
  TypedField.class_ f = IdField \/ TypedField.class_ f = IdrefField.

(** The descriptor is single-valued, its castable flag is unset, and
    the value assigned, if it is a list object, is not empty. *)
Definition stored_as_given (h : gmap positive HeapObj) (f : TypedField.t)
    (v : value) : Prop :=
  TypedField.multiple f = false
  /\ TypedField.is_type_castable f = false
  /\ (is_sequence v = true -> truthy h v = true).

(** The states an entity reaches from an empty field storage by
    assignments through descriptors without hooks, whether they return
    or raise, where an assignment through an Id or Idref descriptor is
    to a single-valued descriptor that is not castable and not of an
    empty list; and by any change of the list objects in between. *)
Inductive assigned (entity : positive) : State -> Prop :=
| assigned_empty st :
    fields_of (world st) entity = ∅ -> assigned entity st
| assigned_setattr st self f v r st' :
    assigned entity st ->
    descriptors (world st) !! self = Some f ->
    hook_free f ->
    (identifying f -> stored_as_given (heap (world st)) f v) ->
    setattr self entity v st = (r, st') ->
    assigned entity st'
| assigned_mutation st h n :
    assigned entity st ->
    assigned entity (mkState (set_heap h n (world st)) (hook_calls st)).

(** The settings of a descriptor: all but its two class references,
    which reading resolves. *)
Definition settings (f : TypedField.t) : TypedField.t :=
  TypedField.with_factory (TypedField.with_type f VNone) VNone.

(** The descriptors are the same up to their class references. *)
Definition same_settings (w w1 : World) : Prop :=
  forall x, settings <$> descriptors w1 !! x = settings <$> descriptors w !! x.

(** The entity holds, for some field of kind [k], a list object or a
    truthy value. *)
Definition may_hold (w : World) (entity : positive) (k : FieldClass)
    : Prop :=
  exists x f v,
    descriptors w !! x = Some f
    /\ field_subclass (TypedField.class_ f) k = true
    /\ fields_of w entity !! x = Some v
    /\ (is_sequence v = true \/ truthy (heap w) v = true).

(** The entity does not hold such values for both an Id and an Idref
    field. *)
Definition apart (w : World) (entity : positive) : Prop :=
  ~ (may_hold w entity IdField /\ may_hold w entity IdrefField).

(** Modelled from the spec: the criteria of [find] are keyword arguments
    of the constructor of a descriptor. *)
Inductive Keyword : Type :=
| kw_name | kw_type_ | kw_key_name | kw_comparable | kw_multiple
| kw_preset_hook | kw_postset_hook | kw_factory.

Global Instance Keyword_eq_dec : EqDecision Keyword.
Proof. solve_decision. Defined.

Definition keyword_name (k : Keyword) : string :=
  match k with
  | kw_name => "name"
  | kw_type_ => "type_"
  | kw_key_name => "key_name"
  | kw_comparable => "comparable"
  | kw_multiple => "multiple"
  | kw_preset_hook => "preset_hook"
  | kw_postset_hook => "postset_hook"
  | kw_factory => "factory"
  end.


(** Modelled from the spec: what a criterion is compared with, the
    attribute of the descriptor that has its name, except that [factory]
    and [key_name] are compared with the internal factory slot and the
    key-name-override slot, as the constructor filled them. *)
Definition sought_attribute (f : TypedField.t) (k : Keyword) : value :=
  match k with
  | kw_name => VStr (TypedField.name f)
  | kw_type_ => TypedField._type f
  | kw_key_name => TypedField._key_name f
  | kw_comparable => VBool (TypedField.comparable f)
  | kw_multiple => VBool (TypedField.multiple f)
  | kw_preset_hook => hook_value (TypedField.preset_hook f)
  | kw_postset_hook => hook_value (TypedField.postset_hook f)
  | kw_factory => TypedField._factory f
  end.

(** The attribute [a] is not different from the value [v] sought. *)
Definition equals (h : gmap positive HeapObj) (a v : value) : bool :=
  match attr_ne h (AttrValue a) v with
  | inr false => true
  | _ => false
  end.

(** The descriptor meets every criterion. *)
Definition meets (h : gmap positive HeapObj) (f : TypedField.t)
    (cs : list (Keyword * value)) : bool :=
  forallb (fun c => equals h (sought_attribute f c.1) c.2) cs.



(** The keys of [keys] that satisfy [P] deleted from [m], first to last. *)
Definition remove_keys (P : positive -> bool) (keys : list positive)
    (m : gmap positive value) : gmap positive value :=
  fold_left (fun m x => if P x then delete x m else m) keys m.

(** The values the arguments of [_TypedList(type, *args)] hold, a
    sequence argument contributing its elements. *)
Definition args_items (args : list InitArg) : list value :=
  concat (map (fun a => match a with
                        | ArgSequence l => l
                        | ArgItem v => [v]
                        end) args).

(** The truthy values of a list. *)
Definition truthy_items (h : gmap positive HeapObj) (l : list value)
    : list value :=
  filter (fun x => truthy h x = true) l.

(** [x] passes the element-type test for [t], or is what calling [t] on
    some value returned. *)
Definition admissible (h : gmap positive HeapObj) (t x : value) : Prop :=
  _TypedList__is_valid h (_TypedList.mk t []) x = inr true
  \/ exists y, call t y = inr x.

(** The position [list.insert] uses for index [idx]. *)
Definition insert_position (idx : Z) (l : list value) : Z :=
  if idx <? 0 then Z.max 0 (idx + Z.of_nat (length l))
  else Z.min idx (Z.of_nat (length l)).


(** Every run of [m] relates the store before to the store after by [R],
    whether it returns or raises. *)
Definition keeps {A} (R : World -> World -> Prop) (m : M World A) : Prop :=
  forall w r w1, m w = (r, w1) -> R w w1.

(** The entities are the same. *)
Definition same_entities (w w1 : World) : Prop :=
  entities w1 = entities w.

(** The entities and the list objects are the same: only descriptors
    and the import log may differ. *)
Definition same_objects (w w1 : World) : Prop :=
  entities w1 = entities w /\ heap w1 = heap w /\ next_addr w1 = next_addr w.

(** The store is the same. *)
Definition same_store (w w1 : World) : Prop := w1 = w.


(** The outcome of a conversion. *)
Definition outcome {A} (x : exn + A) : Outcome A :=
  match x with
  | inl e => Raise e
  | inr a => Return a
  end.

(** The descriptors an entity declares; none when it has no
    [typed_fields]. *)
Definition declared_fields (w : World) (entity : positive) : list positive :=
  match typed_fields (entities w !!! entity) with
  | Some declared => declared
  | None => []
  end.


(** [v'] is a reference to an object allocated between [w] and [w']:
    the next free address of [w], which [w'] binds to a new object
    while every other address and every entity is as in [w]. *)
Definition fresh_object (w : World) (v' : value) (w' : World) : Prop :=
  v' = VRef (next_addr w)
  /\ next_addr w' = Pos.succ (next_addr w)
  /\ (exists o, heap w' = <[next_addr w := o]> (heap w))
  /\ entities w' = entities w.

(** Whenever [m] returns, it returns a reference to a fresh object. *)
Definition allocates (m : M World value) : Prop :=
  forall w v' w', m w = (Return v', w') -> fresh_object w v' w'.

(** The error of [isinstance] for a second argument that is no class. *)
Definition not_a_class : exn :=
  Exn "TypeError" "isinstance() arg 2 must be a type or tuple of types" [].


End Fields.

(** * A concrete environment *)

(** Three classes: [int]; [demo.Name], which is marked [_try_cast] and
    wraps the value it is called on; and, under any other name, a class
    that cannot be called with an argument. *)
Definition demo_classes (c : string) : PyClass :=
  if String.eqb c "int" then
    {| istypeof := None;
       _try_cast := false;
       construct := fun v =>
         match v with
         | VInt n => inr (VInt n)
         | VBool b => inr (VInt (if b then 1 else 0))
         | _ => inl (Exn "TypeError"
                         "int() argument must be a number, not '%s'" [v])
         end;
       instance_truth := fun _ => true |}
  else if String.eqb c "demo.Name" then
    {| istypeof := None;
       _try_cast := true;
       construct := fun v => inr (VObj "demo.Name" v);
       instance_truth := fun _ => true |}
  else
    {| istypeof := None;
       _try_cast := false;
       construct := fun _ =>
         inl (Exn "TypeError" "%s() takes no arguments" [VStr c]);
       instance_truth := fun _ => true |}.

Definition demo_issubclass (c k : string) : bool :=
  (String.eqb c k || String.eqb k "object"
   || (String.eqb c "bool" && String.eqb k "int"))%bool.

(** The only module is [demo], whose only member is the class [Name]. *)
Definition demo_import (m : string) : exn + (string -> option value) :=
  if String.eqb m "demo" then
    inr (fun k => if String.eqb k "Name" then Some (VClass "demo.Name")
                  else None)
  else inl (Exn "ImportError" "No module named '%s'" [VStr m]).

Definition demo_hook : positive -> positive -> value -> M World unit :=
  fun _ _ _ => ret tt.

Definition demo_convert : value -> exn + value := fun v => inr v.

Definition demo_parse : string -> exn + value := fun s => inr (VStr s).

(** Instances of [Name] compare by the value they wrap. *)
Definition demo_instance_eq (h : gmap positive HeapObj) (x y : value)
    : exn + bool :=
  inr (bool_decide (x = y)).

Definition demo_instance_ne (h : gmap positive HeapObj) (a : Attr) (v : value)
    : exn + bool :=
  match a with
  | AttrValue x => inr (negb (bool_decide (x = v)))
  | AttrObject => inr true
  end.

(** [str.lower] on strings of ASCII characters: the letters [A] to [Z]
    are replaced by [a] to [z]. *)
Definition demo_lower_ascii (c : ascii) : ascii :=
  let n := nat_of_ascii c in
  if (Nat.leb 65 n && Nat.leb n 90)%bool then ascii_of_nat (n + 32) else c.

Fixpoint demo_lower (s : string) : string :=
  match s with
  | EmptyString => EmptyString
  | String c rest => String (demo_lower_ascii c) (demo_lower rest)
  end.

(** The environment made of them. *)
Definition demo_env : PyEnv :=
  {| classes := demo_classes;
     issubclass := demo_issubclass;
     import_module := demo_import;
     call_hook := demo_hook;
     instance_eq := demo_instance_eq;
     instance_ne := demo_instance_ne;
     lower := demo_lower;
     binary_type := demo_convert;
     text_type := demo_convert;
     py_int := demo_convert;
     py_long := demo_convert;
     py_float := demo_convert;
     int_base0 := demo_parse;
     long_base0 := demo_parse;
     parse_datetime := demo_convert;
     parse_date := demo_convert;
     strip_cdata := demo_convert |}.

Definition demo_field := TypedField___init__ (env := demo_env) ∅.

(** [id_ = IdField("id_", type_=Name)]. *)
Definition demo_id : TypedField.t :=
  demo_field IdField "id_" (VClass "demo.Name") VNone true false None None VNone.

(** [idref = IdrefField("idref")]. *)
Definition demo_idref : TypedField.t :=
  demo_field IdrefField "idref" VNone VNone true false None None VNone.

(** [numbers = TypedField("numbers", type_=int, multiple=True,
    comparable=False)]. *)
Definition demo_numbers : TypedField.t :=
  demo_field TypedFieldClass "numbers" (VClass "int") VNone false true
    None None VNone.

(** [lazy = TypedField("lazy", type_="demo.Name", comparable=False)]. *)
Definition demo_lazy : TypedField.t :=
  demo_field TypedFieldClass "lazy" (VStr "demo.Name") VNone false false
    None None VNone.

(** [ident = IdField("ident")]. *)
Definition demo_ident : TypedField.t :=
  demo_field IdField "ident" VNone VNone true false None None VNone.

(** [tags = TypedField("tags", multiple=True, preset_hook=hook7,
    postset_hook=hook8)]. *)
Definition demo_tags : TypedField.t :=
  demo_field TypedFieldClass "tags" VNone VNone true true
    (Some 7%positive) (Some 8%positive) VNone.

(** A store with the six descriptors, the list [[None, "a", None, "b"]]
    at address 1, and one entity, number 1, that declares the
    descriptors and has an empty field storage. *)
Definition demo_world : World :=
  mkWorld
    (<[1%positive := demo_id]>
       (<[2%positive := demo_idref]>
          (<[3%positive := demo_numbers]>
             (<[4%positive := demo_lazy]>
                (<[5%positive := demo_ident]>
                   (<[6%positive := demo_tags]> ∅))))))
    (<[1%positive := PyList [VNone; VStr "a"; VNone; VStr "b"]]> ∅)
    2%positive
    (<[1%positive := mkEntity ∅ (Some [1; 2; 3; 4; 5; 6]%positive)]> ∅)
    [].

Definition demo_state : State := mkState demo_world [].

Definition demo_setattr : positive -> positive -> value -> M State unit :=
  setattr (env := demo_env).

Definition demo_set : positive -> positive -> value -> M State unit :=
  TypedField___set__ (env := demo_env).

Definition demo_clean : positive -> value -> M World value :=
  clean (env := demo_env).

(** The state after [entity.idref = "Y"]. *)
Definition demo_with_idref : State :=
  (demo_setattr 2 1 (VStr "Y") demo_state).2.

(** The state after [entity.idref = "Y"; entity.id_ = ""]. *)
Definition demo_with_both : State :=
  (demo_setattr 1 1 (VStr "") demo_with_idref).2.

(** The state after [entity.numbers = 0]. *)
Definition demo_with_zero : State :=
  (demo_setattr 3 1 (VInt 0) demo_state).2.

(** The state after [entity.tags = [None, "a", None, "b"]]. *)
Definition demo_with_tags : State :=
  (demo_setattr 6 1 (VRef 1) demo_state).2.

(** The state after [entity.idref = "Y"; entity.ident = "X"], by the
    normal set and by the set of [IdField]. *)
Definition demo_ident_stored : State :=
  (demo_set 5 1 (VStr "X") demo_with_idref).2.

(** The store after the first read of [lazy.type_]. *)
Definition demo_resolved : World :=
  (TypedField_type_ (env := demo_env) 4 demo_world).2.

(** More descriptors: [missing = TypedField("missing",
    type_="nowhere.Thing")], [count = IntegerField("count")],
    [flag = BooleanField("flag")], [names = TypedField("names",
    type_="demo.Name", multiple=True)], [Title = TypedField("Title")] and
    [made = TypedField("made", type_=int, factory=Name)]. *)
Definition demo_missing : TypedField.t :=
  demo_field TypedFieldClass "missing" (VStr "nowhere.Thing") VNone true false
    None None VNone.

Definition demo_count : TypedField.t :=
  demo_field IntegerField "count" VNone VNone true false None None VNone.

Definition demo_flag : TypedField.t :=
  demo_field BooleanField "flag" VNone VNone true false None None VNone.

Definition demo_names : TypedField.t :=
  demo_field TypedFieldClass "names" (VStr "demo.Name") VNone true true
    None None VNone.

Definition demo_title : TypedField.t :=
  demo_field TypedFieldClass "Title" VNone VNone true false None None VNone.

Definition demo_made : TypedField.t :=
  demo_field TypedFieldClass "made" (VClass "int") VNone true false
    None None (VClass "demo.Name").

(** The store [demo_world] with these six descriptors added. *)
Definition demo_world_more : World :=
  mkWorld
    (<[7%positive := demo_missing]>
       (<[8%positive := demo_count]>
          (<[9%positive := demo_flag]>
             (<[10%positive := demo_names]>
                (<[11%positive := demo_title]>
                   (<[12%positive := demo_made]>
                      (descriptors demo_world)))))))
    (heap demo_world) (next_addr demo_world) (entities demo_world)
    (imported demo_world).

Definition demo_state_more : State := mkState demo_world_more [].

(** [built = TypedField("built", factory="demo.Name")], added to
    [demo_world]. *)
Definition demo_built : TypedField.t :=
  demo_field TypedFieldClass "built" VNone VNone true false None None
    (VStr "demo.Name").

Definition demo_world_built : World :=
  set_descriptor 13 demo_built demo_world.

(** The error of importing [nowhere]. *)
Definition demo_import_error : exn :=
  Exn "ImportError" "No module named '%s'" [VStr "nowhere"].

(** * Proofs *)

Section Properties.

Set Default Proof Using "Type".

Context {env : PyEnv}.

(** ** The store *)

Lemma with_type_same f : TypedField.with_type f (TypedField._type f) = f.
Proof. by destruct f. Qed.

Lemma with_factory_same f :
  TypedField.with_factory f (TypedField._factory f) = f.
Proof. by destruct f. Qed.

Lemma set_descriptor_same i f w :
  descriptors w !! i = Some f -> set_descriptor i f w = w.
Proof.
  intros H. destruct w as [d h n e l]. unfold set_descriptor. simpl in *.
  by rewrite insert_id.
Qed.

Lemma fields_of_set_fields i m w : fields_of (set_fields i m w) i = m.
Proof. unfold fields_of, set_fields. simpl. by rewrite lookup_total_insert_eq. Qed.

(** ** Class-reference resolution *)

Lemma rsplit_dot_none k : has_dot k = false -> rsplit_dot k = None.
Proof.
  induction k as [|c k IH]; simpl; [done|].
  intros H. apply orb_false_iff in H as [Hc Hk].
  by rewrite (IH Hk), Hc.
Qed.

Lemma rsplit_dot_last m k :
  has_dot k = false -> rsplit_dot (m +:+ "." +:+ k) = Some (m, k).
Proof.
  intros Hk. change ("." +:+ k) with (String "." k).
  induction m as [|c m IH]; simpl.
  - by rewrite (rsplit_dot_none k Hk).
  - by rewrite IH.
Qed.

Lemma import_class_run m k w :
  has_dot k = false ->
  _import_class (m +:+ "." +:+ k) w =
    (match import_module m with
     | inl e => Raise e
     | inr module =>
         match module k with
         | Some member => Return member
         | None => Raise (Exn "AttributeError"
                              "module '%s' has no attribute '%s'"
                              [VStr m; VStr k])
         end
     end, log_import m w).
Proof.
  intros Hk. unfold _import_class. rewrite (rsplit_dot_last m k Hk).
  unfold bind, modify, of_sum. simpl.
  destruct (import_module m) as [e|module]; [done|].
  simpl. by destruct (module k).
Qed.

Lemma resolve_settled t w :
  settled t = true -> _resolve_class t w = (Return t, w).
Proof. by destruct t. Qed.

Lemma type__settled self f w :
  descriptors w !! self = Some f ->
  settled (TypedField._type f) = true ->
  TypedField_type_ self w = (Return (TypedField._type f), w).
Proof.
  intros Hf Hs. unfold TypedField_type_, bind, get_descriptor. rewrite Hf.
  rewrite (resolve_settled _ _ Hs). unfold modify, ret.
  by rewrite with_type_same, (set_descriptor_same _ _ _ Hf).
Qed.

Lemma factory_settled self f w :
  descriptors w !! self = Some f ->
  settled (TypedField._factory f) = true ->
  TypedField_factory self w = (Return (TypedField._factory f), w).
Proof.
  intros Hf Hs. unfold TypedField_factory, bind, get_descriptor. rewrite Hf.
  rewrite (resolve_settled _ _ Hs). unfold modify, ret.
  by rewrite with_factory_same, (set_descriptor_same _ _ _ Hf).
Qed.

(** Resolution touches nothing but the import log. *)
Lemma resolve_class_frame t w r w1 :
  _resolve_class t w = (r, w1) ->
  descriptors w1 = descriptors w /\ heap w1 = heap w
  /\ next_addr w1 = next_addr w /\ entities w1 = entities w.
Proof.
  destruct t; simpl; unfold ret, raise; try (intros [= <- <-]; done).
  unfold _import_class. destruct (rsplit_dot s) as [[m k]|];
    [|unfold raise; intros [= <- <-]; done].
  unfold bind, modify, of_sum.
  destruct (import_module m) as [e|module]; simpl.
  - intros [= <- <-]; done.
  - destruct (module k); simpl; intros [= <- <-]; done.
Qed.

(** A successful read of [type_] leaves the result in [_type]. *)
Lemma type__stores self w t w1 :
  TypedField_type_ self w = (Return t, w1) ->
  exists f, descriptors w !! self = Some f
    /\ descriptors w1 !! self = Some (TypedField.with_type f t)
    /\ heap w1 = heap w /\ entities w1 = entities w
    /\ next_addr w1 = next_addr w.
Proof.
  unfold TypedField_type_, bind, get_descriptor.
  destruct (descriptors w !! self) as [f|] eqn:Hf; [|done].
  destruct (_resolve_class (TypedField._type f) w) as [[r|e] w'] eqn:Hr;
    [|done].
  unfold modify, ret. intros [= <- <-].
  apply resolve_class_frame in Hr as (Hd & Hh & Hn & He).
  exists f. simpl. rewrite lookup_insert_eq. by repeat split.
Qed.

(** C8: class-reference resolution maps an absent reference to a null
    result and a class to itself; a string is split at its last
    separator, the container is imported and the member looked up, the
    import error or an [AttributeError] being raised when either is
    missing; any other reference raises a [ValueError].  Reading [type_]
    (or [factory]) resolves the reference the descriptor holds: when the
    resolution gives a class, the read returns it and stores it in place
    of the reference, and every later read returns the class and leaves
    the store as it is; in particular, for a name whose container holds
    a class, the first read imports the container once and the later
    reads import nothing. *)
Theorem resolve_class_contract_and_cache (w : World) :
  _resolve_class VNone w = (Return VNone, w)
  /\ (forall c, _resolve_class (VClass c) w = (Return (VClass c), w))
  /\ (forall m k, has_dot k = false ->
        _resolve_class (VStr (m +:+ "." +:+ k)) w =
          (match import_module m with
           | inl e => Raise e
           | inr module =>
               match module k with
               | Some member => Return member
               | None => Raise (Exn "AttributeError"
                                    "module '%s' has no attribute '%s'"
                                    [VStr m; VStr k])
               end
           end, log_import m w))
  /\ (forall t, invalid_reference t = true ->
        _resolve_class t w =
          (Raise (Exn "ValueError" "Unable to resolve class for '%s'" [t]), w))
  /\ (forall self f c w1,
        descriptors w !! self = Some f ->
        _resolve_class (TypedField._type f) w = (Return (VClass c), w1) ->
        TypedField_type_ self w
        = (Return (VClass c),
           set_descriptor self (TypedField.with_type f (VClass c)) w1)
        /\ TypedField_type_ self
             (set_descriptor self (TypedField.with_type f (VClass c)) w1)
           = (Return (VClass c),
              set_descriptor self (TypedField.with_type f (VClass c)) w1))
  /\ (forall self f c w1,
        descriptors w !! self = Some f ->
        _resolve_class (TypedField._factory f) w = (Return (VClass c), w1) ->
        TypedField_factory self w
        = (Return (VClass c),
           set_descriptor self (TypedField.with_factory f (VClass c)) w1)
        /\ TypedField_factory self
             (set_descriptor self (TypedField.with_factory f (VClass c)) w1)
           = (Return (VClass c),
              set_descriptor self (TypedField.with_factory f (VClass c)) w1))
  /\ (forall self f m k c module,
        descriptors w !! self = Some f ->
        has_dot k = false ->
        import_module m = inr module ->
        module k = Some (VClass c) ->
        (TypedField._type f = VStr (m +:+ "." +:+ k) ->
         exists w2,
           TypedField_type_ self w = (Return (VClass c), w2)
           /\ imported w2 = (imported w ++ [m])%list
           /\ TypedField_type_ self w2 = (Return (VClass c), w2))
        /\ (TypedField._factory f = VStr (m +:+ "." +:+ k) ->
            exists w2,
              TypedField_factory self w = (Return (VClass c), w2)
              /\ imported w2 = (imported w ++ [m])%list
              /\ TypedField_factory self w2 = (Return (VClass c), w2))).
Proof.
  assert (Htype : forall self f c w1,
            descriptors w !! self = Some f ->
            _resolve_class (TypedField._type f) w = (Return (VClass c), w1) ->
            TypedField_type_ self w
            = (Return (VClass c),
               set_descriptor self (TypedField.with_type f (VClass c)) w1)
            /\ TypedField_type_ self
                 (set_descriptor self (TypedField.with_type f (VClass c)) w1)
               = (Return (VClass c),
                  set_descriptor self (TypedField.with_type f (VClass c)) w1)).
  { intros self f c w1 Hf Hr.
    assert (Hfirst : TypedField_type_ self w
              = (Return (VClass c),
                 set_descriptor self (TypedField.with_type f (VClass c)) w1)).
    { unfold TypedField_type_, bind, get_descriptor. by rewrite Hf, Hr. }
    split; [done|].
    rewrite (type__settled self (TypedField.with_type f (VClass c)));
      [done|by simpl; rewrite lookup_insert_eq|done]. }
  assert (Hfactory : forall self f c w1,
            descriptors w !! self = Some f ->
            _resolve_class (TypedField._factory f) w
            = (Return (VClass c), w1) ->
            TypedField_factory self w
            = (Return (VClass c),
               set_descriptor self (TypedField.with_factory f (VClass c)) w1)
            /\ TypedField_factory self
                 (set_descriptor self (TypedField.with_factory f (VClass c))
                    w1)
               = (Return (VClass c),
                  set_descriptor self (TypedField.with_factory f (VClass c))
                    w1)).
  { intros self f c w1 Hf Hr.
    assert (Hfirst : TypedField_factory self w
              = (Return (VClass c),
                 set_descriptor self (TypedField.with_factory f (VClass c))
                   w1)).
    { unfold TypedField_factory, bind, get_descriptor. by rewrite Hf, Hr. }
    split; [done|].
    rewrite (factory_settled self (TypedField.with_factory f (VClass c)));
      [done|by simpl; rewrite lookup_insert_eq|done]. }
  split; [done|]. split; [done|].
  split; [intros m k Hk; simpl; by apply import_class_run|].
  split; [intros t Ht; by destruct t|].
  split; [exact Htype|]. split; [exact Hfactory|].
  intros self f m k c module Hf Hk Hm Hc.
  assert (Hr : _resolve_class (VStr (m +:+ "." +:+ k)) w
               = (Return (VClass c), log_import m w)).
  { simpl. rewrite (import_class_run m k w Hk). by rewrite Hm, Hc. }
  split.
  - intros Ht. rewrite <- Ht in Hr.
    destruct (Htype self f c _ Hf Hr) as [Hfirst Hagain].
    eexists. split; [exact Hfirst|]. split; [done|exact Hagain].
  - intros Ht. rewrite <- Ht in Hr.
    destruct (Hfactory self f c _ Hf Hr) as [Hfirst Hagain].
    eexists. split; [exact Hfirst|]. split; [done|exact Hagain].
Qed.

(** ** The clean step *)

Lemma check_type_class self f c v w :
  descriptors w !! self = Some f ->
  TypedField._type f = VClass c ->
  TypedField_check_type self v w = (Return (satisfies (heap w) c v), w).
Proof.
  intros Hf Ht.
  assert (Hrun : TypedField_type_ self w = (Return (VClass c), w)).
  { rewrite <- Ht. apply type__settled; [done|by rewrite Ht]. }
  unfold TypedField_check_type, bind. rewrite Hrun. simpl. rewrite Hrun.
  unfold satisfies. simpl.
  destruct (istypeof (classes c)) as [p|] eqn:Hp; rewrite Hrun; simpl.
  - by rewrite Hp.
  - done.
Qed.

Lemma clean_not_none self v w :
  v <> VNone ->
  TypedField__clean self v w =
    (let* t := TypedField_type_ self in
     match t with
     | VNone => ret v
     | _ =>
         let* ok := TypedField_check_type self v in
         if ok then ret v
         else
           let* f := get_descriptor self in
           if TypedField.is_type_castable f then
             let* t1 := TypedField_type_ self in
             of_sum (call t1 v)
           else
             let* t1 := TypedField_type_ self in
             let* h := gets heap in
             raise (type_mismatch f t1 h v)
     end) w.
Proof. by destruct v. Qed.

(** The clean step once the type reference has resolved to [t]. *)
Lemma clean_run self f t v w w1 :
  descriptors w !! self = Some f ->
  TypedField_type_ self w = (Return t, w1) ->
  v <> VNone ->
  TypedField__clean self v w =
    match t with
    | VNone => (Return v, w1)
    | VClass c =>
        if satisfies (heap w1) c v then (Return v, w1)
        else if TypedField.is_type_castable f then (constructed c v, w1)
        else (Raise (type_mismatch f (VClass c) (heap w1) v), w1)
    | _ => TypedField__clean self v w
    end.
Proof.
  intros Hf Hrun Hv. destruct (settled t) eqn:Hs; [|by destruct t].
  rewrite (clean_not_none _ _ _ Hv). unfold bind at 1. rewrite Hrun.
  destruct (type__stores _ _ _ _ Hrun) as (f' & Hf' & Hf1 & _).
  rewrite Hf in Hf'. injection Hf' as <-.
  destruct t as [| | | |c| | |]; try done.
  unfold bind.
  rewrite (check_type_class self _ c v w1 Hf1) by by destruct f.
  destruct (satisfies (heap w1) c v); [done|].
  unfold get_descriptor. rewrite Hf1.
  assert (Hagain : TypedField_type_ self w1 = (Return (VClass c), w1)).
  { by rewrite (type__settled self _ w1 Hf1); destruct f. }
  replace (TypedField.is_type_castable (TypedField.with_type f (VClass c)))
    with (TypedField.is_type_castable f) by by destruct f.
  destruct (TypedField.is_type_castable f); rewrite Hagain.
  - unfold of_sum, constructed, call.
    by destruct (construct (classes c) v).
  - unfold gets, raise, type_mismatch. by destruct f.
Qed.

(** C2 (as amended): the base clean step returns a null value
    unchanged; once the field's type reference is read as [t], it
    returns any value unchanged when no type is declared ([t] is null),
    and for a class [t] it returns a value that passes the
    type-membership test unchanged, otherwise returns the class called
    on the value when the castable flag of the field is set, and
    otherwise raises the [TypeError] that names the field, the expected
    type and the type of the value.  The castable flag is the one the
    constructor read from its type argument: the [_try_cast] marker of
    the class when the argument is a class, unset when the argument is
    a string or absent; reading the type leaves it as it is. *)
Theorem clean_behaviour (self : positive) (f : TypedField.t) (w w1 : World)
    (t : value) :
  descriptors w !! self = Some f ->
  TypedField_type_ self w = (Return t, w1) ->
  TypedField__clean self VNone w = (Return VNone, w)
  /\ (forall v, t = VNone -> TypedField__clean self v w1 = (Return v, w1))
  /\ (forall v, t = VNone -> v <> VNone ->
        TypedField__clean self v w = (Return v, w1))
  /\ (forall v c, t = VClass c -> v <> VNone ->
        satisfies (heap w1) c v = true ->
        TypedField__clean self v w = (Return v, w1))
  /\ (forall v c, t = VClass c -> v <> VNone ->
        satisfies (heap w1) c v = false ->
        TypedField.is_type_castable f = true ->
        TypedField__clean self v w = (constructed c v, w1))
  /\ (forall v c, t = VClass c -> v <> VNone ->
        satisfies (heap w1) c v = false ->
        TypedField.is_type_castable f = false ->
        TypedField__clean self v w =
          (Raise (Exn "TypeError" "%s must be a %s, not a %s"
                      [VStr (TypedField.name f); VClass c;
                       type_of (heap w1) v]), w1))
  /\ (forall h0 cls name ty key_name comparable multiple pre post factory,
        f = TypedField___init__ h0 cls name ty key_name comparable multiple
              pre post factory ->
        (forall c, ty = VClass c ->
           TypedField.is_type_castable f = _try_cast (classes c))
        /\ (forall s, ty = VStr s -> TypedField.is_type_castable f = false)
        /\ (ty = VNone -> TypedField.is_type_castable f = false))
  /\ TypedField.is_type_castable <$> descriptors w1 !! self
     = Some (TypedField.is_type_castable f).
Proof.
  intros Hf Hrun.
  assert (Hflag : TypedField.is_type_castable <$> descriptors w1 !! self
                  = Some (TypedField.is_type_castable f)).
  { destruct (type__stores _ _ _ _ Hrun) as (f' & Hf' & Hf1 & _).
    rewrite Hf in Hf'. injection Hf' as <-. by rewrite Hf1. }
  split; [done|]. split.
  { intros v ->. destruct (decide (v = VNone)) as [->|Hv]; [done|].
    destruct (type__stores _ _ _ _ Hrun) as (f' & _ & Hf1 & _).
    assert (Hagain : TypedField_type_ self w1 = (Return VNone, w1)).
    { by rewrite (type__settled self _ w1 Hf1); destruct f'. }
    by rewrite (clean_run self _ VNone v w1 w1 Hf1 Hagain Hv). }
  split.
  { intros v -> Hv. by rewrite (clean_run self f VNone v w w1). }
  split.
  { intros v c -> Hv Hs. rewrite (clean_run self f (VClass c) v w w1) by done.
    by rewrite Hs. }
  split.
  { intros v c -> Hv Hs Hc.
    rewrite (clean_run self f (VClass c) v w w1) by done.
    by rewrite Hs, Hc. }
  split.
  { intros v c -> Hv Hs Hc.
    rewrite (clean_run self f (VClass c) v w w1) by done.
    by rewrite Hs, Hc. }
  split; [|done].
  intros h0 cls name ty key_name comparable multiple pre post factory ->.
  split; [by intros c ->|]. split; [by intros s ->|by intros ->].
Qed.

(** C9: a descriptor constructed with a string as its type reference has
    its castable flag read from the string, hence false; when the
    reference later resolves to a class [c], the clean step raises the
    type-mismatch [TypeError] for every non-null value that fails the
    membership test of [c], whatever the [_try_cast] marker of [c]. *)
Theorem deferred_type_never_cast (h0 : gmap positive HeapObj)
    (cls : FieldClass) (name s : string) (key_name : value)
    (comparable multiple : bool) (preset_hook postset_hook : option positive)
    (factory : value) (self : positive) (w w1 : World) (c : string)
    (v : value) :
  let f := TypedField___init__ h0 cls name (VStr s) key_name comparable
             multiple preset_hook postset_hook factory in
  descriptors w !! self = Some f ->
  TypedField_type_ self w = (Return (VClass c), w1) ->
  v <> VNone ->
  satisfies (heap w1) c v = false ->
  TypedField.is_type_castable f = false
  /\ TypedField__clean self v w =
       (Raise (Exn "TypeError" "%s must be a %s, not a %s"
                   [VStr name; VClass c; type_of (heap w1) v]), w1)
  /\ TypedField__clean self v w1 =
       (Raise (Exn "TypeError" "%s must be a %s, not a %s"
                   [VStr name; VClass c; type_of (heap w1) v]), w1).
Proof.
  intros f Hf Hrun Hv Hs. split; [done|]. split.
  - rewrite (clean_run self f (VClass c) v w w1) by done. by rewrite Hs.
  - destruct (type__stores _ _ _ _ Hrun) as (f' & Hf' & Hf1 & _).
    rewrite Hf in Hf'. injection Hf' as <-.
    assert (Hagain : TypedField_type_ self w1 = (Return (VClass c), w1)).
    { by rewrite (type__settled self _ w1 Hf1). }
    rewrite (clean_run self _ (VClass c) v w1 w1 Hf1 Hagain Hv).
    by rewrite Hs.
Qed.

(** ** The typed list *)

Lemma elem_of_list_insert_at (y x : value) idx l :
  y ∈ list_insert_at idx x l <-> y = x \/ y ∈ l.
Proof.
  unfold list_insert_at.
  set (i := Z.to_nat _). rewrite elem_of_app, elem_of_cons.
  rewrite <- (take_drop i l) at 3. rewrite elem_of_app.
  clear. intuition idtac.
Qed.

Lemma length_list_insert_at (x : value) idx l :
  length (list_insert_at idx x l) = S (length l).
Proof.
  unfold list_insert_at. set (i := Z.to_nat _).
  rewrite length_app. simpl. rewrite length_take, length_drop. lia.
Qed.

Lemma validated_valid h self v :
  _TypedList__is_valid h self v = inr true -> validated h self v = inr v.
Proof. unfold validated. by intros ->. Qed.

Lemma validated_coerced h self v r :
  _TypedList__is_valid h self v = inr false ->
  call (_TypedList._type self) v = inr r ->
  validated h self v = inr r.
Proof.
  unfold validated, _TypedList__fix_value. by intros -> ->.
Qed.

Lemma validated_failed h self v e :
  _TypedList__is_valid h self v = inr false ->
  call (_TypedList._type self) v = inl e ->
  validated h self v = inl (cannot_put h self v).
Proof.
  unfold validated, _TypedList__fix_value. by intros -> ->.
Qed.

(** What [validated] returns is the value itself or the result of a
    constructor. *)
Lemma validated_inv h self v v' :
  validated h self v = inr v' ->
  v' = v \/ exists c, construct (classes c) v = inr v'.
Proof.
  unfold validated.
  destruct (_TypedList__is_valid h self v) as [e|[]]; [done| |].
  - intros [= ->]. by left.
  - unfold _TypedList__fix_value, call.
    destruct (_TypedList._type self) as [| | | |c| | |]; try done.
    destruct (construct (classes c) v) as [e|r] eqn:Hc; [done|].
    intros [= <-]. right. by exists c.
Qed.

Lemma insert_no_none h self idx v self' :
  construct_not_none ->
  VNone ∉ _TypedList._inner self ->
  _TypedList_insert h self idx v = inr self' ->
  VNone ∉ _TypedList._inner self'.
Proof.
  intros Hctor Hin. unfold _TypedList_insert.
  destruct (truthy h v) eqn:Htr; simpl; [|by intros [= <-]].
  destruct (validated h self v) as [e|v'] eqn:Hv; [done|].
  intros [= <-]. simpl. rewrite elem_of_list_insert_at.
  intros [Heq|Hold]; [|done].
  apply validated_inv in Hv as [->|[c Hc]].
  - by rewrite <- Heq in Htr.
  - by apply (Hctor c v v').
Qed.

(** C5: [insert] of a falsy value leaves the typed list as it is; a
    truthy value that passes the element-type test is inserted at the
    index; one that fails it is replaced by the element type called on
    it, or, when that call fails, a [ValueError] is raised whose message
    is formatted with the value, its type, the container type and the
    expected type; an insertion never puts [None] in the list, given that
    calling a class never yields [None]. *)
Theorem insert_contract (h : gmap positive HeapObj) (self : _TypedList.t)
    (idx : Z) (v : value) :
  (truthy h v = false ->
     _TypedList_insert h self idx v = inr self)
  /\ (truthy h v = true ->
       _TypedList__is_valid h self v = inr true ->
       _TypedList_insert h self idx v =
         inr (_TypedList.mk (_TypedList._type self)
                (list_insert_at idx v (_TypedList._inner self))))
  /\ (forall r, truthy h v = true ->
       _TypedList__is_valid h self v = inr false ->
       call (_TypedList._type self) v = inr r ->
       _TypedList_insert h self idx v =
         inr (_TypedList.mk (_TypedList._type self)
                (list_insert_at idx r (_TypedList._inner self))))
  /\ (forall e, truthy h v = true ->
       _TypedList__is_valid h self v = inr false ->
       call (_TypedList._type self) v = inl e ->
       _TypedList_insert h self idx v =
         inl (Exn "ValueError"
                  "Can't put '{0}' ({1}) into a {2}. Expected a {3} object."
                  [v; type_of h v; VClass "mixbox.fields._TypedList";
                   _TypedList._type self]))
  /\ (forall self', construct_not_none ->
       VNone ∉ _TypedList._inner self ->
       _TypedList_insert h self idx v = inr self' ->
       VNone ∉ _TypedList._inner self').
Proof.
  unfold _TypedList_insert. repeat split.
  - by intros ->.
  - intros -> Hv. simpl. by rewrite (validated_valid _ _ _ Hv).
  - intros r -> Hv Hc. simpl. by rewrite (validated_coerced _ _ _ _ Hv Hc).
  - intros e -> Hv Hc. simpl. by rewrite (validated_failed _ _ _ _ Hv Hc).
  - intros self' Hctor Hin Hrun. by eapply insert_no_none.
Qed.

Lemma list_setitem_in_range key (x : value) l :
  0 <= position key l < Z.of_nat (length l) ->
  list_setitem key x l = inr (<[Z.to_nat (position key l) := x]> l).
Proof.
  intros [H0 H1]. unfold list_setitem, position in *.
  destruct (key <? 0);
    (destruct (Z.leb_spec 0 (key + Z.of_nat (length l)));
     destruct (Z.ltb_spec (key + Z.of_nat (length l)) (Z.of_nat (length l)));
     destruct (Z.leb_spec 0 key);
     destruct (Z.ltb_spec key (Z.of_nat (length l))); simpl; done || lia).
Qed.

(** C10: assigning at an existing position validates or coerces every
    value, falsy ones included: a value that passes the element-type
    test is stored at the position, one that fails it is stored as the
    element type called on it; [insert] of the same falsy value would
    have left the list unchanged. *)
Theorem setitem_stores_falsy_values (h : gmap positive HeapObj)
    (self : _TypedList.t) (key : Z) (v : value) :
  0 <= position key (_TypedList._inner self)
    < Z.of_nat (length (_TypedList._inner self)) ->
  (_TypedList__is_valid h self v = inr true ->
     _TypedList___setitem__ h self key v =
       inr (_TypedList.mk (_TypedList._type self)
              (<[Z.to_nat (position key (_TypedList._inner self)) := v]>
                 (_TypedList._inner self))))
  /\ (forall r, _TypedList__is_valid h self v = inr false ->
       call (_TypedList._type self) v = inr r ->
       _TypedList___setitem__ h self key v =
         inr (_TypedList.mk (_TypedList._type self)
                (<[Z.to_nat (position key (_TypedList._inner self)) := r]>
                   (_TypedList._inner self))))
  /\ (forall self', _TypedList___setitem__ h self key v = inr self' ->
       exists stored, validated h self v = inr stored
         /\ _TypedList._inner self'
              !! Z.to_nat (position key (_TypedList._inner self))
            = Some stored)
  /\ (truthy h v = false ->
       forall idx, _TypedList_insert h self idx v = inr self).
Proof.
  intros Hpos. unfold _TypedList___setitem__. repeat split.
  - intros Hv. rewrite (validated_valid _ _ _ Hv).
    by rewrite (list_setitem_in_range _ _ _ Hpos).
  - intros r Hv Hc. rewrite (validated_coerced _ _ _ _ Hv Hc).
    by rewrite (list_setitem_in_range _ _ _ Hpos).
  - intros self'. destruct (validated h self v) as [e|stored]; [done|].
    rewrite (list_setitem_in_range _ _ _ Hpos). intros [= <-].
    exists stored. split; [done|]. simpl.
    apply list_lookup_insert_eq. lia.
  - intros Hf idx. unfold _TypedList_insert. by rewrite Hf.
Qed.

(** ** unset *)

Lemma same_but_fields_refl entity w : same_but_fields entity w w.
Proof. by repeat split. Qed.

Lemma same_but_fields_trans entity w1 w2 w3 :
  same_but_fields entity w1 w2 -> same_but_fields entity w2 w3 ->
  same_but_fields entity w1 w3.
Proof.
  intros (Hd & Hh & Hn & Hi & He & Ht) (Hd' & Hh' & Hn' & Hi' & He' & Ht').
  repeat split; try congruence.
  intros e Hne. by rewrite He', He.
Qed.

Lemma same_but_fields_set entity m w :
  same_but_fields entity w (set_fields entity m w).
Proof.
  repeat split; simpl.
  - intros e Hne. by rewrite lookup_insert_ne.
  - by rewrite lookup_total_insert_eq.
Qed.

Lemma lookup_remove_keys P keys (m : gmap positive value) k :
  remove_keys P keys m !! k =
    if (bool_decide (k ∈ keys) && P k)%bool then None else m !! k.
Proof.
  revert m. induction keys as [|x keys IH]; intros m; simpl; [done|].
  unfold remove_keys in *. simpl. rewrite IH.
  destruct (decide (k = x)) as [->|Hne].
  - rewrite (bool_decide_eq_true_2 (x ∈ x :: keys)) by by left.
    simpl. destruct (P x) eqn:HP.
    + rewrite lookup_delete_eq. by destruct (bool_decide _).
    + by rewrite andb_false_r.
  - assert (Heq : bool_decide (k ∈ x :: keys) = bool_decide (k ∈ keys)).
    { apply bool_decide_ext. rewrite elem_of_cons.
      split; [by intros [?|?]|by right]. }
    rewrite Heq. destruct (bool_decide (k ∈ keys) && P k)%bool; [done|].
    destruct (P x); [by rewrite lookup_delete_ne|done].
Qed.

Lemma remove_all_keys P (m : gmap positive value) :
  remove_keys P (map_to_list m).*1 m = filter (fun kv => P kv.1 = false) m.
Proof.
  apply map_eq. intros k. rewrite lookup_remove_keys.
  apply option_eq. intros v. rewrite map_lookup_filter_Some. simpl.
  destruct (m !! k) as [x|] eqn:Hk.
  - assert (Hin : k ∈ (map_to_list m).*1).
    { apply list_elem_of_fmap. exists (k, x). split; [done|].
      by apply elem_of_map_to_list. }
    rewrite (bool_decide_eq_true_2 _ Hin). simpl.
    destruct (P k); split; intros H; try done.
    + by destruct H.
    + by destruct H.
  - destruct (bool_decide _ && P k)%bool; split; intros H; try done;
      by destruct H.
Qed.

Lemma unset_loop_run entity types keys w :
  exists w',
    unset_loop entity (TupleOf types) keys w = (Return tt, w')
    /\ same_but_fields entity w w'
    /\ fields_of w' entity =
         remove_keys (instance_of_any w types) keys (fields_of w entity).
Proof.
  revert w. induction keys as [|x keys IH]; intros w.
  - exists w. split; [done|]. split; [apply same_but_fields_refl|done].
  - simpl. unfold bind, gets, of_sum, isinstance_field. simpl.
    fold (instance_of_any w types x).
    destruct (instance_of_any w types x) eqn:Hx; simpl.
    + unfold modify.
      set (w1 := set_fields entity (delete x (fields_of w entity)) w).
      destruct (IH w1) as (w' & Hrun & Hsame & Hf).
      exists w'. split; [done|]. split.
      * eapply same_but_fields_trans; [apply same_but_fields_set|done].
      * rewrite Hf. unfold w1. by rewrite fields_of_set_fields.
    + unfold ret. destruct (IH w) as (w' & Hrun & Hsame & Hf).
      exists w'. by split.
Qed.

(** With at least one class given, [unset] removes exactly the entries
    whose descriptor is an instance of one of the classes. *)
Lemma unset_kinds entity types w :
  types <> [] ->
  exists w',
    unset entity types w = (Return tt, w')
    /\ same_but_fields entity w w'
    /\ fields_of w' entity =
         filter (fun kv => instance_of_any w types kv.1 = false)
                (fields_of w entity).
Proof.
  intros Hne. unfold unset, bind, gets.
  destruct types as [|k types]; [done|].
  destruct (unset_loop_run entity (k :: types)
              (map_to_list (fields_of w entity)).*1 w) as (w' & Hrun & Hs & Hf).
  exists w'. split; [done|]. split; [done|].
  by rewrite Hf, remove_all_keys.
Qed.

(** With no class given, the list that replaces the empty tuple makes
    [isinstance] raise as soon as there is an entry to test. *)
Lemma unset_no_kinds entity w :
  fields_of w entity <> ∅ ->
  unset entity [] w =
    (Raise (Exn "TypeError"
                "isinstance() arg 2 must be a type or tuple of types" []), w).
Proof.
  intros Hne. unfold unset, bind, gets.
  destruct (map_to_list (fields_of w entity)) as [|[k v] l] eqn:Hl.
  - by apply map_to_list_empty_iff in Hl.
  - done.
Qed.

Lemma unset_no_kinds_empty entity w :
  fields_of w entity = ∅ -> unset entity [] w = (Return tt, w).
Proof.
  intros He. unfold unset, bind, gets. rewrite He.
  by rewrite map_to_list_empty.
Qed.

(** ** __get__ *)

Lemma get_stored self i v w :
  fields_of w i !! self = Some v ->
  TypedField___get__ self (Some i) w = (Return (GotValue v), w).
Proof.
  intros H. unfold TypedField___get__, bind, gets. by rewrite H.
Qed.

Lemma get_single_unset self i f w :
  descriptors w !! self = Some f ->
  fields_of w i !! self = None ->
  TypedField.multiple f = false ->
  TypedField___get__ self (Some i) w = (Return (GotValue VNone), w).
Proof.
  intros Hf H Hm. unfold TypedField___get__, bind, gets, get_descriptor.
  by rewrite H, Hf, Hm.
Qed.

(** The first read of an unset multiple field allocates a plain list,
    stores the reference and returns it. *)
Lemma get_multiple_unset self i f w :
  descriptors w !! self = Some f ->
  fields_of w i !! self = None ->
  TypedField.multiple f = true ->
  exists w1,
    TypedField___get__ self (Some i) w = (Return (GotValue (VRef (next_addr w))), w1)
    /\ fields_of w1 i !! self = Some (VRef (next_addr w))
    /\ heap w1 !! next_addr w = Some (PyList [])
    /\ TypedField___get__ self (Some i) w1
       = (Return (GotValue (VRef (next_addr w))), w1).
Proof.
  intros Hf H Hm. unfold TypedField___get__ at 1.
  unfold bind, gets, get_descriptor. rewrite H, Hf, Hm.
  unfold alloc, setdefault, ret. simpl.
  replace (fields_of (set_heap _ _ w) i) with (fields_of w i) by done.
  rewrite H. eexists. split; [done|].
  assert (Hst : forall w0 m, fields_of (set_fields i m w0) i = m)
    by (intros; apply fields_of_set_fields).
  split; [by rewrite Hst, lookup_insert_eq|].
  split; [simpl; by rewrite lookup_insert_eq|].
  apply get_stored. by rewrite Hst, lookup_insert_eq.
Qed.

(** ** __set__ *)

Lemma list_insert_at_end (x : value) (l : list value) :
  list_insert_at (Z.of_nat (length l)) x l = (l ++ [x])%list.
Proof.
  unfold list_insert_at.
  destruct (Z.ltb_spec (Z.of_nat (length l)) 0) as [Hlt|_]; [lia|].
  rewrite Z.min_id, Nat2Z.id. by rewrite take_ge, drop_ge by lia.
Qed.

Lemma append_falsy h tl c :
  truthy h c = false -> _TypedList_append h tl c = inr tl.
Proof. intros H. unfold _TypedList_append, _TypedList_insert. by rewrite H. Qed.

Lemma append_valid h t l c :
  truthy h c = true ->
  _TypedList__is_valid h (_TypedList.mk t []) c = inr true ->
  _TypedList_append h (_TypedList.mk t l) c = inr (_TypedList.mk t (l ++ [c])).
Proof.
  intros Htr Hv. unfold _TypedList_append, _TypedList_insert, _TypedList___len__.
  rewrite Htr. simpl.
  rewrite (validated_valid h (_TypedList.mk t l) c) by done.
  simpl. by rewrite list_insert_at_end.
Qed.

Lemma listclass_of_list_empty lc w :
  listclass_of_list lc [] false w = alloc (list_object lc []) w.
Proof. by destruct lc. Qed.

Lemma list_cleaned_cons self x xs w :
  x <> VNone ->
  list_cleaned self (x :: xs) w =
    (let* c := clean self x in
     let* cs := list_cleaned self xs in
     ret (c :: cs)) w.
Proof. by destruct x. Qed.

Lemma extend_cleaned_cons self tl x xs w :
  x <> VNone ->
  extend_cleaned self tl (x :: xs) w =
    (let* c := clean self x in
     let* h := gets heap in
     let* tl' := of_sum (_TypedList_append h tl c) in
     extend_cleaned self tl' xs) w.
Proof. by destruct x. Qed.

Lemma non_null_cons_none xs : non_null (VNone :: xs) = non_null xs.
Proof. unfold non_null. by rewrite filter_cons_False by (intros H; by apply H). Qed.

Lemma non_null_cons x xs : x <> VNone -> non_null (x :: xs) = x :: non_null xs.
Proof. intros H. unfold non_null. by rewrite filter_cons_True. Qed.

Lemma list_cleaned_run self (cl : value -> value) xs w :
  (forall x, x ∈ xs -> x <> VNone -> clean self x w = (Return (cl x), w)) ->
  list_cleaned self xs w = (Return (cl <$> non_null xs), w).
Proof.
  induction xs as [|x xs IH]; intros Hcl; [done|].
  destruct (decide (x = VNone)) as [->|Hx].
  - rewrite non_null_cons_none. simpl. apply IH.
    intros y Hy. apply Hcl. by right.
  - rewrite (list_cleaned_cons _ _ _ _ Hx), (non_null_cons _ _ Hx).
    unfold bind. rewrite (Hcl x) by (done || by left).
    rewrite IH; [done|]. intros y Hy. apply Hcl. by right.
Qed.

Lemma extend_cleaned_run self (cl : value -> value) t xs acc w :
  (forall x, x ∈ xs -> x <> VNone -> clean self x w = (Return (cl x), w)) ->
  (forall x, x ∈ xs -> x <> VNone -> truthy (heap w) (cl x) = true ->
     _TypedList__is_valid (heap w) (_TypedList.mk t []) (cl x) = inr true) ->
  extend_cleaned self (_TypedList.mk t acc) xs w =
    (Return (_TypedList.mk t
               (acc ++ filter (fun c => truthy (heap w) c = true)
                              (cl <$> non_null xs))), w).
Proof.
  revert acc. induction xs as [|x xs IH]; intros acc Hcl Hval.
  - simpl. by rewrite app_nil_r.
  - assert (Hcl' : forall y, y ∈ xs -> y <> VNone ->
                     clean self y w = (Return (cl y), w)).
    { intros y Hy. apply Hcl. by right. }
    assert (Hval' : forall y, y ∈ xs -> y <> VNone ->
              truthy (heap w) (cl y) = true ->
              _TypedList__is_valid (heap w) (_TypedList.mk t []) (cl y)
              = inr true).
    { intros y Hy. apply Hval. by right. }
    destruct (decide (x = VNone)) as [->|Hx].
    + rewrite non_null_cons_none. simpl. by apply IH.
    + rewrite (extend_cleaned_cons _ _ _ _ _ Hx), (non_null_cons _ _ Hx).
      unfold bind. rewrite (Hcl x) by (done || by left).
      unfold gets. rewrite fmap_cons.
      destruct (truthy (heap w) (cl x)) eqn:Htr.
      * rewrite filter_cons_True by done.
        rewrite (append_valid _ _ _ _ Htr)
          by (apply Hval; (done || by left)).
        unfold of_sum, ret. rewrite (IH (acc ++ [cl x])%list Hcl' Hval').
        by rewrite <- app_assoc.
      * rewrite filter_cons_False by (by rewrite Htr).
        rewrite (append_falsy _ _ _ Htr). unfold of_sum, ret.
        by apply IH.
Qed.

Lemma run_hook_run hook instance v st :
  run_hook hook instance v st =
    (let (r, w') := hook_effect hook instance v (world st) in
     (r, mkState w' (hook_calls st ++ hook_trace hook instance v))).
Proof.
  destruct hook as [hk|]; simpl; [done|].
  unfold ret. rewrite app_nil_r. by destruct st.
Qed.

(** The assignment once the value to store is known: the preset hook,
    the store, the postset hook. *)
Lemma set_run self instance v st v' w1 f1 w2 f2 w4 :
  value_to_store self v (world st) = (Return v', w1) ->
  descriptors w1 !! self = Some f1 ->
  hook_effect (TypedField.preset_hook f1) instance v' w1 = (Return tt, w2) ->
  descriptors w2 !! self = Some f2 ->
  hook_effect (TypedField.postset_hook f2) instance v'
    (set_fields instance (<[self := v']> (fields_of w2 instance)) w2)
    = (Return tt, w4) ->
  TypedField___set__ self instance v st =
    (Return tt,
     mkState w4 (hook_calls st
                 ++ hook_trace (TypedField.preset_hook f1) instance v'
                 ++ hook_trace (TypedField.postset_hook f2) instance v')).
Proof.
  intros Hv Hf1 Hpre Hf2 Hpost.
  unfold TypedField___set__, bind, lift. rewrite Hv. simpl.
  unfold get_descriptor. rewrite Hf1. rewrite run_hook_run. simpl.
  rewrite Hpre. simpl. unfold modify. simpl. rewrite Hf2.
  rewrite run_hook_run. simpl. rewrite Hpost. by rewrite app_assoc.
Qed.

Lemma value_to_store_scalar self f v w :
  descriptors w !! self = Some f ->
  TypedField.multiple f = true ->
  v <> VNone ->
  is_sequence v = false ->
  value_to_store self v w =
    (let* c := clean self v in
     listclass_of_list (TypedField.listclass f) [c] true) w.
Proof.
  intros Hf Hm Hv Hs. unfold value_to_store, bind at 1, get_descriptor.
  rewrite Hf, Hm. destruct v; try done; by rewrite Hs.
Qed.

(** C3 (as amended): assigning to a multiple-valued field stores a new
    list object of the field's list class.  For a null input the object
    is empty.  For an input that is not a sequence the object is
    [[clean(value)]] when the list class is [list]; when it is the typed
    list, the cleaned value is inserted, so the object is empty if the
    cleaned value is falsy and is [[clean(value)]] if it is truthy and
    passes the element-type test.  For a sequence the object holds
    [clean(x)] for the non-null elements [x], in order; the typed list
    moreover skips the cleaned values that are falsy.  The hooks that are
    present are each called once, with the whole stored value. *)
Theorem set_multiple_field (self : positive) (f : TypedField.t) (w : World) :
  descriptors w !! self = Some f ->
  TypedField.multiple f = true ->
  value_to_store self VNone w
    = alloc (list_object (TypedField.listclass f) []) w
  /\ (forall v c w1,
        v <> VNone -> is_sequence v = false ->
        clean self v w = (Return c, w1) ->
        (TypedField.listclass f = PlainListClass ->
           value_to_store self v w = alloc (PyList [c]) w1)
        /\ (forall t, TypedField.listclass f = PartialTypedList t ->
             truthy (heap w1) c = false ->
             value_to_store self v w
               = alloc (PyTypedList (_TypedList.mk t [])) w1)
        /\ (forall t, TypedField.listclass f = PartialTypedList t ->
             truthy (heap w1) c = true ->
             _TypedList__is_valid (heap w1) (_TypedList.mk t []) c = inr true ->
             value_to_store self v w
               = alloc (PyTypedList (_TypedList.mk t [c])) w1))
  /\ (forall a o (cl : value -> value),
        heap w !! a = Some o ->
        (forall x, x ∈ items_of o -> x <> VNone ->
           clean self x w = (Return (cl x), w)) ->
        (TypedField.listclass f = PlainListClass ->
           value_to_store self (VRef a) w
             = alloc (PyList (cl <$> non_null (items_of o))) w)
        /\ (forall t, TypedField.listclass f = PartialTypedList t ->
             (forall x, x ∈ items_of o -> x <> VNone ->
                truthy (heap w) (cl x) = true ->
                _TypedList__is_valid (heap w) (_TypedList.mk t []) (cl x)
                = inr true) ->
             value_to_store self (VRef a) w
               = alloc (PyTypedList
                          (_TypedList.mk t
                             (filter (fun c => truthy (heap w) c = true)
                                     (cl <$> non_null (items_of o))))) w))
  /\ (forall instance v st v' w1 f1 w2 f2 w4,
        value_to_store self v (world st) = (Return v', w1) ->
        descriptors w1 !! self = Some f1 ->
        hook_effect (TypedField.preset_hook f1) instance v' w1
          = (Return tt, w2) ->
        descriptors w2 !! self = Some f2 ->
        hook_effect (TypedField.postset_hook f2) instance v'
          (set_fields instance (<[self := v']> (fields_of w2 instance)) w2)
          = (Return tt, w4) ->
        TypedField___set__ self instance v st =
          (Return tt,
           mkState w4
             (hook_calls st
              ++ hook_trace (TypedField.preset_hook f1) instance v'
              ++ hook_trace (TypedField.postset_hook f2) instance v'))
        /\ (forall hp hq,
             TypedField.preset_hook f1 = Some hp ->
             TypedField.postset_hook f2 = Some hq ->
             hook_calls (TypedField___set__ self instance v st).2
             = (hook_calls st
                ++ [mkHookCall hp instance v'; mkHookCall hq instance v'])%list)).
Proof.
  intros Hf Hm. split; [|split; [|split]].
  - unfold value_to_store, bind, get_descriptor. rewrite Hf, Hm.
    apply listclass_of_list_empty.
  - intros v c w1 Hv Hs Hc.
    rewrite (value_to_store_scalar self f v w Hf Hm Hv Hs).
    unfold bind. rewrite Hc. split; [|split].
    + by intros ->.
    + intros t -> Htr. simpl. unfold bind, gets, _TypedList___init__. simpl.
      by rewrite (append_falsy _ _ _ Htr).
    + intros t -> Htr Hval. simpl. unfold bind, gets, _TypedList___init__.
      simpl. by rewrite (append_valid _ _ _ _ Htr Hval).
  - intros a o cl Ha Hcl.
    assert (Hrun : value_to_store self (VRef a) w =
              listclass_of_generator self (TypedField.listclass f)
                (items_of o) w).
    { unfold value_to_store, bind, get_descriptor. rewrite Hf, Hm. simpl.
      by rewrite Ha. }
    rewrite Hrun. split.
    + intros ->. simpl. unfold bind.
      by rewrite (list_cleaned_run self cl _ w Hcl).
    + intros t -> Hval. simpl. unfold bind.
      by rewrite (extend_cleaned_run self cl t _ [] w Hcl Hval).
  - intros instance v st v' w1 f1 w2 f2 w4 Hv Hf1 Hpre Hf2 Hpost.
    pose proof (set_run _ _ _ _ _ _ _ _ _ _ Hv Hf1 Hpre Hf2 Hpost) as Hrun.
    split; [done|]. intros hp hq Hp Hq. rewrite Hrun. simpl.
    by rewrite Hp, Hq.
Qed.

(** ** IdField and IdrefField *)

Lemma set_then_unset self instance v st st1 k (set_ : M State unit) :
  (set_ = (TypedField___set__ self instance v >>
           let* h := gets (fun st => heap (world st)) in
           if truthy h v then lift (unset instance [k]) else ret tt)) ->
  TypedField___set__ self instance v st = (Return tt, st1) ->
  (truthy (heap (world st1)) v = true ->
     exists w2,
       set_ st = (Return tt, mkState w2 (hook_calls st1))
       /\ same_but_fields instance (world st1) w2
       /\ fields_of w2 instance =
            filter (fun kv => instance_of_any (world st1) [k] kv.1 = false)
                   (fields_of (world st1) instance))
  /\ (truthy (heap (world st1)) v = false -> set_ st = (Return tt, st1)).
Proof.
  intros -> Hset. unfold bind. rewrite Hset. unfold gets. split.
  - intros ->. unfold lift.
    destruct (unset_kinds instance [k] (world st1)) as (w2 & Hrun & Hs & Hf);
      [done|].
    rewrite Hrun. by exists w2.
  - by intros ->.
Qed.

Lemma none_held_after_unset w w2 entity k :
  same_but_fields entity w w2 ->
  fields_of w2 entity =
    filter (fun kv => instance_of_any w [k] kv.1 = false) (fields_of w entity) ->
  ~ holds_nonempty w2 entity k.
Proof.
  intros (Hd & _) Hf (x & f & u & Hx & Hk & Hu & _).
  rewrite Hf in Hu. apply map_lookup_filter_Some in Hu as [_ Hinst].
  simpl in Hinst. unfold instance_of_any in Hinst. rewrite Hd in Hx.
  rewrite Hx in Hinst. simpl in Hinst. by rewrite Hk in Hinst.
Qed.

(** ** find *)

Lemma settled_truthy h t :
  settled t = true -> truthy h t = match t with VClass _ => true | _ => false end.
Proof. by destruct t. Qed.

Lemma transformer_settled self f w :
  descriptors w !! self = Some f ->
  settled (TypedField._type f) = true ->
  settled (TypedField._factory f) = true ->
  TypedField_transformer self w =
    (Return (if truthy (heap w) (TypedField._factory f)
             then TypedField._factory f
             else if truthy (heap w) (TypedField._type f)
                  then TypedField._type f
                  else VNone), w).
Proof.
  intros Hf Ht Hfac. unfold TypedField_transformer, bind.
  rewrite (factory_settled self f w Hf Hfac). unfold gets.
  destruct (truthy (heap w) (TypedField._factory f));
    [by apply factory_settled|].
  rewrite (type__settled self f w Hf Ht).
  destruct (truthy (heap w) (TypedField._type f)); [by apply type__settled|done].
Qed.







Arguments attr_ne : simpl never.

(** Reading the slot of a keyword gives the attribute sought. *)
Lemma getattr_sought x f k w :
  descriptors w !! x = Some f ->
  (k = kw_type_ -> settled (TypedField._type f) = true) ->
  getattr_field x (kwargmap_get (keyword_name k)) w
  = (Return (AttrValue (sought_attribute f k)), w).
Proof.
  intros Hf Hs. unfold getattr_field, bind, get_descriptor. rewrite Hf.
  destruct k; try done.
  simpl. by rewrite (type__settled x f w Hf (Hs eq_refl)).
Qed.

Lemma matches_criteria x f cs w :
  descriptors w !! x = Some f ->
  (kw_type_ ∈ cs.*1 -> settled (TypedField._type f) = true) ->
  (forall c, c ∈ cs ->
     exists b, attr_ne (heap w) (AttrValue (sought_attribute f c.1)) c.2
               = inr b) ->
  _matches x ((fun c => (kwargmap_get (keyword_name c.1), c.2)) <$> cs) w
  = (Return (meets (heap w) f cs), w).
Proof.
  intros Hf. induction cs as [|[k v] cs IH]; intros Hs Hret; [done|].
  assert (Hk : k = kw_type_ -> settled (TypedField._type f) = true).
  { intros ->. apply Hs. by left. }
  assert (Hrest : _matches x
                    ((fun c => (kwargmap_get (keyword_name c.1), c.2)) <$> cs)
                    w = (Return (meets (heap w) f cs), w)).
  { apply IH.
    - intros Hin. apply Hs. by right.
    - intros c Hc. apply Hret. by right. }
  destruct (Hret (k, v)) as [b Hb]; [by left|]. simpl in Hb.
  simpl. unfold bind, hasattr_field.
  rewrite (getattr_sought x f k w Hf Hk). simpl.
  rewrite (getattr_sought x f k w Hf Hk). unfold gets, of_sum, equals.
  rewrite Hb. destruct b; simpl; [done|]. exact Hrest.
Qed.









(** ** Further properties: class references *)

(** X1: a string reference without a separator cannot be split into a
    module and a member: resolution raises the unpacking [ValueError]
    before any import, so the store, import log included, is unchanged;
    reading [type_] on a descriptor with such a reference raises the
    same error and leaves the store unchanged as well. *)
Theorem separator_required (s : string) (w : World) :
  has_dot s = false ->
  _resolve_class (VStr s) w =
    (Raise (Exn "ValueError"
                "not enough values to unpack (expected 2, got 1)" []), w)
  /\ (forall self f,
        descriptors w !! self = Some f ->
        TypedField._type f = VStr s ->
        TypedField_type_ self w =
          (Raise (Exn "ValueError"
                      "not enough values to unpack (expected 2, got 1)" []),
           w)).
Proof.
  intros Hs.
  assert (Hrun : _resolve_class (VStr s) w =
            (Raise (Exn "ValueError"
                        "not enough values to unpack (expected 2, got 1)" []),
             w)).
  { simpl. unfold _import_class. by rewrite (rsplit_dot_none s Hs). }
  split; [done|]. intros self f Hf Ht.
  unfold TypedField_type_, bind, get_descriptor. by rewrite Hf, Ht, Hrun.
Qed.

(** Reading [type_] changes the store only through the import log and
    the descriptor read. *)
Lemma type__frame self w r w1 :
  TypedField_type_ self w = (r, w1) ->
  heap w1 = heap w /\ next_addr w1 = next_addr w /\ entities w1 = entities w
  /\ (forall x, x <> self -> descriptors w1 !! x = descriptors w !! x)
  /\ (forall e, r = Raise e -> descriptors w1 = descriptors w).
Proof.
  unfold TypedField_type_, bind, get_descriptor.
  destruct (descriptors w !! self) as [f|] eqn:Hf.
  - destruct (_resolve_class (TypedField._type f) w) as [[t|e] w'] eqn:Hr;
      apply resolve_class_frame in Hr as (Hd & Hh & Hn & He).
    + unfold modify, ret. intros [= <- <-]. simpl.
      repeat split; try done.
      intros x Hx. by rewrite lookup_insert_ne, Hd.
    + intros [= <- <-]. repeat split; try done.
      intros x _. by rewrite Hd.
  - intros [= <- <-]. by repeat split.
Qed.

(** X2: a read of [type_] that raises caches nothing: the descriptors,
    the list objects and the entities are as before; and for a reference
    ["m.k"] every further read imports [m] again and raises the same
    error. *)
Theorem failed_resolution_is_retried (self : positive) (w w1 : World)
    (e : exn) :
  TypedField_type_ self w = (Raise e, w1) ->
  descriptors w1 = descriptors w
  /\ heap w1 = heap w
  /\ entities w1 = entities w
  /\ (forall f m k,
        descriptors w !! self = Some f ->
        TypedField._type f = VStr (m +:+ "." +:+ k) ->
        has_dot k = false ->
        w1 = log_import m w
        /\ TypedField_type_ self w1 = (Raise e, log_import m w1)).
Proof.
  intros Hrun.
  destruct (type__frame self w (Raise e) w1 Hrun) as (Hh & Hn & He & _ & Hd).
  split; [by apply (Hd e)|]. split; [done|]. split; [done|].
  intros f m k Hf Ht Hk.
  assert (Hstep : forall w0, descriptors w0 !! self = Some f ->
            TypedField_type_ self w0 = (Raise e, w1) ->
            w1 = log_import m w0
            /\ forall w', descriptors w' !! self = Some f ->
                 TypedField_type_ self w' = (Raise e, log_import m w')).
  { intros w0 Hf0. unfold TypedField_type_, bind, get_descriptor.
    rewrite Hf0, Ht. simpl. rewrite (import_class_run m k w0 Hk).
    destruct (import_module m) as [e0|module] eqn:Him.
    - intros [= <- <-]. split; [done|]. intros w' Hf'.
      rewrite Hf', Ht. simpl. rewrite (import_class_run m k w' Hk).
      by rewrite Him.
    - destruct (module k) eqn:Hmk; [done|].
      intros [= <- <-]. split; [done|]. intros w' Hf'.
      rewrite Hf', Ht. simpl. rewrite (import_class_run m k w' Hk).
      by rewrite Him, Hmk. }
  destruct (Hstep w Hf Hrun) as [-> Hnext].
  split; [done|]. by apply Hnext.
Qed.

(** X3: a read of [type_] that returns [t] writes [t] into the [_type]
    of that descriptor and touches no other descriptor, no list object
    and no entity; the import log grows by at most one module name, and
    not at all when the reference was already a class or absent. *)
Theorem type_read_effect (self : positive) (w w1 : World) (t : value) :
  TypedField_type_ self w = (Return t, w1) ->
  exists f,
    descriptors w !! self = Some f
    /\ descriptors w1 = <[self := TypedField.with_type f t]> (descriptors w)
    /\ heap w1 = heap w
    /\ entities w1 = entities w
    /\ (imported w1 = imported w
        \/ exists m, imported w1 = (imported w ++ [m])%list)
    /\ (settled (TypedField._type f) = true -> t = TypedField._type f /\ w1 = w).
Proof.
  intros Hrun. unfold TypedField_type_, bind, get_descriptor in Hrun.
  destruct (descriptors w !! self) as [f|] eqn:Hf; [|done].
  exists f. split; [done|].
  destruct (_resolve_class (TypedField._type f) w) as [[r|e] w'] eqn:Hr;
    [|done].
  unfold modify, ret in Hrun. injection Hrun as <- <-.
  pose proof (resolve_class_frame _ _ _ _ Hr) as (Hd & Hh & Hn & He).
  simpl. split; [by rewrite Hd|]. split; [done|]. split; [done|].
  split.
  - destruct (TypedField._type f) as [| | |s| | | |]; simpl in Hr;
      try (injection Hr as _ <-; by left); try done.
    unfold _import_class in Hr. destruct (rsplit_dot s) as [[m k]|]; [|done].
    unfold bind, modify, of_sum in Hr.
    destruct (import_module m) as [e0|module]; [done|]. simpl in Hr.
    destruct (module k); [|done]. injection Hr as _ <-. right. by exists m.
  - intros Hs. rewrite (resolve_settled _ _ Hs) in Hr.
    injection Hr as <- <-. split; [done|].
    rewrite with_type_same. by apply set_descriptor_same.
Qed.


(** ** Further properties: the typed list *)

Lemma is_valid_by_type h self x :
  _TypedList__is_valid h self x
  = _TypedList__is_valid h (_TypedList.mk (_TypedList._type self) []) x.
Proof. done. Qed.

Lemma insert_type h self idx v self' :
  _TypedList_insert h self idx v = inr self' ->
  _TypedList._type self' = _TypedList._type self.
Proof.
  unfold _TypedList_insert. destruct (truthy h v); simpl;
    [|by intros [= <-]].
  destruct (validated h self v); [done|]. by intros [= <-].
Qed.

Lemma extend_type h values : forall self self',
  _TypedList_extend h self values = inr self' ->
  _TypedList._type self' = _TypedList._type self.
Proof.
  induction values as [|v values IH]; intros self self'; simpl.
  - by intros [= <-].
  - destruct (_TypedList_append h self v) as [e|s1] eqn:Ha; [done|].
    intros Hrest. rewrite (IH _ _ Hrest). by apply insert_type in Ha.
Qed.

Lemma extend_app h l1 : forall self l2,
  _TypedList_extend h self (l1 ++ l2) =
    match _TypedList_extend h self l1 with
    | inl e => inl e
    | inr self' => _TypedList_extend h self' l2
    end.
Proof.
  induction l1 as [|v l1 IH]; intros self l2; simpl; [done|].
  destruct (_TypedList_append h self v); [done|]. apply IH.
Qed.

Lemma init_args_extend h args : forall self,
  _TypedList_init_args h self args
  = _TypedList_extend h self (args_items args).
Proof.
  induction args as [|a args IH]; intros self; [done|].
  unfold args_items. simpl. fold (args_items args).
  rewrite extend_app. destruct a as [l|v]; simpl.
  - destruct (_TypedList_extend h self l); [done|]. apply IH.
  - destruct (_TypedList_append h self v); [done|]. apply IH.
Qed.

Lemma extend_valid h t l : forall acc,
  (forall x, x ∈ l -> truthy h x = true ->
     _TypedList__is_valid h (_TypedList.mk t []) x = inr true) ->
  _TypedList_extend h (_TypedList.mk t acc) l
  = inr (_TypedList.mk t (acc ++ truthy_items h l)).
Proof.
  unfold truthy_items.
  induction l as [|x l IH]; intros acc Hval; simpl.
  - by rewrite app_nil_r.
  - assert (Hval' : forall y, y ∈ l -> truthy h y = true ->
              _TypedList__is_valid h (_TypedList.mk t []) y = inr true).
    { intros y Hy. apply Hval. by right. }
    destruct (truthy h x) eqn:Htr.
    + rewrite (append_valid h t acc x Htr) by (apply Hval; [by left|done]).
      rewrite filter_cons_True by done.
      rewrite (IH (acc ++ [x])%list Hval'). by rewrite <- app_assoc.
    + rewrite (append_falsy h _ x Htr).
      rewrite filter_cons_False by (by rewrite Htr). by apply IH.
Qed.

(** X4: the constructor flattens its arguments one level: building a
    typed list from arguments is extending the empty list with the
    elements of the sequence arguments and the single items, in order;
    when every truthy one of these passes the element-type test, the
    list holds exactly the truthy ones, in order. *)
Theorem init_flattens_one_level (h : gmap positive HeapObj) (t : value)
    (args : list InitArg) :
  _TypedList___init__ h t args
  = _TypedList_extend h (_TypedList.mk t []) (args_items args)
  /\ ((forall x, x ∈ args_items args -> truthy h x = true ->
         _TypedList__is_valid h (_TypedList.mk t []) x = inr true) ->
      _TypedList___init__ h t args
      = inr (_TypedList.mk t (truthy_items h (args_items args)))).
Proof.
  unfold _TypedList___init__. rewrite init_args_extend. split; [done|].
  intros Hval. by rewrite (extend_valid h t _ [] Hval).
Qed.

Lemma validated_admissible h self v v' :
  validated h self v = inr v' ->
  admissible h (_TypedList._type self) v'.
Proof.
  unfold validated, admissible.
  destruct (_TypedList__is_valid h self v) as [e|[]] eqn:Hv; [done| |].
  - intros [= <-]. left. by rewrite <- is_valid_by_type.
  - unfold _TypedList__fix_value.
    destruct (call (_TypedList._type self) v) as [e|r] eqn:Hc; [done|].
    intros [= <-]. right. by exists v.
Qed.

Lemma insert_admissible h self idx v self' :
  Forall (admissible h (_TypedList._type self)) (_TypedList._inner self) ->
  _TypedList_insert h self idx v = inr self' ->
  Forall (admissible h (_TypedList._type self)) (_TypedList._inner self').
Proof.
  intros Hall. unfold _TypedList_insert.
  destruct (truthy h v); simpl; [|by intros [= <-]].
  destruct (validated h self v) as [e|v'] eqn:Hv; [done|].
  intros [= <-]. simpl. unfold list_insert_at.
  apply Forall_app. split; [by apply Forall_take|].
  apply Forall_cons. split; [by eapply validated_admissible|].
  by apply Forall_drop.
Qed.

Lemma extend_admissible h values : forall self self',
  Forall (admissible h (_TypedList._type self)) (_TypedList._inner self) ->
  _TypedList_extend h self values = inr self' ->
  Forall (admissible h (_TypedList._type self)) (_TypedList._inner self').
Proof.
  induction values as [|v values IH]; intros self self' Hall; simpl.
  - by intros [= <-].
  - destruct (_TypedList_append h self v) as [e|s1] eqn:Ha; [done|].
    intros Hrest. pose proof (insert_type _ _ _ _ _ Ha) as Ht.
    rewrite <- Ht. apply (IH s1 self'); [|done].
    rewrite Ht. by eapply insert_admissible.
Qed.

(** X5: no operation changes the element type of a typed list, and
    every element of a list built by the constructor and changed by
    [insert], [extend], [__setitem__] and [__delitem__] either passes the
    element-type test or is the result of calling the element type; so
    when the results of calling the type pass the test, every element
    does. *)
Theorem typed_list_elements_admissible (h : gmap positive HeapObj)
    (self : _TypedList.t) :
  (forall args self0,
     _TypedList___init__ h (_TypedList._type self) args = inr self0 ->
     _TypedList._type self0 = _TypedList._type self
     /\ Forall (admissible h (_TypedList._type self))
               (_TypedList._inner self0))
  /\ (Forall (admissible h (_TypedList._type self)) (_TypedList._inner self) ->
      (forall idx v self',
         _TypedList_insert h self idx v = inr self' ->
         _TypedList._type self' = _TypedList._type self
         /\ Forall (admissible h (_TypedList._type self))
                   (_TypedList._inner self'))
      /\ (forall values self',
            _TypedList_extend h self values = inr self' ->
            _TypedList._type self' = _TypedList._type self
            /\ Forall (admissible h (_TypedList._type self))
                      (_TypedList._inner self'))
      /\ (forall key v self',
            _TypedList___setitem__ h self key v = inr self' ->
            _TypedList._type self' = _TypedList._type self
            /\ Forall (admissible h (_TypedList._type self))
                      (_TypedList._inner self'))
      /\ (forall key self',
            _TypedList___delitem__ self key = inr self' ->
            _TypedList._type self' = _TypedList._type self
            /\ Forall (admissible h (_TypedList._type self))
                      (_TypedList._inner self'))
      /\ ((forall y r, call (_TypedList._type self) y = inr r ->
             _TypedList__is_valid h self r = inr true) ->
          Forall (fun x => _TypedList__is_valid h self x = inr true)
                 (_TypedList._inner self))).
Proof.
  split.
  { intros args self0. unfold _TypedList___init__.
    rewrite init_args_extend. intros Hrun.
    split; [by apply extend_type in Hrun|].
    apply (extend_admissible h (args_items args)
             (_TypedList.mk (_TypedList._type self) []) self0);
      [by constructor|done]. }
  intros Hall. split; [|split; [|split; [|split]]].
  - intros idx v self' Hrun.
    split; [by eapply insert_type|by eapply insert_admissible].
  - intros values self' Hrun.
    split; [by eapply extend_type|by eapply extend_admissible].
  - intros key v self'. unfold _TypedList___setitem__.
    destruct (validated h self v) as [e|v'] eqn:Hv; [done|].
    unfold list_setitem. destruct (_ && _)%bool; [|done].
    intros [= <-]. split; [done|]. simpl.
    apply Forall_insert; [done|]. by eapply validated_admissible.
  - intros key self'. unfold _TypedList___delitem__, list_delitem.
    destruct (_ && _)%bool; [|done]. intros [= <-]. split; [done|].
    simpl. by apply Forall_delete.
  - intros Hctor. eapply Forall_impl; [exact Hall|].
    intros x [Hx|[y Hy]]; [by rewrite is_valid_by_type|by eapply Hctor].
Qed.


Lemma list_getitem_in_range key (l : list value) x :
  0 <= position key l < Z.of_nat (length l) ->
  l !! Z.to_nat (position key l) = Some x ->
  list_getitem key l = inr x.
Proof.
  intros [H0 H1] Hx. unfold list_getitem. fold (position key l).
  destruct (Z.leb_spec 0 (position key l)); [|lia].
  destruct (Z.ltb_spec (position key l) (Z.of_nat (length l))); [|lia].
  simpl. by rewrite Hx.
Qed.

Lemma list_setitem_inv key (x : value) l l' :
  list_setitem key x l = inr l' ->
  0 <= position key l < Z.of_nat (length l)
  /\ l' = <[Z.to_nat (position key l) := x]> l.
Proof.
  unfold list_setitem. fold (position key l).
  destruct (Z.leb_spec 0 (position key l));
    destruct (Z.ltb_spec (position key l) (Z.of_nat (length l)));
    simpl; try done.
  intros [= <-]. split; [lia|done].
Qed.

(** X6: a successful index assignment is read back: [self[key] = v]
    followed by [self[key]] gives the value that was validated or
    coerced from [v]; the length and the other positions are unchanged;
    and an index outside the list makes the assignment raise
    [IndexError] when the value itself is accepted. *)
Theorem setitem_getitem_round_trip (h : gmap positive HeapObj)
    (self : _TypedList.t) (key : Z) (v : value) :
  (forall self',
     _TypedList___setitem__ h self key v = inr self' ->
     exists stored,
       validated h self v = inr stored
       /\ _TypedList___getitem__ self' key = inr stored
       /\ _TypedList___len__ self' = _TypedList___len__ self
       /\ forall j, j <> Z.to_nat (position key (_TypedList._inner self)) ->
            _TypedList._inner self' !! j = _TypedList._inner self !! j)
  /\ (forall stored,
        validated h self v = inr stored ->
        ~ (0 <= position key (_TypedList._inner self)
             < Z.of_nat (length (_TypedList._inner self))) ->
        _TypedList___setitem__ h self key v
        = inl (Exn "IndexError" "list assignment index out of range" [])).
Proof.
  split.
  - intros self'. unfold _TypedList___setitem__.
    destruct (validated h self v) as [e|stored]; [done|].
    destruct (list_setitem key stored (_TypedList._inner self))
      as [e|l'] eqn:Hset; [done|].
    intros [= <-]. apply list_setitem_inv in Hset as [Hpos ->].
    exists stored. split; [done|].
    assert (Hlen : length (<[Z.to_nat (position key (_TypedList._inner self))
                             := stored]> (_TypedList._inner self))
                   = length (_TypedList._inner self)) by apply length_insert.
    assert (Hsame : position key
                      (<[Z.to_nat (position key (_TypedList._inner self))
                         := stored]> (_TypedList._inner self))
                    = position key (_TypedList._inner self)).
    { unfold position. by rewrite length_insert. }
    split; [|split].
    + unfold _TypedList___getitem__. simpl.
      apply list_getitem_in_range; rewrite Hsame, ?Hlen; [done|].
      apply list_lookup_insert_eq. lia.
    + unfold _TypedList___len__. simpl. by rewrite Hlen.
    + intros j Hj. simpl. by apply list_lookup_insert_ne.
  - intros stored Hv Hpos. unfold _TypedList___setitem__. rewrite Hv.
    unfold list_setitem. fold (position key (_TypedList._inner self)).
    destruct (Z.leb_spec 0 (position key (_TypedList._inner self)));
      destruct (Z.ltb_spec (position key (_TypedList._inner self))
                  (Z.of_nat (length (_TypedList._inner self))));
      simpl; try done.
    exfalso. apply Hpos. lia.
Qed.

Lemma insert_position_range idx (l : list value) :
  0 <= insert_position idx l <= Z.of_nat (length l).
Proof. unfold insert_position. destruct (Z.ltb_spec idx 0); lia. Qed.

(** X7: a successful [insert] of a truthy value makes the list one
    longer, puts the validated or coerced value at the clamped position,
    and deleting that position gives the list back; an [insert] of a
    falsy value changes nothing; and [__delitem__] outside the list
    raises [IndexError]. *)
Theorem insert_delitem_round_trip (h : gmap positive HeapObj)
    (self : _TypedList.t) (idx : Z) (v : value) :
  (forall self',
     truthy h v = true ->
     _TypedList_insert h self idx v = inr self' ->
     exists stored,
       validated h self v = inr stored
       /\ _TypedList___len__ self' = _TypedList___len__ self + 1
       /\ _TypedList___getitem__ self'
            (insert_position idx (_TypedList._inner self)) = inr stored
       /\ _TypedList___delitem__ self'
            (insert_position idx (_TypedList._inner self)) = inr self)
  /\ (truthy h v = false ->
      _TypedList_insert h self idx v = inr self)
  /\ (forall key,
        ~ (0 <= position key (_TypedList._inner self)
             < Z.of_nat (length (_TypedList._inner self))) ->
        _TypedList___delitem__ self key
        = inl (Exn "IndexError" "list assignment index out of range" [])).
Proof.
  split; [|split].
  - intros self' Htr. unfold _TypedList_insert. rewrite Htr. simpl.
    destruct (validated h self v) as [e|stored]; [done|].
    intros [= <-]. exists stored. split; [done|].
    pose proof (insert_position_range idx (_TypedList._inner self)) as Hr.
    set (l := _TypedList._inner self) in *.
    set (p := insert_position idx l) in *.
    assert (Hins : list_insert_at idx stored l
                   = (take (Z.to_nat p) l ++ stored :: drop (Z.to_nat p) l)%list)
      by done.
    assert (Hlen : length (list_insert_at idx stored l) = S (length l))
      by apply length_list_insert_at.
    assert (Htake : length (take (Z.to_nat p) l) = Z.to_nat p).
    { rewrite length_take. lia. }
    assert (Hpos : position p (list_insert_at idx stored l) = p).
    { unfold position. destruct (Z.ltb_spec p 0); [lia|done]. }
    split; [|split].
    + unfold _TypedList___len__. simpl. fold l. rewrite Hlen. lia.
    + unfold _TypedList___getitem__. simpl. fold l.
      apply list_getitem_in_range; rewrite Hpos, ?Hlen; [lia|].
      rewrite Hins. rewrite <- Htake at 1. apply list_lookup_middle. done.
    + unfold _TypedList___delitem__, list_delitem. simpl. fold l.
      fold (position p (list_insert_at idx stored l)). rewrite Hpos, Hlen.
      destruct (Z.leb_spec 0 p); [|lia].
      destruct (Z.ltb_spec p (Z.of_nat (S (length l)))); [|lia].
      simpl. rewrite Hins. rewrite <- Htake at 1.
      rewrite delete_middle, take_drop. unfold l. by destruct self.
  - intros Htr. unfold _TypedList_insert. by rewrite Htr.
  - intros key Hpos. unfold _TypedList___delitem__, list_delitem.
    fold (position key (_TypedList._inner self)).
    destruct (Z.leb_spec 0 (position key (_TypedList._inner self)));
      destruct (Z.ltb_spec (position key (_TypedList._inner self))
                  (Z.of_nat (length (_TypedList._inner self))));
      simpl; try done.
    exfalso. apply Hpos. lia.
Qed.

(** X8: a typed list whose element type is a string (the unresolved
    name of a class) accepts no value: [insert] of a truthy value and
    [__setitem__] of any value raise the [TypeError] of [isinstance];
    only the [insert] of a falsy value returns, leaving the list
    unchanged; and a descriptor declared with a non-empty string as its
    type has such a list as its list class. *)
Theorem string_element_type_rejects (h : gmap positive HeapObj) (s : string)
    (l : list value) (v : value) :
  (truthy h v = true ->
   forall idx,
     _TypedList_insert h (_TypedList.mk (VStr s) l) idx v
     = inl (Exn "TypeError"
                "isinstance() arg 2 must be a type or tuple of types" []))
  /\ (forall key,
        _TypedList___setitem__ h (_TypedList.mk (VStr s) l) key v
        = inl (Exn "TypeError"
                   "isinstance() arg 2 must be a type or tuple of types" []))
  /\ (truthy h v = false ->
      forall idx,
        _TypedList_insert h (_TypedList.mk (VStr s) l) idx v
        = inr (_TypedList.mk (VStr s) l))
  /\ (s <> "" ->
      forall cls name key_name comparable multiple pre post factory,
        TypedField.listclass
          (TypedField___init__ h cls name (VStr s) key_name comparable
             multiple pre post factory)
        = PartialTypedList (VStr s)).
Proof.
  split; [|split; [|split]].
  - intros Htr idx. unfold _TypedList_insert. by rewrite Htr.
  - done.
  - intros Htr idx. unfold _TypedList_insert. by rewrite Htr.
  - intros Hs cls name key_name comparable multiple pre post factory.
    unfold TypedField___init__. simpl.
    destruct (String.eqb_spec s ""); [done|done].
Qed.


(** ** Further properties: the descriptor *)

(** X9: for a field whose type is absent [check_type] accepts every
    value; for a field whose type is a class it is the membership test
    of the class, the same test the typed list of that class applies, so
    a truthy value that [check_type] accepts is inserted unchanged; in
    both cases the store is left as it is. *)
Theorem check_type_agrees_with_typed_list (self : positive)
    (f : TypedField.t) (w : World) (v : value) :
  descriptors w !! self = Some f ->
  (TypedField._type f = VNone ->
     TypedField_check_type self v w = (Return true, w))
  /\ (forall c l,
        TypedField._type f = VClass c ->
        TypedField_check_type self v w = (Return (satisfies (heap w) c v), w)
        /\ _TypedList__is_valid (heap w) (_TypedList.mk (VClass c) l) v
           = inr (satisfies (heap w) c v)
        /\ (satisfies (heap w) c v = true -> truthy (heap w) v = true ->
            forall idx,
              _TypedList_insert (heap w) (_TypedList.mk (VClass c) l) idx v
              = inr (_TypedList.mk (VClass c) (list_insert_at idx v l)))).
Proof.
  intros Hf. split.
  - intros Ht.
    assert (Hrun : TypedField_type_ self w = (Return VNone, w)).
    { rewrite <- Ht. apply type__settled; [done|by rewrite Ht]. }
    unfold TypedField_check_type, bind. by rewrite Hrun.
  - intros c l Ht. split; [by apply (check_type_class self f)|].
    assert (Hvalid : _TypedList__is_valid (heap w)
                       (_TypedList.mk (VClass c) l) v
                     = inr (satisfies (heap w) c v)).
    { unfold _TypedList__is_valid, satisfies. simpl.
      by destruct (istypeof (classes c)). }
    split; [done|]. intros Hs Htr idx.
    unfold _TypedList_insert. rewrite Htr. simpl.
    rewrite (validated_valid _ _ _) by by rewrite Hvalid, Hs.
    done.
Qed.

(** X11: the transformer of a descriptor whose references need no
    resolution is the factory when that is a class, else the type when
    that is a class, else null; reading it leaves the store unchanged. *)
Theorem transformer_prefers_factory (self : positive) (f : TypedField.t)
    (w : World) :
  descriptors w !! self = Some f ->
  (forall c, TypedField._factory f = VClass c ->
     settled (TypedField._type f) = true ->
     TypedField_transformer self w = (Return (VClass c), w))
  /\ (forall c, TypedField._factory f = VNone ->
        TypedField._type f = VClass c ->
        TypedField_transformer self w = (Return (VClass c), w))
  /\ (TypedField._factory f = VNone -> TypedField._type f = VNone ->
      TypedField_transformer self w = (Return VNone, w)).
Proof.
  intros Hf. split; [|split].
  - intros c Hfac Ht.
    rewrite (transformer_settled self f w Hf Ht) by by rewrite Hfac.
    by rewrite Hfac.
  - intros c Hfac Ht.
    rewrite (transformer_settled self f w Hf) by by rewrite ?Hfac, ?Ht.
    by rewrite Hfac, Ht.
  - intros Hfac Ht.
    rewrite (transformer_settled self f w Hf) by by rewrite ?Hfac, ?Ht.
    by rewrite Hfac, Ht.
Qed.

(** X12: assigning the [type_] property replaces the reference and
    nothing else: the castable flag and the list class computed by the
    constructor stay as they were.  So after a class [c] is assigned to
    a descriptor constructed without a type, reading [type_] gives [c]
    without any import, yet the clean step never calls [c]: it raises
    the type-mismatch error for a value that fails the test of [c], even
    when [c] is marked [_try_cast]. *)
Theorem type_setter_keeps_flags (h0 : gmap positive HeapObj)
    (cls : FieldClass) (name : string) (key_name : value)
    (comparable multiple : bool) (pre post : option positive)
    (factory : value) (self : positive) (w : World) (c : string) :
  let f := TypedField___init__ h0 cls name VNone key_name comparable
             multiple pre post factory in
  let f1 := TypedField.with_type f (VClass c) in
  let w1 := set_descriptor self f1 w in
  descriptors w !! self = Some f ->
  TypedField_type__setter self (VClass c) w = (Return tt, w1)
  /\ TypedField_type_ self w1 = (Return (VClass c), w1)
  /\ TypedField.is_type_castable f1 = false
  /\ TypedField.listclass f1 = PlainListClass
  /\ (forall v, v <> VNone -> satisfies (heap w1) c v = false ->
        TypedField__clean self v w1
        = (Raise (Exn "TypeError" "%s must be a %s, not a %s"
                      [VStr name; VClass c; type_of (heap w1) v]), w1)).
Proof.
  intros f f1 w1 Hf.
  assert (Hf1 : descriptors w1 !! self = Some f1).
  { unfold w1. simpl. by rewrite lookup_insert_eq. }
  assert (Hrun : TypedField_type_ self w1 = (Return (VClass c), w1)).
  { by rewrite (type__settled self f1 w1 Hf1). }
  split; [|split; [done|split; [done|split; [done|]]]].
  - unfold TypedField_type__setter, bind, get_descriptor. by rewrite Hf.
  - intros v Hv Hs.
    rewrite (clean_run self f1 (VClass c) v w1 w1 Hf1 Hrun Hv).
    by rewrite Hs.
Qed.


(** ** What the operations leave unchanged *)

Lemma keeps_ret {A} (R : World -> World -> Prop) (a : A) :
  (forall w, R w w) -> keeps R (ret a).
Proof. intros Hrefl w r w1 [= <- <-]. apply Hrefl. Qed.

Lemma keeps_raise {A} (R : World -> World -> Prop) (e : exn) :
  (forall w, R w w) -> keeps R (raise e : M World A).
Proof. intros Hrefl w r w1 [= <- <-]. apply Hrefl. Qed.

Lemma keeps_gets {A} (R : World -> World -> Prop) (g : World -> A) :
  (forall w, R w w) -> keeps R (gets g).
Proof. intros Hrefl w r w1 [= <- <-]. apply Hrefl. Qed.

Lemma keeps_of_sum {A} (R : World -> World -> Prop) (x : exn + A) :
  (forall w, R w w) -> keeps R (of_sum x).
Proof. destruct x; [apply keeps_raise|apply keeps_ret]. Qed.

Lemma keeps_modify (R : World -> World -> Prop) (g : World -> World) :
  (forall w, R w (g w)) -> keeps R (modify g).
Proof. intros Hg w r w1 [= <- <-]. apply Hg. Qed.

Lemma keeps_bind {A B} (R : World -> World -> Prop) (m : M World A)
    (k : A -> M World B) :
  (forall w1 w2 w3, R w1 w2 -> R w2 w3 -> R w1 w3) ->
  keeps R m -> (forall a, keeps R (k a)) -> keeps R (bind m k).
Proof.
  intros Htrans Hm Hk w r w1. unfold bind.
  destruct (m w) as [[a|e] w'] eqn:Hrun.
  - intros Hrest. eapply Htrans; [by eapply Hm|by eapply Hk].
  - intros [= <- <-]. by eapply Hm.
Qed.

Lemma keeps_weaken {A} (R R' : World -> World -> Prop) (m : M World A) :
  (forall w w1, R w w1 -> R' w w1) -> keeps R m -> keeps R' m.
Proof. intros Himp Hm w r w1 Hrun. apply Himp. by eapply Hm. Qed.

Lemma same_objects_refl w : same_objects w w.
Proof. by repeat split. Qed.

Lemma same_objects_trans w1 w2 w3 :
  same_objects w1 w2 -> same_objects w2 w3 -> same_objects w1 w3.
Proof. intros (? & ? & ?) (? & ? & ?). repeat split; congruence. Qed.

Lemma same_entities_refl w : same_entities w w.
Proof. done. Qed.

Lemma same_entities_trans w1 w2 w3 :
  same_entities w1 w2 -> same_entities w2 w3 -> same_entities w1 w3.
Proof. unfold same_entities. congruence. Qed.

Lemma same_store_refl w : same_store w w.
Proof. done. Qed.

Lemma same_store_trans w1 w2 w3 :
  same_store w1 w2 -> same_store w2 w3 -> same_store w1 w3.
Proof. unfold same_store. congruence. Qed.

Lemma same_objects_entities w w1 : same_objects w w1 -> same_entities w w1.
Proof. by intros (? & _). Qed.

Lemma same_store_objects w w1 : same_store w w1 -> same_objects w w1.
Proof. intros ->. apply same_objects_refl. Qed.

Create HintDb keeps.
#[local] Hint Resolve same_objects_refl same_objects_trans
  same_entities_refl same_entities_trans same_store_refl same_store_trans
  : keeps.
#[local] Hint Resolve keeps_ret keeps_raise keeps_gets keeps_of_sum : keeps.

(** One step through a computation: a bind, or one of the primitives. *)
Ltac keeps_step :=
  first [ solve [eauto with keeps]
        | apply keeps_bind; [| |intros ?] ];
  eauto with keeps.

(** A case distinction in the computation. *)
Ltac keeps_case :=
  match goal with
  | |- keeps _ (if ?b then _ else _) => destruct b
  | |- keeps _ (match ?t with _ => _ end) => destruct t
  end.

Ltac keeps_auto := repeat (keeps_step || keeps_case).

Lemma keeps_get_descriptor (R : World -> World -> Prop) self :
  (forall w, R w w) -> keeps R (get_descriptor self).
Proof.
  intros Hrefl w r w1. unfold get_descriptor.
  destruct (descriptors w !! self); intros [= <- <-]; apply Hrefl.
Qed.
#[local] Hint Resolve keeps_get_descriptor : keeps.

Lemma keeps_resolve_class t : keeps same_objects (_resolve_class t).
Proof.
  intros w r w1 Hrun.
  apply resolve_class_frame in Hrun as (_ & Hh & Hn & He). by repeat split.
Qed.

Lemma keeps_type_ self : keeps same_objects (TypedField_type_ self).
Proof.
  intros w r w1 Hrun.
  apply type__frame in Hrun as (Hh & Hn & He & _). by repeat split.
Qed.

Lemma keeps_set_descriptor self f :
  keeps same_objects (modify (set_descriptor self f)).
Proof. apply keeps_modify. intros w. by repeat split. Qed.

#[local] Hint Resolve keeps_resolve_class keeps_set_descriptor : keeps.

Lemma keeps_factory self : keeps same_objects (TypedField_factory self).
Proof. unfold TypedField_factory. keeps_auto. Qed.
#[local] Hint Resolve keeps_type_ keeps_factory : keeps.

Lemma keeps_key_name self : keeps same_objects (TypedField_key_name self).
Proof. unfold TypedField_key_name. keeps_auto. Qed.

Lemma keeps_transformer self :
  keeps same_objects (TypedField_transformer self).
Proof. unfold TypedField_transformer. keeps_auto. Qed.
#[local] Hint Resolve keeps_key_name keeps_transformer : keeps.

Lemma keeps_check_type self v :
  keeps same_objects (TypedField_check_type self v).
Proof. unfold TypedField_check_type. keeps_auto. Qed.
#[local] Hint Resolve keeps_check_type : keeps.

Lemma keeps_base_clean self v : keeps same_objects (TypedField__clean self v).
Proof. unfold TypedField__clean. keeps_auto. Qed.
#[local] Hint Resolve keeps_base_clean : keeps.

(** The clean step of the typed subclasses reads nothing but its
    argument. *)
Lemma subclass_clean_pure self f v w r w1 :
  descriptors w !! self = Some f ->
  TypedField.class_ f <> TypedFieldClass ->
  TypedField.class_ f <> IdField ->
  TypedField.class_ f <> IdrefField ->
  clean self v w = (r, w1) -> w1 = w.
Proof.
  intros Hf H1 H2 H3. unfold clean, bind, get_descriptor. rewrite Hf.
  destruct (TypedField.class_ f); try done; unfold gets;
    try (unfold ret; by intros [= _ <-]);
    match goal with
    | |- of_sum ?x _ = _ -> _ => destruct x; by intros [= _ <-]
    end.
Qed.

Lemma keeps_clean self v : keeps same_objects (clean self v).
Proof. unfold clean. keeps_auto. Qed.
#[local] Hint Resolve keeps_clean : keeps.

Lemma keeps_alloc o : keeps same_entities (alloc o).
Proof. intros w r w1 [= <- <-]. done. Qed.

Lemma keeps_clean_entities self v : keeps same_entities (clean self v).
Proof.
  eapply keeps_weaken; [apply same_objects_entities|apply keeps_clean].
Qed.
#[local] Hint Resolve keeps_alloc keeps_clean_entities : keeps.

Lemma keeps_list_cleaned self xs : keeps same_entities (list_cleaned self xs).
Proof.
  induction xs as [|x xs IH]; simpl; [keeps_step|].
  destruct x; try done; keeps_auto.
Qed.

Lemma keeps_extend_cleaned self xs :
  forall tl, keeps same_entities (extend_cleaned self tl xs).
Proof.
  induction xs as [|x xs IH]; intros tl; simpl; [keeps_step|].
  destruct x; try done; keeps_auto.
Qed.

Lemma keeps_iterate v : keeps same_entities (iterate v).
Proof.
  intros w r w1. unfold iterate.
  destruct v; try (intros [= <- <-]; done).
  destruct (heap w !! a); intros [= <- <-]; done.
Qed.
#[local] Hint Resolve keeps_list_cleaned keeps_extend_cleaned keeps_iterate
  : keeps.

Lemma keeps_value_to_store self v : keeps same_entities (value_to_store self v).
Proof.
  unfold value_to_store, listclass_of_list, listclass_of_generator.
  keeps_auto.
Qed.


(** ** IdField and IdrefField: the two kinds exclude each other *)

Lemma settings_with_type f t :
  settings (TypedField.with_type f t) = settings f.
Proof. by destruct f. Qed.

Lemma settings_with_factory f t :
  settings (TypedField.with_factory f t) = settings f.
Proof. by destruct f. Qed.

Lemma settings_flags f f1 :
  settings f1 = settings f ->
  TypedField.class_ f1 = TypedField.class_ f
  /\ TypedField.multiple f1 = TypedField.multiple f
  /\ TypedField.preset_hook f1 = TypedField.preset_hook f
  /\ TypedField.postset_hook f1 = TypedField.postset_hook f
  /\ TypedField.is_type_castable f1 = TypedField.is_type_castable f.
Proof. destruct f, f1. unfold settings. simpl. intros H. by inversion H. Qed.

Lemma same_settings_refl w : same_settings w w.
Proof. done. Qed.

Lemma same_settings_sym w w1 : same_settings w w1 -> same_settings w1 w.
Proof. intros H x. by rewrite H. Qed.

Lemma same_settings_trans w1 w2 w3 :
  same_settings w1 w2 -> same_settings w2 w3 -> same_settings w1 w3.
Proof. intros H1 H2 x. by rewrite H2, H1. Qed.

Lemma same_settings_descriptors w w1 :
  descriptors w1 = descriptors w -> same_settings w w1.
Proof. intros H x. by rewrite H. Qed.

Lemma same_settings_set self f f1 w :
  descriptors w !! self = Some f -> settings f1 = settings f ->
  same_settings w (set_descriptor self f1 w).
Proof.
  intros Hf Hs x. simpl. destruct (decide (x = self)) as [->|Hne].
  - rewrite lookup_insert_eq, Hf. simpl. by rewrite Hs.
  - by rewrite lookup_insert_ne.
Qed.

Lemma same_settings_lookup w w1 x f :
  same_settings w w1 -> descriptors w !! x = Some f ->
  exists f1, descriptors w1 !! x = Some f1 /\ settings f1 = settings f.
Proof.
  intros Hs Hf. specialize (Hs x). rewrite Hf in Hs.
  destruct (descriptors w1 !! x) as [f1|]; [|done].
  exists f1. split; [done|].
  cbn [fmap option_fmap option_map] in Hs. by apply (inj Some).
Qed.

#[local] Hint Resolve same_settings_refl same_settings_trans : keeps.

Lemma keeps_settings_resolve_class t : keeps same_settings (_resolve_class t).
Proof.
  intros w r w1 Hrun. apply resolve_class_frame in Hrun as (Hd & _).
  by apply same_settings_descriptors.
Qed.

Lemma keeps_settings_type_ self : keeps same_settings (TypedField_type_ self).
Proof.
  intros w r w1. unfold TypedField_type_, bind, get_descriptor.
  destruct (descriptors w !! self) as [f|] eqn:Hf; [|by intros [= <- <-]].
  destruct (_resolve_class (TypedField._type f) w) as [[t|e] w2] eqn:Hr;
    apply resolve_class_frame in Hr as (Hd & _).
  - unfold modify, ret. intros [= <- <-].
    eapply same_settings_trans; [by apply same_settings_descriptors|].
    apply (same_settings_set self f); [by rewrite Hd|].
    apply settings_with_type.
  - intros [= <- <-]. by apply same_settings_descriptors.
Qed.

Lemma keeps_settings_alloc o : keeps same_settings (alloc o).
Proof. intros w r w1 [= <- <-]. done. Qed.

Lemma keeps_settings_iterate v : keeps same_settings (iterate v).
Proof.
  intros w r w1. unfold iterate.
  destruct v; try (intros [= <- <-]; done).
  destruct (heap w !! a); intros [= <- <-]; done.
Qed.

#[local] Hint Resolve keeps_settings_resolve_class keeps_settings_type_
  keeps_settings_alloc keeps_settings_iterate : keeps.

Lemma keeps_settings_check_type self v :
  keeps same_settings (TypedField_check_type self v).
Proof. unfold TypedField_check_type. keeps_auto. Qed.
#[local] Hint Resolve keeps_settings_check_type : keeps.

Lemma keeps_settings_base_clean self v :
  keeps same_settings (TypedField__clean self v).
Proof. unfold TypedField__clean. keeps_auto. Qed.
#[local] Hint Resolve keeps_settings_base_clean : keeps.

Lemma keeps_settings_clean self v : keeps same_settings (clean self v).
Proof. unfold clean. keeps_auto. Qed.
#[local] Hint Resolve keeps_settings_clean : keeps.

Lemma keeps_settings_list_cleaned self xs :
  keeps same_settings (list_cleaned self xs).
Proof.
  induction xs as [|x xs IH]; simpl; [keeps_step|].
  destruct x; try done; keeps_auto.
Qed.

Lemma keeps_settings_extend_cleaned self xs :
  forall tl, keeps same_settings (extend_cleaned self tl xs).
Proof.
  induction xs as [|x xs IH]; intros tl; simpl; [keeps_step|].
  destruct x; try done; keeps_auto.
Qed.
#[local] Hint Resolve keeps_settings_list_cleaned
  keeps_settings_extend_cleaned : keeps.

Lemma keeps_settings_value_to_store self v :
  keeps same_settings (value_to_store self v).
Proof.
  unfold value_to_store, listclass_of_list, listclass_of_generator.
  keeps_auto.
Qed.

Lemma truthy_scalar h h' v : is_sequence v = false -> truthy h v = truthy h' v.
Proof. by destruct v. Qed.

(** The clean step of a descriptor whose castable flag is unset returns
    the value it was given, when it returns. *)
Lemma clean_as_given self f v w c w1 :
  descriptors w !! self = Some f ->
  TypedField.is_type_castable f = false ->
  TypedField__clean self v w = (Return c, w1) -> c = v.
Proof.
  intros Hf Hc. destruct (decide (v = VNone)) as [->|Hv];
    [by intros [= <- _]|].
  rewrite (clean_not_none _ _ _ Hv). unfold bind.
  destruct (TypedField_type_ self w) as [[t|e] w2] eqn:Ht; [|done].
  pose proof (keeps_settings_type_ _ _ _ _ Ht) as H12.
  assert (Hrest :
    (let (o, s') := TypedField_check_type self v w2 in
     match o with
     | Return ok =>
         (if ok then ret v
          else
            fun s =>
              let (o0, s'0) := get_descriptor self s in
              match o0 with
              | Return f0 =>
                  (if TypedField.is_type_castable f0
                   then
                     fun s0 =>
                       let (o1, s'1) := TypedField_type_ self s0 in
                       match o1 with
                       | Return t1 => of_sum (call t1 v) s'1
                       | Raise e => (Raise e, s'1)
                       end
                   else
                     fun s0 =>
                       let (o1, s'1) := TypedField_type_ self s0 in
                       match o1 with
                       | Return t1 =>
                           (let (o2, s'2) := gets heap s'1 in
                            match o2 with
                            | Return h => raise (type_mismatch f0 t1 h v) s'2
                            | Raise e => (Raise e, s'2)
                            end)
                       | Raise e => (Raise e, s'1)
                       end) s'0
              | Raise e => (Raise e, s'0)
              end) s'
     | Raise e => (Raise e, s')
     end) = (Return c, w1) -> c = v).
  { destruct (TypedField_check_type self v w2) as [[ok|e] w3] eqn:Hck; [|done].
    destruct ok; [by intros [= <- _]|].
    pose proof (keeps_settings_check_type _ _ _ _ _ Hck) as H23.
    destruct (same_settings_lookup w w3 self f
                (same_settings_trans _ _ _ H12 H23) Hf) as (f3 & Hf3 & Hs3).
    apply settings_flags in Hs3 as (_ & _ & _ & _ & Hc3).
    unfold get_descriptor. rewrite Hf3, Hc3, Hc.
    by destruct (TypedField_type_ self w3) as [[t1|e1] w4]. }
  destruct t; try exact Hrest. by intros [= <- _].
Qed.

(** The normal set through a descriptor without hooks: it calls no
    hook, keeps the settings of the descriptors, and either raises and
    leaves the entities as they were, or stores the value it computed. *)
Lemma set_hook_free self instance f v st r st1 :
  descriptors (world st) !! self = Some f ->
  hook_free f ->
  TypedField___set__ self instance v st = (r, st1) ->
  same_settings (world st) (world st1)
  /\ (((exists e, r = Raise e)
       /\ entities (world st1) = entities (world st))
      \/ exists v' w1,
           value_to_store self v (world st) = (Return v', w1)
           /\ r = Return tt
           /\ world st1
              = set_fields instance
                  (<[self := v']> (fields_of w1 instance)) w1).
Proof.
  intros Hf [Hpre Hpost]. unfold TypedField___set__, bind, lift.
  destruct (value_to_store self v (world st)) as [[v'|e] w1] eqn:Hv; simpl.
  - pose proof (keeps_settings_value_to_store _ _ _ _ _ Hv) as Hs.
    destruct (same_settings_lookup _ _ _ _ Hs Hf) as (f1 & Hf1 & Hs1).
    apply settings_flags in Hs1 as (_ & _ & Hpre1 & Hpost1 & _).
    unfold get_descriptor. rewrite Hf1. simpl. rewrite Hpre1, Hpre. simpl.
    unfold modify. simpl. rewrite Hf1. simpl. rewrite Hpost1, Hpost. simpl.
    intros [= <- <-]. split; [exact Hs|]. right. by exists v', w1.
  - intros [= <- <-]. split; [by eapply keeps_settings_value_to_store|].
    left. split; [by eexists|]. by eapply keeps_value_to_store.
Qed.

(** What a single-valued Id or Idref descriptor that is not castable
    computes to store is the value assigned, and no list object is
    touched. *)
Lemma value_to_store_as_given self f v w c w1 :
  descriptors w !! self = Some f ->
  identifying f ->
  TypedField.multiple f = false ->
  TypedField.is_type_castable f = false ->
  value_to_store self v w = (Return c, w1) -> c = v /\ heap w1 = heap w.
Proof.
  intros Hf Hid Hm Hc Hrun. split.
  - revert Hrun. unfold value_to_store, bind, get_descriptor.
    rewrite Hf, Hm. unfold clean, bind, get_descriptor. rewrite Hf.
    destruct Hid as [-> | ->]; by apply (clean_as_given self f).
  - revert Hrun. unfold value_to_store, bind, get_descriptor.
    rewrite Hf, Hm. intros Hrun. by apply keeps_clean in Hrun as (_ & Hh & _).
Qed.

Lemma identifying_subclass f k :
  k = IdField \/ k = IdrefField ->
  field_subclass (TypedField.class_ f) k = true ->
  TypedField.class_ f = k /\ identifying f.
Proof.
  unfold field_subclass, identifying. intros Hk H.
  apply orb_true_iff in H as [H|H]; apply bool_decide_eq_true_1 in H.
  - by destruct Hk as [-> | ->].
  - split; [done|]. rewrite H. exact Hk.
Qed.

Lemma apart_exclusive w entity : apart w entity -> exclusive w entity.
Proof.
  intros Hap [Hid Href]. apply Hap.
  split; [destruct Hid as (x & f & v & Hx & Hk & Hv & Htr)
         |destruct Href as (x & f & v & Hx & Hk & Hv & Htr)];
    exists x, f, v; auto.
Qed.

(** When no list and no truthy value appears under an Id or Idref
    descriptor, the two kinds stay apart. *)
Lemma apart_kept w w' entity :
  same_settings w w' ->
  (forall x f v,
     descriptors w' !! x = Some f -> identifying f ->
     fields_of w' entity !! x = Some v ->
     is_sequence v = true \/ truthy (heap w') v = true ->
     fields_of w entity !! x = Some v) ->
  apart w entity -> apart w' entity.
Proof.
  intros Hs Hsame Hap [Hid Href]. apply Hap.
  assert (Hback : forall k, k = IdField \/ k = IdrefField ->
            may_hold w' entity k -> may_hold w entity k).
  { intros k Hk (x & f & v & Hx & Hsub & Hv & Htr).
    destruct (same_settings_lookup w' w x f (same_settings_sym _ _ Hs) Hx)
      as (f0 & Hf0 & Hs0).
    apply settings_flags in Hs0 as (Hcls & _).
    destruct (identifying_subclass f k Hk Hsub) as [_ Hident].
    pose proof (Hsame x f v Hx Hident Hv Htr) as Hv0.
    exists x, f0, v. split; [done|]. split; [by rewrite Hcls|].
    split; [done|]. destruct (is_sequence v) eqn:Hseq; [by left|].
    right. destruct Htr as [Htr|Htr]; [done|].
    rewrite <- Htr. by apply truthy_scalar. }
  split; apply Hback; auto.
Qed.

Lemma none_may_hold_after_unset w w2 entity k :
  same_but_fields entity w w2 ->
  fields_of w2 entity =
    filter (fun kv => instance_of_any w [k] kv.1 = false) (fields_of w entity) ->
  ~ may_hold w2 entity k.
Proof.
  intros (Hd & _) Hf (x & f & u & Hx & Hk & Hu & _).
  rewrite Hf in Hu. apply map_lookup_filter_Some in Hu as [_ Hinst].
  simpl in Hinst. unfold instance_of_any in Hinst. rewrite Hd in Hx.
  rewrite Hx in Hinst. simpl in Hinst. by rewrite Hk in Hinst.
Qed.

(** The normal set keeps the two kinds apart, unless it stores a list or
    a truthy value for an Id or Idref descriptor. *)
Lemma normal_set_step entity self f v st r st1 :
  descriptors (world st) !! self = Some f ->
  hook_free f ->
  (identifying f ->
   TypedField.multiple f = false /\ TypedField.is_type_castable f = false) ->
  TypedField___set__ self entity v st = (r, st1) ->
  (identifying f -> r = Return tt ->
   is_sequence v = false /\ truthy (heap (world st1)) v = false) ->
  apart (world st) entity -> apart (world st1) entity.
Proof.
  intros Hf Hfree Hgiven Hset Hfalsy.
  destruct (set_hook_free self entity f v st r st1 Hf Hfree Hset)
    as [Hs [[[e ->] Hent]|(v' & w1 & Hv & -> & Hw)]].
  - assert (Hflds : fields_of (world st1) entity = fields_of (world st) entity).
    { unfold fields_of. by rewrite Hent. }
    apply apart_kept; [done|].
    intros x g u _ _ Hu _. by rewrite <- Hflds.
  - assert (Hflds : fields_of (world st1) entity
                    = <[self := v']> (fields_of (world st) entity)).
    { rewrite Hw, fields_of_set_fields. unfold fields_of.
      by rewrite (keeps_value_to_store _ _ _ _ _ Hv). }
    apply apart_kept; [done|].
    intros x g u Hg Hident Hu Htr. rewrite Hflds in Hu.
    destruct (decide (x = self)) as [->|Hne];
      [|by rewrite lookup_insert_ne in Hu].
    rewrite lookup_insert_eq in Hu. injection Hu as <-. exfalso.
    destruct (same_settings_lookup _ _ _ _ Hs Hf) as (g' & Hg' & Hsg).
    rewrite Hg in Hg'. injection Hg' as <-.
    apply settings_flags in Hsg as (Hcls & _).
    assert (Hf_ident : identifying f).
    { unfold identifying in *. by rewrite <- Hcls. }
    destruct (Hgiven Hf_ident) as [Hm Hc].
    destruct (value_to_store_as_given self f v (world st) v' w1 Hf
                Hf_ident Hm Hc Hv) as [-> _].
    destruct (Hfalsy Hf_ident eq_refl) as [Hseq Hfalse].
    destruct Htr as [Htr|Htr]; congruence.
Qed.

(** The set of an Id descriptor ([k] is the Idref class) or of an Idref
    descriptor ([k] is the Id class) keeps the two kinds apart. *)
Lemma cross_set_step entity self f v st r st' k (set_ : M State unit) :
  (set_ = (TypedField___set__ self entity v >>
           let* h := gets (fun st => heap (world st)) in
           if truthy h v then lift (unset entity [k]) else ret tt)) ->
  k = IdField \/ k = IdrefField ->
  descriptors (world st) !! self = Some f ->
  hook_free f ->
  identifying f ->
  stored_as_given (heap (world st)) f v ->
  set_ st = (r, st') ->
  apart (world st) entity -> apart (world st') entity.
Proof.
  intros -> Hk Hf Hfree Hident (Hm & Hc & Hlist) Hrun Hap.
  unfold bind in Hrun.
  destruct (TypedField___set__ self entity v st) as [[[]|e] st1] eqn:Hset.
  - unfold gets in Hrun.
    destruct (truthy (heap (world st1)) v) eqn:Htr.
    + unfold lift in Hrun.
      destruct (unset_kinds entity [k] (world st1)) as (w2 & Hun & Hsb & Hflt);
        [done|].
      rewrite Hun in Hrun. injection Hrun as <- <-. simpl.
      intros [Hid Href].
      destruct Hk as [-> | ->];
        by eapply (none_may_hold_after_unset _ _ _ _ Hsb Hflt).
    + injection Hrun as <- <-.
      apply (normal_set_step entity self f v st (Return tt) st1);
        try done.
      intros _ _. split; [|done].
      destruct (set_hook_free self entity f v st _ st1 Hf Hfree Hset)
        as [_ [[[e [=]] _]|(v' & w1 & Hv & _ & Hw)]].
      destruct (value_to_store_as_given self f v (world st) v' w1 Hf
                  Hident Hm Hc Hv) as [_ Hheap].
      destruct (is_sequence v) eqn:Hseq; [|done].
      rewrite Hw in Htr. simpl in Htr. rewrite Hheap in Htr.
      rewrite (Hlist eq_refl) in Htr. done.
  - injection Hrun as <- <-.
    apply (normal_set_step entity self f v st (Raise e) st1); try done.
Qed.

Lemma setattr_step entity self f v st r st' :
  descriptors (world st) !! self = Some f ->
  hook_free f ->
  (identifying f -> stored_as_given (heap (world st)) f v) ->
  setattr self entity v st = (r, st') ->
  apart (world st) entity -> apart (world st') entity.
Proof.
  intros Hf Hfree Hgiven Hrun Hap.
  unfold setattr, bind, lift, get_descriptor in Hrun. rewrite Hf in Hrun.
  simpl in Hrun.
  replace (mkState (world st) (hook_calls st)) with st in Hrun
    by by destruct st.
  assert (Hnormal : ~ identifying f ->
            TypedField___set__ self entity v st = (r, st') ->
            apart (world st') entity).
  { intros Hnot Hset.
    by apply (normal_set_step entity self f v st r st'). }
  destruct (TypedField.class_ f) eqn:Hcls;
    try (apply Hnormal; [|done]; unfold identifying; rewrite Hcls;
         by intros [|]).
  - assert (Hident : identifying f) by (by left).
    by apply (cross_set_step entity self f v st r st' IdrefField
                (IdField___set__ self entity v)); auto.
  - assert (Hident : identifying f) by (by right).
    by apply (cross_set_step entity self f v st r st' IdField
                (IdrefField___set__ self entity v)); auto.
Qed.

Lemma assigned_apart entity st : assigned entity st -> apart (world st) entity.
Proof.
  induction 1 as [st Hempty
                 | st self f v r st' Hprev IH Hf Hfree Hgiven Hset
                 | st h n Hprev IH].
  - intros [(x & f & u & _ & _ & Hu & _) _]. by rewrite Hempty in Hu.
  - by apply (setattr_step entity self f v st r st').
  - apply (apart_kept (world st)); [done| |done].
    by intros x f u _ _ Hu _.
Qed.

(** C1 (as amended): when the normal set succeeds, setting an Id field
    to a truthy value then removes exactly the stored Idref entries, and
    setting an Idref field to a truthy value removes exactly the stored
    Id entries; with a falsy value either one is the normal set alone.
    The truth value tested is that of the value assigned.  An entity
    that starts with an empty field storage and is changed only by
    assignments through descriptors without hooks, the Id and Idref
    descriptors assigned being single-valued and not castable and never
    assigned an empty list, never holds both a truthy Id value and a
    truthy Idref value, whether the assignments return or raise and
    whatever happens to the list objects in between. *)
Theorem id_idref_exclusion (self instance : positive) (v : value)
    (st st1 : State) :
  TypedField___set__ self instance v st = (Return tt, st1) ->
  (truthy (heap (world st1)) v = true ->
     exists w2,
       IdField___set__ self instance v st
         = (Return tt, mkState w2 (hook_calls st1))
       /\ same_but_fields instance (world st1) w2
       /\ fields_of w2 instance =
            filter (fun kv =>
                      instance_of_any (world st1) [IdrefField] kv.1 = false)
                   (fields_of (world st1) instance))
  /\ (truthy (heap (world st1)) v = true ->
     exists w2,
       IdrefField___set__ self instance v st
         = (Return tt, mkState w2 (hook_calls st1))
       /\ same_but_fields instance (world st1) w2
       /\ fields_of w2 instance =
            filter (fun kv =>
                      instance_of_any (world st1) [IdField] kv.1 = false)
                   (fields_of (world st1) instance))
  /\ (truthy (heap (world st1)) v = false ->
     IdField___set__ self instance v st = (Return tt, st1)
     /\ IdrefField___set__ self instance v st = (Return tt, st1))
  /\ (forall st', assigned instance st' -> exclusive (world st') instance).
Proof.
  intros Hset.
  destruct (set_then_unset self instance v st st1 IdrefField
              (IdField___set__ self instance v) eq_refl Hset) as [Hid Hid'].
  destruct (set_then_unset self instance v st st1 IdField
              (IdrefField___set__ self instance v) eq_refl Hset)
    as [Href Href'].
  split; [done|]. split; [done|]. split; [by split; auto|].
  intros st' Hassigned. by apply apart_exclusive, assigned_apart.
Qed.

(** ** Further properties: reading and assigning a field *)

Lemma hook_effect_none instance v w :
  hook_effect None instance v w = (Return tt, w).
Proof. done. Qed.

(** X13: an assignment through a descriptor without hooks is read back:
    after [__set__] has stored the value [v'] it computed, [__get__]
    returns [v'] and changes nothing; the assignment calls no hook and
    leaves the other fields of the instance and the other entities as
    they were. *)
Theorem set_then_get (self instance : positive) (v v' : value) (st : State)
    (w1 : World) (f1 : TypedField.t) :
  value_to_store self v (world st) = (Return v', w1) ->
  descriptors w1 !! self = Some f1 ->
  TypedField.preset_hook f1 = None ->
  TypedField.postset_hook f1 = None ->
  exists st',
    TypedField___set__ self instance v st = (Return tt, st')
    /\ TypedField___get__ self (Some instance) (world st')
       = (Return (GotValue v'), world st')
    /\ hook_calls st' = hook_calls st
    /\ (forall x, x <> self ->
          fields_of (world st') instance !! x
          = fields_of (world st) instance !! x)
    /\ (forall j, j <> instance ->
          entities (world st') !! j = entities (world st) !! j).
Proof.
  intros Hv Hf1 Hpre Hpost.
  pose proof (keeps_value_to_store self v _ _ _ Hv) as Hent.
  unfold same_entities in Hent.
  set (w4 := set_fields instance (<[self := v']> (fields_of w1 instance)) w1).
  exists (mkState w4 (hook_calls st)).
  split; [|split; [|split; [|split]]].
  - rewrite (set_run self instance v st v' w1 f1 w1 f1 w4 Hv Hf1);
      try done.
    + rewrite Hpre, Hpost. simpl. by rewrite app_nil_r.
    + by rewrite Hpre.
    + by rewrite Hpost.
  - simpl. apply get_stored. unfold w4.
    by rewrite fields_of_set_fields, lookup_insert_eq.
  - done.
  - intros x Hx. simpl. unfold w4.
    rewrite fields_of_set_fields, lookup_insert_ne by done.
    unfold fields_of. by rewrite Hent.
  - intros j Hj. simpl. by rewrite lookup_insert_ne, Hent.
Qed.

(** X14: an assignment that fails stores nothing of its own.  When the
    value is rejected, no hook is called and every entity is as before;
    when the preset hook raises, the postset hook is not called and
    [__set__] returns the store the hook left; when the postset hook
    raises, the value has already been stored and stays stored. *)
Theorem failed_assignment (self instance : positive) (v : value) (st : State)
    (e : exn) :
  (forall w1,
     value_to_store self v (world st) = (Raise e, w1) ->
     TypedField___set__ self instance v st
       = (Raise e, mkState w1 (hook_calls st))
     /\ entities w1 = entities (world st))
  /\ (forall v' w1 f1 hp w2,
        value_to_store self v (world st) = (Return v', w1) ->
        descriptors w1 !! self = Some f1 ->
        TypedField.preset_hook f1 = Some hp ->
        call_hook hp instance v' w1 = (Raise e, w2) ->
        TypedField___set__ self instance v st
          = (Raise e,
             mkState w2 (hook_calls st ++ [mkHookCall hp instance v'])))
  /\ (forall v' w1 f1 w2 f2 hq w4,
        value_to_store self v (world st) = (Return v', w1) ->
        descriptors w1 !! self = Some f1 ->
        hook_effect (TypedField.preset_hook f1) instance v' w1
          = (Return tt, w2) ->
        descriptors w2 !! self = Some f2 ->
        TypedField.postset_hook f2 = Some hq ->
        call_hook hq instance v'
          (set_fields instance (<[self := v']> (fields_of w2 instance)) w2)
          = (Raise e, w4) ->
        TypedField___set__ self instance v st
          = (Raise e,
             mkState w4
               (hook_calls st
                ++ hook_trace (TypedField.preset_hook f1) instance v'
                ++ [mkHookCall hq instance v']))
        /\ fields_of
             (set_fields instance (<[self := v']> (fields_of w2 instance)) w2)
             instance !! self = Some v').
Proof.
  split; [|split].
  - intros w1 Hv. split.
    + unfold TypedField___set__, bind, lift. by rewrite Hv.
    + by apply (keeps_value_to_store self v _ _ _ Hv).
  - intros v' w1 f1 hp w2 Hv Hf1 Hpre Hcall.
    unfold TypedField___set__, bind, lift. rewrite Hv. simpl.
    unfold get_descriptor. rewrite Hf1. rewrite run_hook_run. simpl.
    rewrite Hpre. simpl. by rewrite Hcall.
  - intros v' w1 f1 w2 f2 hq w4 Hv Hf1 Hpre Hf2 Hpost Hcall. split.
    + unfold TypedField___set__, bind, lift. rewrite Hv. simpl.
      unfold get_descriptor. rewrite Hf1. rewrite run_hook_run. simpl.
      rewrite Hpre. simpl. unfold modify. simpl. rewrite Hf2.
      rewrite run_hook_run. simpl. rewrite Hpost. simpl. rewrite Hcall.
      by rewrite app_assoc.
    + by rewrite fields_of_set_fields, lookup_insert_eq.
Qed.

(** X15: [__get__] without an instance returns the descriptor; with an
    instance it returns the stored value when there is one; for an unset
    single-valued field it returns null and stores nothing; for an unset
    multiple-valued field it allocates an empty plain list, stores the
    reference under the descriptor and returns it, so that the next read
    returns the same reference and changes nothing. *)
Theorem get_behaviour (self instance : positive) (f : TypedField.t)
    (w : World) :
  descriptors w !! self = Some f ->
  TypedField___get__ self None w = (Return (GotDescriptor self), w)
  /\ (forall v, fields_of w instance !! self = Some v ->
        TypedField___get__ self (Some instance) w = (Return (GotValue v), w))
  /\ (fields_of w instance !! self = None ->
      TypedField.multiple f = false ->
      TypedField___get__ self (Some instance) w = (Return (GotValue VNone), w))
  /\ (fields_of w instance !! self = None ->
      TypedField.multiple f = true ->
      exists w1,
        TypedField___get__ self (Some instance) w
          = (Return (GotValue (VRef (next_addr w))), w1)
        /\ fields_of w1 instance !! self = Some (VRef (next_addr w))
        /\ heap w1 !! next_addr w = Some (PyList [])
        /\ TypedField___get__ self (Some instance) w1
           = (Return (GotValue (VRef (next_addr w))), w1)).
Proof.
  intros Hf. split; [done|]. split; [|split].
  - intros v Hv. by apply get_stored.
  - intros Hnone Hm. by apply (get_single_unset self instance f).
  - intros Hnone Hm. by apply (get_multiple_unset self instance f).
Qed.


(** ** Further properties: unset, IdField and IdrefField *)

Lemma lookup_filter_not P (m : gmap positive value) x :
  filter (fun kv : positive * value => P kv.1 = false) m !! x
  = if P x then None else m !! x.
Proof.
  apply option_eq. intros v. rewrite map_lookup_filter_Some. simpl.
  destruct (P x); split; intros H; try done; by destruct H.
Qed.

(** X16: with at least one class given, [unset] returns normally; it
    removes the entries whose descriptor is an instance of one of the
    classes and keeps every other entry with its value, and changes
    nothing else in the store; a second [unset] with the same classes
    removes nothing more; and [unset(entity, TypedField)] leaves no entry
    whose key is a descriptor. *)
Theorem unset_removes_the_kinds (entity : positive)
    (types : list FieldClass) (w : World) :
  types <> [] ->
  exists w',
    unset entity types w = (Return tt, w')
    /\ same_but_fields entity w w'
    /\ (forall x,
          fields_of w' entity !! x
          = if instance_of_any w types x then None
            else fields_of w entity !! x)
    /\ (exists w'',
          unset entity types w' = (Return tt, w'')
          /\ fields_of w'' entity = fields_of w' entity)
    /\ (types = [TypedFieldClass] ->
        forall x, is_Some (descriptors w !! x) ->
          fields_of w' entity !! x = None).
Proof.
  intros Hne.
  destruct (unset_kinds entity types w Hne) as (w' & Hrun & Hsame & Hf).
  exists w'. split; [done|]. split; [done|].
  assert (Hlook : forall x,
            fields_of w' entity !! x
            = if instance_of_any w types x then None
              else fields_of w entity !! x).
  { intros x. rewrite Hf. apply lookup_filter_not. }
  split; [done|]. split.
  - destruct (unset_kinds entity types w' Hne) as (w'' & Hrun' & _ & Hf').
    exists w''. split; [done|]. rewrite Hf'. apply map_eq. intros x.
    rewrite lookup_filter_not.
    assert (Hinst : instance_of_any w' types x = instance_of_any w types x).
    { unfold instance_of_any. destruct Hsame as (-> & _). done. }
    rewrite Hinst, Hlook. by destruct (instance_of_any w types x).
  - intros -> x [f Hx]. rewrite Hlook. unfold instance_of_any.
    by rewrite Hx.
Qed.

Lemma read_back_after_cross_removal self instance v st st1 k f v'
    (set_ : M State unit) :
  (set_ = (TypedField___set__ self instance v >>
           let* h := gets (fun st => heap (world st)) in
           if truthy h v then lift (unset instance [k]) else ret tt)) ->
  k <> TypedFieldClass ->
  TypedField___set__ self instance v st = (Return tt, st1) ->
  truthy (heap (world st1)) v = true ->
  descriptors (world st1) !! self = Some f ->
  TypedField.class_ f <> k ->
  fields_of (world st1) instance !! self = Some v' ->
  exists st2,
    set_ st = (Return tt, st2)
    /\ TypedField___get__ self (Some instance) (world st2)
       = (Return (GotValue v'), world st2)
    /\ (forall g fg,
          descriptors (world st1) !! g = Some fg ->
          TypedField.class_ fg = k ->
          fields_of (world st2) instance !! g = None
          /\ (TypedField.multiple fg = false ->
              TypedField___get__ g (Some instance) (world st2)
              = (Return (GotValue VNone), world st2)))
    /\ (forall g fg,
          descriptors (world st1) !! g = Some fg ->
          TypedField.class_ fg <> k ->
          fields_of (world st2) instance !! g
          = fields_of (world st1) instance !! g).
Proof.
  intros Hdef Hk Hset Htr Hf Hcls Hstored.
  destruct (set_then_unset self instance v st st1 k set_ Hdef Hset)
    as [Htrue _].
  destruct (Htrue Htr) as (w2 & Hrun & Hsame & Hflds).
  exists (mkState w2 (hook_calls st1)). split; [done|]. simpl.
  assert (Hinst : forall g fg, descriptors (world st1) !! g = Some fg ->
            instance_of_any (world st1) [k] g
            = bool_decide (TypedField.class_ fg = k)).
  { intros g fg Hg. unfold instance_of_any. rewrite Hg. simpl.
    unfold field_subclass. rewrite orb_false_r.
    by rewrite (bool_decide_eq_false_2 (k = TypedFieldClass)). }
  assert (Hlook : forall g fg, descriptors (world st1) !! g = Some fg ->
            fields_of w2 instance !! g
            = if bool_decide (TypedField.class_ fg = k) then None
              else fields_of (world st1) instance !! g).
  { intros g fg Hg. rewrite Hflds, lookup_filter_not.
    by rewrite (Hinst g fg Hg). }
  split; [|split].
  - apply get_stored. rewrite (Hlook self f Hf).
    by rewrite (bool_decide_eq_false_2 _ Hcls).
  - intros g fg Hg Hgk.
    assert (Hnone : fields_of w2 instance !! g = None).
    { rewrite (Hlook g fg Hg). by rewrite (bool_decide_eq_true_2 _ Hgk). }
    split; [done|]. intros Hm.
    apply (get_single_unset g instance fg); [|done|done].
    destruct Hsame as (-> & _). done.
  - intros g fg Hg Hgk. rewrite (Hlook g fg Hg).
    by rewrite (bool_decide_eq_false_2 _ Hgk).
Qed.

(** X17: after an Id field has been set to a truthy value, reading it
    returns the value stored, every Idref descriptor has no entry (and
    reads as null when single-valued), and the entries of all other
    descriptors are untouched; and the same with Id and Idref
    exchanged. *)
Theorem id_set_read_back (self instance : positive) (v v' : value)
    (st st1 : State) (f : TypedField.t) :
  TypedField___set__ self instance v st = (Return tt, st1) ->
  truthy (heap (world st1)) v = true ->
  descriptors (world st1) !! self = Some f ->
  fields_of (world st1) instance !! self = Some v' ->
  (TypedField.class_ f = IdField ->
   exists st2,
     IdField___set__ self instance v st = (Return tt, st2)
     /\ TypedField___get__ self (Some instance) (world st2)
        = (Return (GotValue v'), world st2)
     /\ (forall g fg,
           descriptors (world st1) !! g = Some fg ->
           TypedField.class_ fg = IdrefField ->
           fields_of (world st2) instance !! g = None
           /\ (TypedField.multiple fg = false ->
               TypedField___get__ g (Some instance) (world st2)
               = (Return (GotValue VNone), world st2)))
     /\ (forall g fg,
           descriptors (world st1) !! g = Some fg ->
           TypedField.class_ fg <> IdrefField ->
           fields_of (world st2) instance !! g
           = fields_of (world st1) instance !! g))
  /\ (TypedField.class_ f = IdrefField ->
      exists st2,
        IdrefField___set__ self instance v st = (Return tt, st2)
        /\ TypedField___get__ self (Some instance) (world st2)
           = (Return (GotValue v'), world st2)
        /\ (forall g fg,
              descriptors (world st1) !! g = Some fg ->
              TypedField.class_ fg = IdField ->
              fields_of (world st2) instance !! g = None
              /\ (TypedField.multiple fg = false ->
                  TypedField___get__ g (Some instance) (world st2)
                  = (Return (GotValue VNone), world st2)))
        /\ (forall g fg,
              descriptors (world st1) !! g = Some fg ->
              TypedField.class_ fg <> IdField ->
              fields_of (world st2) instance !! g
              = fields_of (world st1) instance !! g)).
Proof.
  intros Hset Htr Hf Hstored. split; intros Hcls.
  - apply (read_back_after_cross_removal self instance v st st1 IdrefField
             f v' (IdField___set__ self instance v)); try done.
    by rewrite Hcls.
  - apply (read_back_after_cross_removal self instance v st st1 IdField
             f v' (IdrefField___set__ self instance v)); try done.
    by rewrite Hcls.
Qed.


(** ** Further properties: the typed subclasses *)

Lemma of_sum_outcome {A} (x : exn + A) (w : World) :
  of_sum x w = (outcome x, w).
Proof. by destruct x. Qed.

(** X18: the clean step of a typed subclass never reads the declared
    type: whatever the reference, it resolves nothing and leaves the
    store unchanged.  For the Integer, Long and Float fields null and
    the empty string give null without any conversion, while every other
    value, zero included, is converted: a non-empty string by the
    base-detecting parser for Integer and Long, anything else by the
    plain conversion. *)
Theorem subclass_clean_ignores_type (self : positive) (f : TypedField.t)
    (w : World) :
  descriptors w !! self = Some f ->
  TypedField.class_ f <> TypedFieldClass ->
  TypedField.class_ f <> IdField ->
  TypedField.class_ f <> IdrefField ->
  (forall v r w1, clean self v w = (r, w1) -> w1 = w)
  /\ (TypedField.class_ f = IntegerField \/ TypedField.class_ f = LongField
      \/ TypedField.class_ f = FloatField ->
      clean self VNone w = (Return VNone, w)
      /\ clean self (VStr "") w = (Return VNone, w))
  /\ (TypedField.class_ f = IntegerField ->
      (forall s, s <> "" ->
         clean self (VStr s) w = (outcome (int_base0 s), w))
      /\ (forall n, clean self (VInt n) w = (outcome (py_int (VInt n)), w)))
  /\ (TypedField.class_ f = LongField ->
      (forall s, s <> "" ->
         clean self (VStr s) w = (outcome (long_base0 s), w))
      /\ (forall n, clean self (VInt n) w = (outcome (py_long (VInt n)), w)))
  /\ (TypedField.class_ f = FloatField ->
      (forall s, s <> "" ->
         clean self (VStr s) w = (outcome (py_float (VStr s)), w))
      /\ (forall n, clean self (VInt n) w = (outcome (py_float (VInt n)), w))).
Proof.
  intros Hf H1 H2 H3.
  assert (Hempty : forall h s, s <> "" ->
            is_none_or_empty h (VStr s) = inr false).
  { intros h s Hs. unfold is_none_or_empty, py_eq. simpl. f_equal.
    apply bool_decide_eq_false_2. congruence. }
  split; [|split; [|split; [|split]]].
  - intros v r w1. by apply (subclass_clean_pure self f).
  - intros Hc. unfold clean, bind, get_descriptor. rewrite Hf.
    by destruct Hc as [-> | [-> | ->]].
  - intros Hc. unfold clean, bind, get_descriptor, gets. rewrite Hf, Hc.
    split.
    + intros s Hs. rewrite of_sum_outcome. unfold IntegerField__clean.
      by rewrite (Hempty _ s Hs).
    + intros n. by rewrite of_sum_outcome.
  - intros Hc. unfold clean, bind, get_descriptor, gets. rewrite Hf, Hc.
    split.
    + intros s Hs. rewrite of_sum_outcome. unfold LongField__clean.
      by rewrite (Hempty _ s Hs).
    + intros n. by rewrite of_sum_outcome.
  - intros Hc. unfold clean, bind, get_descriptor, gets. rewrite Hf, Hc.
    split.
    + intros s Hs. rewrite of_sum_outcome. unfold FloatField__clean.
      by rewrite (Hempty _ s Hs).
    + intros n. by rewrite of_sum_outcome.
Qed.

(** X19: assigning any value, null included, to a single-valued Boolean
    field without hooks succeeds and stores the truth value of the
    assigned value, which is then what [__get__] returns: such a field
    never holds null once assigned. *)
Theorem boolean_field_stores_a_bool (self instance : positive) (v : value)
    (st : State) (f : TypedField.t) :
  descriptors (world st) !! self = Some f ->
  TypedField.class_ f = BooleanField ->
  TypedField.multiple f = false ->
  TypedField.preset_hook f = None ->
  TypedField.postset_hook f = None ->
  exists st',
    TypedField___set__ self instance v st = (Return tt, st')
    /\ fields_of (world st') instance !! self
       = Some (VBool (truthy (heap (world st)) v))
    /\ TypedField___get__ self (Some instance) (world st')
       = (Return (GotValue (VBool (truthy (heap (world st)) v))), world st')
    /\ heap (world st') = heap (world st).
Proof.
  intros Hf Hc Hm Hpre Hpost.
  set (b := VBool (truthy (heap (world st)) v)).
  assert (Hv : value_to_store self v (world st) = (Return b, world st)).
  { unfold value_to_store, bind, get_descriptor. rewrite Hf, Hm.
    unfold clean, bind, get_descriptor. by rewrite Hf, Hc. }
  set (w4 := set_fields instance
               (<[self := b]> (fields_of (world st) instance)) (world st)).
  exists (mkState w4 (hook_calls st)).
  assert (Hstored : fields_of w4 instance !! self = Some b).
  { unfold w4. by rewrite fields_of_set_fields, lookup_insert_eq. }
  split; [|split; [done|split; [by apply get_stored|done]]].
  rewrite (set_run self instance v st b (world st) f (world st) f w4 Hv Hf);
    try done.
  - rewrite Hpre, Hpost. simpl. by rewrite app_nil_r.
  - by rewrite Hpre.
  - by rewrite Hpost.
Qed.

(** ** Further properties: find *)

Lemma keeps_getattr_field self key :
  keeps same_objects (getattr_field self key).
Proof. unfold getattr_field. keeps_auto. Qed.

Lemma keeps_hasattr_field self key :
  keeps same_objects (hasattr_field self key).
Proof.
  intros w r w1. unfold hasattr_field.
  destruct (getattr_field self key w) as [[a|e] w'] eqn:Hrun;
    apply keeps_getattr_field in Hrun.
  - by intros [= _ <-].
  - destruct (String.eqb _ _); by intros [= _ <-].
Qed.
#[local] Hint Resolve keeps_getattr_field keeps_hasattr_field : keeps.

Lemma keeps_matches self params : keeps same_objects (_matches self params).
Proof.
  induction params as [|[key v] params IH]; simpl; [keeps_step|].
  keeps_auto.
Qed.
#[local] Hint Resolve keeps_matches : keeps.

Lemma keeps_matching params declared :
  keeps same_objects (matching params declared).
Proof.
  induction declared as [|x declared IH]; simpl; [keeps_step|]. keeps_auto.
Qed.

Lemma matching_sublist params declared : forall w l w1,
  matching params declared w = (Return l, w1) -> sublist l declared.
Proof.
  induction declared as [|x declared IH]; intros w l w1; simpl.
  - intros [= <- _]. constructor.
  - unfold bind.
    destruct (_matches x params w) as [[ok|e] w'] eqn:Hok; [|done].
    destruct (matching params declared w') as [[xs|e] w''] eqn:Hrest;
      [|done].
    unfold ret. intros [= <- _]. apply IH in Hrest.
    destruct ok; by constructor.
Qed.

(** X20: [find] never changes an entity or a list object, whether it
    returns or raises: at most it resolves class references.  What it
    returns is a sub-list of the descriptors the entity declares, in
    their order; and with no criterion it returns them all, leaving the
    store unchanged. *)
Theorem find_returns_declared_fields (entity : positive) (w : World)
    (kwargs : list (string * value)) :
  (forall r w1, find entity kwargs w = (r, w1) ->
     same_objects w w1
     /\ forall l, r = Return l -> sublist l (declared_fields w entity))
  /\ find entity [] w = (Return (declared_fields w entity), w).
Proof.
  unfold declared_fields. split.
  - intros r w1. unfold find, bind, gets.
    destruct (typed_fields (entities w !!! entity)) as [declared|].
    + intros Hrun. split; [by eapply keeps_matching|].
      intros l ->. by eapply matching_sublist.
    + intros [= <- <-]. split; [apply same_objects_refl|].
      intros l [= <-]. constructor.
  - unfold find, bind, gets.
    destruct (typed_fields (entities w !!! entity)) as [declared|]; [|done].
    simpl. induction declared as [|x declared IH]; [done|].
    simpl. unfold bind. simpl. by rewrite IH.
Qed.

(** X21: the criterion [key_name] is compared with the override given
    to the constructor, not with the key name the descriptor reports: a
    descriptor without an override never matches it, although its key
    name is its lower-cased name; a descriptor with a string override
    matches exactly when the override is the string sought. *)
Theorem find_by_key_name_uses_override (x : positive) (f : TypedField.t)
    (w : World) (s : string) :
  descriptors w !! x = Some f ->
  (TypedField._key_name f = VNone ->
     _matches x (remap_params [("key_name", VStr s)]) w = (Return false, w)
     /\ TypedField_key_name x w
        = (Return (VStr (lower (TypedField.name f))), w))
  /\ (forall k, TypedField._key_name f = VStr k ->
        _matches x (remap_params [("key_name", VStr s)]) w
        = (Return (String.eqb k s), w)).
Proof.
  intros Hf.
  assert (Hrun : forall b,
            attr_ne (heap w) (AttrValue (TypedField._key_name f)) (VStr s)
            = inr b ->
            _matches x (remap_params [("key_name", VStr s)]) w
            = (Return (negb b), w)).
  { intros b Hb.
    change (remap_params [("key_name", VStr s)])
      with ((fun c : Keyword * value =>
               (kwargmap_get (keyword_name c.1), c.2))
              <$> [(kw_key_name, VStr s)]).
    rewrite (matches_criteria x f [(kw_key_name, VStr s)] w Hf).
    - unfold meets, equals. simpl. rewrite Hb. by destruct b.
    - intros Hin. apply list_elem_of_singleton in Hin. done.
    - intros c Hc. apply list_elem_of_singleton in Hc as ->. by exists b. }
  split.
  - intros Hk. split; [apply (Hrun true); by rewrite Hk|].
    unfold TypedField_key_name, bind, get_descriptor, gets.
    by rewrite Hf, Hk.
  - intros k Hk. rewrite (Hrun (negb (String.eqb k s))).
    + by rewrite negb_involutive.
    + rewrite Hk. unfold attr_ne, py_eq. simpl. f_equal. f_equal.
      destruct (String.eqb_spec k s) as [->|Hne].
      * by apply bool_decide_eq_true_2.
      * apply bool_decide_eq_false_2. congruence.
Qed.


(** ** Further properties: assignment to a multiple-valued field *)

Lemma allocates_alloc o : allocates (alloc o).
Proof.
  intros w v' w' [= <- <-]. repeat split; try done. by exists o.
Qed.

Lemma allocates_bind {A} (m : M World A) (k : A -> M World value) :
  keeps same_objects m -> (forall a, allocates (k a)) ->
  allocates (bind m k).
Proof.
  intros Hm Hk w v' w'. unfold bind.
  destruct (m w) as [[a|e] w1] eqn:Hrun; [|done].
  intros Hrest. apply Hm in Hrun as (He & Hh & Hn).
  apply Hk in Hrest as (-> & Hn' & [o Ho] & He').
  unfold fresh_object. rewrite <- Hn, <- Hh, <- He.
  repeat split; try done. by exists o.
Qed.

Lemma keeps_list_cleaned_objects self xs :
  keeps same_objects (list_cleaned self xs).
Proof.
  induction xs as [|x xs IH]; simpl; [keeps_step|].
  destruct x; try done; keeps_auto.
Qed.

Lemma keeps_extend_cleaned_objects self xs :
  forall tl, keeps same_objects (extend_cleaned self tl xs).
Proof.
  induction xs as [|x xs IH]; intros tl; simpl; [keeps_step|].
  destruct x; try done; keeps_auto.
Qed.

Lemma keeps_iterate_objects v : keeps same_objects (iterate v).
Proof.
  intros w r w1. unfold iterate.
  destruct v; try (intros [= <- <-]; apply same_objects_refl).
  destruct (heap w !! a); intros [= <- <-]; apply same_objects_refl.
Qed.

Lemma allocates_listclass_of_list lc l b :
  allocates (listclass_of_list lc l b).
Proof.
  unfold listclass_of_list. destruct lc; [apply allocates_alloc|].
  apply allocates_bind; [keeps_step|]. intros h.
  apply allocates_bind; [keeps_step|]. intros tl. apply allocates_alloc.
Qed.

Lemma allocates_listclass_of_generator self lc xs :
  allocates (listclass_of_generator self lc xs).
Proof.
  unfold listclass_of_generator. destruct lc.
  - apply allocates_bind; [apply keeps_list_cleaned_objects|].
    intros cs. apply allocates_alloc.
  - apply allocates_bind; [apply keeps_extend_cleaned_objects|].
    intros tl. apply allocates_alloc.
Qed.

(** The value computed for a multiple-valued field of list class [lc]. *)
Lemma allocates_multiple_value self lc v :
  allocates
    (match v with
     | VNone => listclass_of_list lc [] false
     | _ =>
         if negb (is_sequence v)
         then let* c := clean self v in listclass_of_list lc [c] true
         else let* xs := iterate v in listclass_of_generator self lc xs
     end).
Proof.
  destruct v; try apply allocates_listclass_of_list; simpl;
    try (apply allocates_bind; [apply keeps_clean|];
         intros ?; apply allocates_listclass_of_list).
  apply allocates_bind; [apply keeps_iterate_objects|].
  intros ?. apply allocates_listclass_of_generator.
Qed.

(** X22: whatever is assigned to a multiple-valued field, the value
    stored is a reference to a list object created by the assignment:
    the object takes the next free address, no existing list object, the
    assigned sequence included, is changed, and no entity is changed by
    the computation of the value. *)
Theorem multiple_assignment_stores_fresh_object (self : positive)
    (f : TypedField.t) (v v' : value) (w w' : World) :
  descriptors w !! self = Some f ->
  TypedField.multiple f = true ->
  value_to_store self v w = (Return v', w') ->
  v' = VRef (next_addr w)
  /\ next_addr w' = Pos.succ (next_addr w)
  /\ (forall a, a <> next_addr w -> heap w' !! a = heap w !! a)
  /\ is_Some (heap w' !! next_addr w)
  /\ entities w' = entities w.
Proof.
  intros Hf Hm Hrun.
  unfold value_to_store, bind at 1, get_descriptor in Hrun.
  rewrite Hf, Hm in Hrun.
  apply allocates_multiple_value in Hrun as (-> & Hn & [o Ho] & He).
  split; [done|]. split; [done|]. split; [|split; [|done]].
  - intros a Ha. by rewrite Ho, lookup_insert_ne.
  - rewrite Ho, lookup_insert_eq. by eexists.
Qed.

(** X23: a multiple-valued field declared with a non-empty string as its
    type cannot be assigned a truthy element: when the clean step
    returns a truthy value for an input that is not a sequence, the
    typed list raises the [TypeError] of [isinstance], and [__set__]
    raises it without calling a hook or changing an entity; assigning
    null still stores an empty typed list. *)
Theorem deferred_multiple_field_rejects_elements
    (h0 : gmap positive HeapObj) (cls : FieldClass) (name s : string)
    (key_name : value) (comparable : bool) (pre post : option positive)
    (factory : value) (self instance : positive) (v c : value) (st : State)
    (w1 : World) :
  let f := TypedField___init__ h0 cls name (VStr s) key_name comparable
             true pre post factory in
  s <> "" ->
  descriptors (world st) !! self = Some f ->
  v <> VNone ->
  is_sequence v = false ->
  clean self v (world st) = (Return c, w1) ->
  truthy (heap w1) c = true ->
  value_to_store self v (world st) = (Raise not_a_class, w1)
  /\ TypedField___set__ self instance v st
     = (Raise not_a_class, mkState w1 (hook_calls st))
  /\ entities w1 = entities (world st)
  /\ value_to_store self VNone (world st)
     = alloc (PyTypedList (_TypedList.mk (VStr s) [])) (world st).
Proof.
  intros f Hs Hf Hv Hseq Hclean Htr.
  assert (Hlc : TypedField.listclass f = PartialTypedList (VStr s)).
  { unfold f, TypedField___init__. simpl.
    by destruct (String.eqb_spec s ""). }
  assert (Hrun : value_to_store self v (world st) = (Raise not_a_class, w1)).
  { rewrite (value_to_store_scalar self f v (world st) Hf eq_refl Hv Hseq).
    unfold bind at 1. rewrite Hclean, Hlc. simpl.
    unfold bind, gets, _TypedList___init__. simpl.
    unfold _TypedList_append, _TypedList_insert. by rewrite Htr. }
  split; [done|]. split; [|split].
  - unfold TypedField___set__, bind, lift. by rewrite Hrun.
  - by apply (keeps_clean_entities self v _ _ _ Hclean).
  - unfold value_to_store, bind, get_descriptor. rewrite Hf.
    change (TypedField.multiple f) with true. cbv iota. by rewrite Hlc.
Qed.

Lemma insert_extends h self v self' :
  _TypedList_append h self v = inr self' ->
  exists added,
    _TypedList._inner self' = (_TypedList._inner self ++ added)%list
    /\ (length added <= 1)%nat.
Proof.
  unfold _TypedList_append, _TypedList_insert.
  destruct (truthy h v); simpl.
  - destruct (validated h self v) as [e|x]; [done|]. intros [= <-].
    exists [x]. simpl. unfold _TypedList___len__.
    by rewrite list_insert_at_end.
  - intros [= <-]. exists []. rewrite app_nil_r. split; [done|]. simpl. lia.
Qed.

(** X24: [extend] only adds at the end: when it returns, the elements
    the list had are still there, in the same order and at the same
    positions, followed by at most one new element for each value
    given; and when one of the values is refused the whole call raises. *)
Theorem extend_only_appends (h : gmap positive HeapObj)
    (values : list value) (self : _TypedList.t) :
  (forall self',
     _TypedList_extend h self values = inr self' ->
     exists added,
       _TypedList._inner self' = (_TypedList._inner self ++ added)%list
       /\ (length added <= length values)%nat)
  /\ (forall before v after e,
        values = (before ++ v :: after)%list ->
        (forall x, x ∈ before -> truthy h x = false) ->
        truthy h v = true ->
        validated h self v = inl e ->
        _TypedList_extend h self values = inl e).
Proof.
  split.
  - revert self. induction values as [|v values IH]; intros self self'; simpl.
    + intros [= <-]. exists []. by rewrite app_nil_r.
    + destruct (_TypedList_append h self v) as [e|s1] eqn:Ha; [done|].
      intros Hrest. apply insert_extends in Ha as (a1 & Ha1 & Hl1).
      apply IH in Hrest as (a2 & Ha2 & Hl2).
      exists (a1 ++ a2)%list. rewrite Ha2, Ha1, <- app_assoc.
      split; [done|]. rewrite length_app. lia.
  - intros before v after e -> Hfalsy Htr Hv.
    induction before as [|x before IH]; simpl.
    + unfold _TypedList_append, _TypedList_insert. by rewrite Htr, Hv.
    + rewrite (append_falsy h self x) by (apply Hfalsy; by left).
      apply IH. intros y Hy. apply Hfalsy. by right.
Qed.

(** X25: [unset] called without a class never removes anything: on an
    empty field storage it returns, and on any other it raises the
    [TypeError] of [isinstance] before the first removal; the store is
    unchanged in both cases. *)
Theorem unset_without_kinds_removes_nothing (entity : positive) (w : World) :
  unset entity [] w
  = (if decide (fields_of w entity = ∅) then Return tt
     else Raise not_a_class, w).
Proof.
  destruct (decide (fields_of w entity = ∅)) as [He|Hne].
  - by apply unset_no_kinds_empty.
  - by apply unset_no_kinds.
Qed.


End Properties.

(** * The properties on the concrete environment *)

#[local] Existing Instance demo_env.

Lemma demo_construct_not_none : construct_not_none.
Proof.
  intros c x r. simpl. unfold demo_classes.
  destruct (String.eqb c "int"); [|destruct (String.eqb c "demo.Name")];
    simpl.
  - destruct x; intros [= <-]; discriminate.
  - intros [= <-]. discriminate.
  - discriminate.
Qed.

(** C8 on the string ["demo.Name"]: it resolves to the class and one
    import is logged; the first read of [lazy.type_] and of
    [built.factory] imports [demo] once, and the second read imports
    nothing and changes nothing. *)
Lemma resolve_class_witness :
  _resolve_class (VStr "demo.Name") demo_world
    = (Return (VClass "demo.Name"), log_import "demo" demo_world)
  /\ (exists w2,
        TypedField_type_ 4 demo_world = (Return (VClass "demo.Name"), w2)
        /\ imported w2 = ["demo"]
        /\ TypedField_type_ 4 w2 = (Return (VClass "demo.Name"), w2))
  /\ (exists w2,
        TypedField_factory 13 demo_world_built
        = (Return (VClass "demo.Name"), w2)
        /\ imported w2 = ["demo"]
        /\ TypedField_factory 13 w2 = (Return (VClass "demo.Name"), w2)).
Proof.
  destruct (resolve_class_contract_and_cache demo_world)
    as (_ & _ & Hstr & _ & _ & _ & Hname).
  destruct (resolve_class_contract_and_cache demo_world_built)
    as (_ & _ & _ & _ & _ & _ & Hname').
  split; [exact (Hstr "demo" "Name" eq_refl)|]. split.
  - edestruct (Hname 4%positive demo_lazy "demo" "Name" "demo.Name")
      as [Htype _];
      [vm_compute; reflexivity|reflexivity|vm_compute; reflexivity|
       vm_compute; reflexivity|].
    apply Htype. reflexivity.
  - edestruct (Hname' 13%positive demo_built "demo" "Name" "demo.Name")
      as [_ Hfactory];
      [vm_compute; reflexivity|reflexivity|vm_compute; reflexivity|
       vm_compute; reflexivity|].
    apply Hfactory. reflexivity.
Defined.

(** C2 (as amended) on the castable field [id_], constructed with the
    class [Name]: a string is not a [Name], so the clean step returns
    [Name] called on it. *)
Lemma clean_behaviour_witness :
  TypedField.is_type_castable demo_id = _try_cast (classes "demo.Name")
  /\ TypedField__clean 1 (VStr "x") demo_world
     = (Return (VObj "demo.Name" (VStr "x")), demo_world).
Proof.
  destruct (clean_behaviour
              1%positive demo_id demo_world demo_world (VClass "demo.Name"))
    as (_ & _ & _ & _ & Hcast & _ & Hflag & _).
  - vm_compute. reflexivity.
  - vm_compute. reflexivity.
  - split.
    + destruct (Hflag ∅ IdField "id_" (VClass "demo.Name") VNone true false
                  None None VNone eq_refl) as [Hclass _].
      apply (Hclass "demo.Name"). reflexivity.
    + apply (Hcast (VStr "x") "demo.Name"); [reflexivity|discriminate|
        vm_compute; reflexivity|vm_compute; reflexivity].
Defined.

(** C2 as stated fails on [lazy], declared with the string
    ["demo.Name"]: its type is read as the class [Name], which is marked
    [_try_cast], and a string fails the membership test; yet the clean
    step raises the [TypeError] where the claim has [Name] called on the
    string. *)
Lemma clean_behaviour_counterexample :
  TypedField_type_ 4 demo_world = (Return (VClass "demo.Name"), demo_resolved)
  /\ _try_cast (classes "demo.Name") = true
  /\ satisfies (heap demo_resolved) "demo.Name" (VStr "x") = false
  /\ TypedField__clean 4 (VStr "x") demo_world
     = (Raise (Exn "TypeError" "%s must be a %s, not a %s"
                   [VStr "lazy"; VClass "demo.Name"; VClass "str"]),
        demo_resolved)
  /\ TypedField__clean 4 (VStr "x") demo_world
     <> (constructed "demo.Name" (VStr "x"), demo_resolved).
Proof.
  repeat split; try (vm_compute; reflexivity).
  vm_compute. discriminate.
Qed.

(** C9 on the field [lazy], declared with the string ["demo.Name"]: the
    class it resolves to is marked [_try_cast], yet a string is rejected. *)
Lemma deferred_type_never_cast_witness :
  _try_cast (demo_classes "demo.Name") = true
  /\ TypedField.is_type_castable demo_lazy = false
  /\ TypedField__clean 4 (VStr "x")
       demo_world
     = (Raise (Exn "TypeError" "%s must be a %s, not a %s"
                   [VStr "lazy"; VClass "demo.Name"; VClass "str"]),
        demo_resolved).
Proof.
  split; [reflexivity|].
  destruct (deferred_type_never_cast
              ∅ TypedFieldClass "lazy" "demo.Name" VNone false false None None
              VNone 4%positive demo_world demo_resolved "demo.Name"
              (VStr "x")) as (Hflag & Hfirst & _).
  - vm_compute. reflexivity.
  - vm_compute. reflexivity.
  - discriminate.
  - vm_compute. reflexivity.
  - split; [exact Hflag|exact Hfirst].
Defined.

(** C5 on a list of [Name]: a string is coerced, an empty string is
    skipped, and no [None] appears. *)
Lemma insert_contract_witness :
  _TypedList_insert ∅
    (_TypedList.mk (VClass "demo.Name") []) 0 (VStr "x")
  = inr (_TypedList.mk (VClass "demo.Name") [VObj "demo.Name" (VStr "x")])
  /\ (forall self',
        _TypedList_insert ∅
          (_TypedList.mk (VClass "demo.Name") []) 0 (VStr "x") = inr self' ->
        VNone ∉ _TypedList._inner self').
Proof.
  destruct (insert_contract ∅
              (_TypedList.mk (VClass "demo.Name") []) 0 (VStr "x"))
    as (_ & _ & Hcoerce & _ & Hnone).
  split.
  - apply (Hcoerce (VObj "demo.Name" (VStr "x"))); reflexivity.
  - intros self'. apply Hnone; [exact demo_construct_not_none|].
    simpl. apply not_elem_of_nil.
Defined.

(** C10 on a list of [Name]: assigning the empty string at position 0
    stores its coercion, where [insert] would have skipped it. *)
Lemma setitem_stores_falsy_values_witness :
  _TypedList___setitem__ ∅
    (_TypedList.mk (VClass "demo.Name") [VObj "demo.Name" (VStr "a")])
    0 (VStr "")
  = inr (_TypedList.mk (VClass "demo.Name") [VObj "demo.Name" (VStr "")])
  /\ _TypedList_insert ∅
       (_TypedList.mk (VClass "demo.Name") [VObj "demo.Name" (VStr "a")])
       0 (VStr "")
     = inr (_TypedList.mk (VClass "demo.Name") [VObj "demo.Name" (VStr "a")]).
Proof.
  destruct (setitem_stores_falsy_values ∅
              (_TypedList.mk (VClass "demo.Name")
                 [VObj "demo.Name" (VStr "a")]) 0 (VStr ""))
    as (_ & Hcoerce & _ & Hinsert).
  - vm_compute. split; [discriminate|reflexivity].
  - split.
    + apply (Hcoerce (VObj "demo.Name" (VStr ""))); reflexivity.
    + apply Hinsert. reflexivity.
Defined.

(** C3 (as amended) on [numbers] and [tags]: a truthy integer is stored
    as a one-element typed list; a sequence with nulls is stored without
    them, and each of the two hooks is called once with the stored list. *)
Lemma set_multiple_field_witness :
  value_to_store
    3 (VInt 5) demo_world
  = alloc (PyTypedList (_TypedList.mk (VClass "int") [VInt 5])) demo_world
  /\ heap (world demo_with_tags) !! 2%positive
     = Some (PyList [VStr "a"; VStr "b"])
  /\ hook_calls (demo_set 6 1 (VRef 1) demo_state).2
     = [mkHookCall 7 1 (VRef 2); mkHookCall 8 1 (VRef 2)].
Proof.
  split; [|split; [vm_compute; reflexivity|]].
  - destruct (set_multiple_field 3%positive demo_numbers demo_world)
      as (_ & Hscalar & _); [vm_compute; reflexivity|reflexivity|].
    destruct (Hscalar (VInt 5) (VInt 5) demo_world) as (_ & _ & Htyped);
      [discriminate|reflexivity|vm_compute; reflexivity|].
    apply Htyped; vm_compute; reflexivity.
  - destruct (set_multiple_field 6%positive demo_tags demo_world)
      as (_ & _ & _ & Hhooks); [vm_compute; reflexivity|reflexivity|].
    destruct (Hhooks 1%positive (VRef 1) demo_state (VRef 2)
                (alloc (PyList [VStr "a"; VStr "b"]) demo_world).2
                demo_tags
                (alloc (PyList [VStr "a"; VStr "b"]) demo_world).2
                demo_tags (world demo_with_tags)) as [_ Hcalls];
      [vm_compute; reflexivity ..|].
    apply (Hcalls 7%positive 8%positive); reflexivity.
Defined.

(** C3 as stated fails on [numbers]: the cleaned value of [0] is [0],
    yet the list stored for [entity.numbers = 0] is empty. *)
Lemma set_multiple_field_counterexample :
  demo_clean 3 (VInt 0) demo_world = (Return (VInt 0), demo_world)
  /\ (demo_setattr 3 1 (VInt 0) demo_state).1 = Return tt
  /\ fields_of (world demo_with_zero) 1 !! 3%positive = Some (VRef 2)
  /\ heap (world demo_with_zero) !! 2%positive
     = Some (PyTypedList (_TypedList.mk (VClass "int") []))
  /\ heap (world demo_with_zero) !! 2%positive
     <> Some (list_object (TypedField.listclass demo_numbers) [VInt 0]).
Proof.
  repeat split; try (vm_compute; reflexivity).
  vm_compute. discriminate.
Qed.

(** C1 (as amended) on the field [ident]: after [entity.idref = "Y"],
    a state the entity reaches by an assignment of the kind described,
    the entity does not hold both kinds, and setting [ident] to ["X"]
    removes the Idref entry. *)
Lemma id_idref_exclusion_witness :
  exclusive (world demo_with_idref) 1
  /\ exists w2,
       IdField___set__
         5 1 (VStr "X") demo_with_idref
       = (Return tt, mkState w2 (hook_calls demo_ident_stored))
       /\ same_but_fields 1 (world demo_ident_stored) w2
       /\ fields_of w2 1 =
            filter (fun kv =>
                      instance_of_any (world demo_ident_stored) [IdrefField]
                        kv.1 = false)
                   (fields_of (world demo_ident_stored) 1).
Proof.
  destruct (id_idref_exclusion 5%positive 1%positive (VStr "X") demo_with_idref
              demo_ident_stored) as (Hid & _ & _ & Hinv).
  - vm_compute. reflexivity.
  - split; [|apply Hid; reflexivity].
    apply Hinv.
    apply (assigned_setattr 1%positive demo_state 2%positive demo_idref
             (VStr "Y") (Return tt)).
    + apply assigned_empty. vm_compute. reflexivity.
    + vm_compute. reflexivity.
    + split; reflexivity.
    + intros _. split; [reflexivity|]. split; [reflexivity|].
      intros Hlist. discriminate Hlist.
    + vm_compute. reflexivity.
Defined.

(** C1 as stated fails on the typed field [id_]: after
    [entity.idref = "Y"] and [entity.id_ = ""], the entity holds the
    truthy [Name("")] and the truthy ["Y"]. *)
Lemma id_idref_exclusion_counterexample :
  fields_of (world demo_state) 1 = ∅
  /\ (demo_setattr 2 1 (VStr "Y") demo_state).1 = Return tt
  /\ (demo_setattr 1 1 (VStr "") demo_with_idref).1 = Return tt
  /\ fields_of (world demo_with_both) 1 !! 1%positive
     = Some (VObj "demo.Name" (VStr ""))
  /\ fields_of (world demo_with_both) 1 !! 2%positive = Some (VStr "Y")
  /\ ~ exclusive (world demo_with_both) 1.
Proof.
  repeat split; try (vm_compute; reflexivity).
  intros Hex. apply Hex. split.
  - exists 1%positive, demo_id, (VObj "demo.Name" (VStr "")).
    repeat split; vm_compute; reflexivity.
  - exists 2%positive, demo_idref, (VStr "Y").
    repeat split; vm_compute; reflexivity.
Qed.


(** C4 at the typed multiple field [numbers], not yet set: the first
    read stores and returns a reference to a new object, and a second
    read returns the same reference; but the object is a plain list,
    where [entity.numbers = None] stores a typed list of [int]. *)
Theorem get_unset_typed_field_stores_plain_list :
  exists w1,
    TypedField___get__ 3 (Some 1%positive) demo_world
      = (Return (GotValue (VRef 2)), w1)
    /\ TypedField___get__ 3 (Some 1%positive) w1
       = (Return (GotValue (VRef 2)), w1)
    /\ fields_of w1 1 !! 3%positive = Some (VRef 2)
    /\ heap w1 !! 2%positive = Some (PyList [])
    /\ TypedField.listclass demo_numbers = PartialTypedList (VClass "int")
    /\ heap (world (demo_set 3 1 VNone demo_state).2) !! 2%positive
       = Some (PyTypedList (_TypedList.mk (VClass "int") [])).
Proof.
  destruct (get_multiple_unset 3%positive 1%positive demo_numbers demo_world)
    as (w1 & Hfirst & Hstored & Hobj & Hsecond);
    [vm_compute; reflexivity ..|].
  exists w1. repeat split; try done; vm_compute; reflexivity.
Qed.

(** C6 at an entity with one stored field: [unset(entity)] raises a
    [TypeError] and removes nothing, whereas [unset(entity, IdrefField)]
    removes the entry. *)
Theorem unset_without_kinds_raises :
  fields_of (world demo_with_idref) 1 = {[2%positive := VStr "Y"]}
  /\ unset 1 [] (world demo_with_idref)
     = (Raise (Exn "TypeError"
                   "isinstance() arg 2 must be a type or tuple of types" []),
        world demo_with_idref)
  /\ fields_of (unset 1 [IdrefField] (world demo_with_idref)).2 1 = ∅
  /\ fields_of (unset 1 [IdField] (world demo_with_idref)).2 1
     = {[2%positive := VStr "Y"]}.
Proof.
  split; [vm_compute; reflexivity|]. split.
  - apply unset_no_kinds. vm_compute. discriminate.
  - split; vm_compute; reflexivity.
Qed.

(** * The further properties on the concrete environment *)

(** X1 on the reference ["Name"]. *)
Lemma separator_required_witness :
  _resolve_class (VStr "Name") demo_world
  = (Raise (Exn "ValueError"
                "not enough values to unpack (expected 2, got 1)" []),
     demo_world).
Proof. exact (proj1 (separator_required "Name" demo_world eq_refl)). Defined.

(** X2 on [missing], whose module cannot be imported: the second read
    imports again. *)
Lemma failed_resolution_is_retried_witness :
  descriptors (log_import "nowhere" demo_world_more)
  = descriptors demo_world_more
  /\ TypedField_type_ 7 (log_import "nowhere" demo_world_more)
     = (Raise demo_import_error,
        log_import "nowhere" (log_import "nowhere" demo_world_more)).
Proof.
  destruct (failed_resolution_is_retried 7%positive demo_world_more
              (log_import "nowhere" demo_world_more) demo_import_error)
    as (Hd & _ & _ & Hretry); [vm_compute; reflexivity|].
  split; [exact Hd|].
  apply (Hretry demo_missing "nowhere" "Thing"); reflexivity.
Defined.

(** X3 on [lazy]: the first read logs one import and changes no list
    object and no entity. *)
Lemma type_read_effect_witness :
  exists f,
    descriptors demo_world !! 4%positive = Some f
    /\ descriptors demo_resolved
       = <[4%positive := TypedField.with_type f (VClass "demo.Name")]>
           (descriptors demo_world)
    /\ heap demo_resolved = heap demo_world
    /\ entities demo_resolved = entities demo_world.
Proof.
  destruct (type_read_effect 4%positive demo_world demo_resolved
              (VClass "demo.Name")) as (f & Hf & Hd & Hh & He & _);
    [vm_compute; reflexivity|].
  exists f. by repeat split.
Defined.

(** X9 on [numbers]: [True] is an [int]. *)
Lemma check_type_agrees_with_typed_list_witness :
  TypedField_check_type 3 (VBool true) demo_world = (Return true, demo_world)
  /\ _TypedList_insert (heap demo_world) (_TypedList.mk (VClass "int") []) 0
       (VBool true)
     = inr (_TypedList.mk (VClass "int") [VBool true]).
Proof.
  destruct (check_type_agrees_with_typed_list 3%positive demo_numbers
              demo_world (VBool true)) as [_ Hclass];
    [vm_compute; reflexivity|].
  destruct (Hclass "int" []) as (Hcheck & _ & Hinsert); [reflexivity|].
  split; [exact Hcheck|]. apply Hinsert; reflexivity.
Defined.

(** X11 on [made]: the factory [Name] is preferred to the type [int]. *)
Lemma transformer_prefers_factory_witness :
  TypedField_transformer 12 demo_world_more
  = (Return (VClass "demo.Name"), demo_world_more).
Proof.
  destruct (transformer_prefers_factory 12%positive demo_made demo_world_more)
    as (Hfactory & _); [vm_compute; reflexivity|].
  apply (Hfactory "demo.Name"); reflexivity.
Defined.

(** X12 on [ident], constructed without a type and then given the
    castable class [Name]: a string is rejected, not converted. *)
Lemma type_setter_keeps_flags_witness :
  _try_cast (classes "demo.Name") = true
  /\ TypedField__clean 5 (VStr "x")
       (set_descriptor 5
          (TypedField.with_type demo_ident (VClass "demo.Name")) demo_world)
     = (Raise (Exn "TypeError" "%s must be a %s, not a %s"
                   [VStr "ident"; VClass "demo.Name"; VClass "str"]),
        set_descriptor 5
          (TypedField.with_type demo_ident (VClass "demo.Name")) demo_world).
Proof.
  split; [reflexivity|].
  destruct (type_setter_keeps_flags ∅ IdField "ident" VNone true false
              None None VNone 5%positive demo_world "demo.Name")
    as (_ & _ & _ & _ & Hclean); [vm_compute; reflexivity|].
  apply (Hclean (VStr "x")); [discriminate|vm_compute; reflexivity].
Defined.

(** X13 on [numbers]: [entity.numbers = 5] is read back as the list
    stored at address 2. *)
Lemma set_then_get_witness :
  exists st',
    TypedField___set__ 3 1 (VInt 5) demo_state = (Return tt, st')
    /\ TypedField___get__ 3 (Some 1%positive) (world st')
       = (Return (GotValue (VRef 2)), world st')
    /\ hook_calls st' = [].
Proof.
  destruct (set_then_get 3%positive 1%positive (VInt 5) (VRef 2) demo_state
              (alloc (PyTypedList (_TypedList.mk (VClass "int") [VInt 5]))
                 demo_world).2 demo_numbers)
    as (st' & Hset & Hget & Hcalls & _); [vm_compute; reflexivity ..|].
  exists st'. by repeat split.
Defined.

(** X15 on [ident], single-valued and not set: the read gives null. *)
Lemma get_behaviour_witness :
  TypedField___get__ 5 (Some 1%positive) demo_world
  = (Return (GotValue VNone), demo_world).
Proof.
  destruct (get_behaviour 5%positive 1%positive demo_ident demo_world)
    as (_ & _ & Hsingle & _); [vm_compute; reflexivity|].
  apply Hsingle; vm_compute; reflexivity.
Defined.

(** X16 on the entity holding [idref = "Y"]: [unset(entity, IdrefField)]
    leaves no entry for [idref]. *)
Lemma unset_removes_the_kinds_witness :
  exists w',
    unset 1 [IdrefField] (world demo_with_idref) = (Return tt, w')
    /\ fields_of w' 1 !! 2%positive = None.
Proof.
  destruct (unset_removes_the_kinds 1%positive [IdrefField]
              (world demo_with_idref))
    as (w' & Hrun & _ & Hlook & _); [discriminate|].
  exists w'. split; [exact Hrun|]. rewrite Hlook. vm_compute. reflexivity.
Defined.

(** X17 on [ident]: after [entity.idref = "Y"; entity.ident = "X"] the
    Id field reads ["X"] and the Idref field reads null. *)
Lemma id_set_read_back_witness :
  exists st2,
    IdField___set__ 5 1 (VStr "X") demo_with_idref = (Return tt, st2)
    /\ TypedField___get__ 5 (Some 1%positive) (world st2)
       = (Return (GotValue (VStr "X")), world st2)
    /\ TypedField___get__ 2 (Some 1%positive) (world st2)
       = (Return (GotValue VNone), world st2).
Proof.
  destruct (id_set_read_back 5%positive 1%positive (VStr "X") (VStr "X")
              demo_with_idref demo_ident_stored demo_ident)
    as [Hid _]; [vm_compute; reflexivity ..|].
  destruct (Hid eq_refl) as (st2 & Hset & Hget & Href & _).
  exists st2. split; [exact Hset|]. split; [exact Hget|].
  apply (Href 2%positive demo_idref); [vm_compute; reflexivity ..].
Defined.

(** X18 on [count]: the empty string is cleaned to null. *)
Lemma subclass_clean_ignores_type_witness :
  clean 8 (VStr "") demo_world_more = (Return VNone, demo_world_more)
  /\ clean 8 (VStr "0x10") demo_world_more
     = (outcome (int_base0 "0x10"), demo_world_more).
Proof.
  destruct (subclass_clean_ignores_type 8%positive demo_count demo_world_more)
    as (_ & Hnull & Hint & _);
    [vm_compute; reflexivity|discriminate ..|].
  split.
  - apply Hnull. by left.
  - apply Hint; [reflexivity|discriminate].
Defined.

(** X19 on [flag]: [entity.flag = None] stores [False]. *)
Lemma boolean_field_stores_a_bool_witness :
  exists st',
    TypedField___set__ 9 1 VNone demo_state_more = (Return tt, st')
    /\ fields_of (world st') 1 !! 9%positive = Some (VBool false).
Proof.
  destruct (boolean_field_stores_a_bool 9%positive 1%positive VNone
              demo_state_more demo_flag)
    as (st' & Hset & Hstored & _); [vm_compute; reflexivity ..|].
  exists st'. by split.
Defined.

(** X21 on [Title]: [find(entity, key_name="title")] does not match it,
    although its key name is ["title"]. *)
Lemma find_by_key_name_uses_override_witness :
  _matches 11 (remap_params [("key_name", VStr "title")]) demo_world_more
  = (Return false, demo_world_more)
  /\ TypedField_key_name 11 demo_world_more
     = (Return (VStr "title"), demo_world_more).
Proof.
  destruct (find_by_key_name_uses_override 11%positive demo_title
              demo_world_more "title") as [Hnone _];
    [vm_compute; reflexivity|].
  apply Hnone. reflexivity.
Defined.

(** X22 on [tags]: assigning the list at address 1 stores a new list at
    address 2 and leaves the list at address 1 as it was. *)
Lemma multiple_assignment_stores_fresh_object_witness :
  (value_to_store 6 (VRef 1) demo_world).1 = Return (VRef 2)
  /\ heap (value_to_store 6 (VRef 1) demo_world).2 !! 1%positive
     = heap demo_world !! 1%positive.
Proof.
  destruct (multiple_assignment_stores_fresh_object 6%positive demo_tags
              (VRef 1) (VRef 2) demo_world
              (value_to_store 6 (VRef 1) demo_world).2)
    as (_ & _ & Hother & _); [vm_compute; reflexivity ..|].
  split; [vm_compute; reflexivity|]. apply Hother. discriminate.
Defined.

(** X23 on [names], declared with the string ["demo.Name"]: assigning an
    instance of [Name] raises. *)
Lemma deferred_multiple_field_rejects_elements_witness :
  TypedField___set__ 10 1 (VObj "demo.Name" (VStr "x")) demo_state_more
  = (Raise not_a_class,
     mkState (TypedField_type_ 10 demo_world_more).2 []).
Proof.
  destruct (deferred_multiple_field_rejects_elements ∅ TypedFieldClass
              "names" "demo.Name" VNone true None None VNone 10%positive
              1%positive (VObj "demo.Name" (VStr "x"))
              (VObj "demo.Name" (VStr "x")) demo_state_more
              (TypedField_type_ 10 demo_world_more).2)
    as (_ & Hset & _);
    [discriminate|vm_compute; reflexivity|discriminate|reflexivity|
     vm_compute; reflexivity|reflexivity|].
  exact Hset.
Defined.
